(** * Harry's Reading List: a shallow embedding of app.js

    The development follows the layout of [app.js]:

    - [JS]      the JavaScript values the program manipulates, property
                access, truthiness, the string built-ins it calls;
    - [JSON]    [JSON.stringify] and [JSON.parse] on those values;
    - [App]     the application functions themselves, under their source
                names: [loadCoverCache], [saveCoverCache],
                [fetchCoverForBook], [loadBooks], [saveBooks], the six
                filters of [renderAll], [getFilteredBooks],
                the handlers of [showBookDetail], [handleFormSubmit],
                [exportBooks] and [doImport];
    - the functions around them: [init], [updateStats], the filter
                controls, the sort of [renderList], the cover of
                [createBookCard], [starsHtml], [escapeAttr],
                [openEditForm];
    - the properties of the specification, one section per subsystem,
      and further properties of the code.

    Scope of the model.  Numbers are the integers (every numeric field of a
    book is produced by [parseInt(..) || null]); strings are sequences of
    8-bit code units.  A computation that leaves this fragment (a numeral
    with a fraction or an exponent, a [\u] escape above [00ff], arithmetic
    on a non-integer string) yields the outcome [Beyond], about which no
    theorem below says anything.  The DOM is not modelled: values read from
    form controls are arguments, notifications are appended to a log, and
    the redrawing that follows a mutation is a parameter of the model.  A
    write to [localStorage] is taken to succeed.  [fetchCoverForBook] is
    an async function: it is modelled run without interruption, and as a
    call and a return between which other calls and other code run. *)

From Stdlib Require Import ZArith List String Ascii Bool Lia.
From Stdlib Require Import Permutation Sorted.
From Stdlib Require Import DecimalString DecimalN DecimalPos.
From stdpp Require Import gmap strings.
Import ListNotations.

Local Open Scope string_scope.
Local Open Scope Z_scope.

#[local] Arguments String.append (s1 s2)%_string_scope : simpl nomatch.

(** ** Outcomes of a JavaScript evaluation *)

Inductive Exn : Type :=
| TypeError
| SyntaxError
| NetworkError.

Inductive Result (A : Type) : Type :=
| Ok (a : A)
| Throw (e : Exn)
| Beyond.

Arguments Ok {A} a.
Arguments Throw {A} e.
Arguments Beyond {A}.

Definition rbind {A B} (r : Result A) (f : A -> Result B) : Result B :=
  match r with
  | Ok a => f a
  | Throw e => Throw e
  | Beyond => Beyond
  end.

Notation "x <- r ;; k" := (rbind r (fun x => k))
  (at level 100, r at next level, right associativity) : stdpp_scope.

(** [try { r } catch { h }] *)
Definition try_catch {A} (r : Result A) (h : Exn -> Result A) : Result A :=
  match r with
  | Throw e => h e
  | _ => r
  end.

(** [Array.prototype.map] / [filter] with a callback that may throw. *)
Fixpoint mapM {A B} (f : A -> Result B) (l : list A) : Result (list B) :=
  match l with
  | [] => Ok []
  | x :: l' => y <- f x ;; ys <- mapM f l' ;; Ok (y :: ys)
  end.

Fixpoint filterM {A} (f : A -> Result bool) (l : list A) : Result (list A) :=
  match l with
  | [] => Ok []
  | x :: l' =>
      b <- f x ;; ys <- filterM f l' ;; Ok (if b then x :: ys else ys)
  end.

(** ** Characters *)

Definition dquote : ascii := "034"%char.
Definition backslash : ascii := "092"%char.
Definition newline : ascii := "010"%char.
Definition str1 (c : ascii) : string := String c EmptyString.

Definition is_digit (c : ascii) : bool :=
  let n := N_of_ascii c in ((48 <=? n) && (n <=? 57))%N.

(** ** JavaScript values *)

Module JS.

#[local] Unset Elimination Schemes.
Inductive JSValue : Type :=
| JUndefined
| JNull
| JBool (b : bool)
| JNum (n : Z)
| JStr (s : string)
| JArr (l : list JSValue)
| JObj (o : list (string * JSValue)).
#[local] Set Elimination Schemes.

(** An object is its list of own properties in property order. *)
Definition Object := list (string * JSValue).

Section JSValue_induction.
Variable P : JSValue -> Prop.
Hypothesis Hundef : P JUndefined.
Hypothesis Hnull : P JNull.
Hypothesis Hbool : forall b, P (JBool b).
Hypothesis Hnum : forall n, P (JNum n).
Hypothesis Hstr : forall s, P (JStr s).
Hypothesis Harr : forall l, Forall P l -> P (JArr l).
Hypothesis Hobj : forall o, Forall (fun kv => P (snd kv)) o -> P (JObj o).

Fixpoint JSValue_nested_ind (v : JSValue) : P v :=
  match v with
  | JUndefined => Hundef
  | JNull => Hnull
  | JBool b => Hbool b
  | JNum n => Hnum n
  | JStr s => Hstr s
  | JArr l =>
      Harr l ((fix go (l : list JSValue) : Forall P l :=
                 match l with
                 | [] => List.Forall_nil P
                 | x :: l' => List.Forall_cons P x l' (JSValue_nested_ind x) (go l')
                 end) l)
  | JObj o =>
      Hobj o ((fix go (o : list (string * JSValue))
                 : Forall (fun kv => P (snd kv)) o :=
                 match o with
                 | [] => List.Forall_nil _
                 | kv :: o' =>
                     List.Forall_cons _ kv o' (JSValue_nested_ind (snd kv)) (go o')
                 end) o)
  end.
End JSValue_induction.

(** Decimal rendering of integers ([Number::toString] on an integer). *)
Definition render_N (n : N) : string := NilEmpty.string_of_uint (N.to_uint n).

Definition render_Z (z : Z) : string :=
  match z with
  | Zneg p => String "-" (render_N (Npos p))
  | _ => render_N (Z.to_N z)
  end.

(** Own-property lookup, [o[k]]. *)
Fixpoint obj_get (o : Object) (k : string) : option JSValue :=
  match o with
  | [] => None
  | (k', v) :: o' => if String.eqb k' k then Some v else obj_get o' k
  end.

(** [k in o] for an ordinary object. *)
Definition obj_has (o : Object) (k : string) : bool :=
  match obj_get o k with Some _ => true | None => false end.

(** [o[k] = v]: overwrite in place, or append a new property. *)
Fixpoint obj_set (o : Object) (k : string) (v : JSValue) : Object :=
  match o with
  | [] => [(k, v)]
  | (k', v') :: o' =>
      if String.eqb k' k then (k', v) :: o' else (k', v') :: obj_set o' k v
  end.

(** Truthiness (ToBoolean). *)
Definition truthy (v : JSValue) : bool :=
  match v with
  | JUndefined | JNull => false
  | JBool b => b
  | JNum n => negb (n =? 0)
  | JStr s => negb (String.eqb s EmptyString)
  | JArr _ | JObj _ => true
  end.

(** [a || b] *)
Definition js_or (a b : JSValue) : JSValue := if truthy a then a else b.

(** A canonical decimal numeral: [0], or digits without a leading zero. *)
Definition N_of_numeral (s : string) : option N :=
  match NilEmpty.uint_of_string s with
  | Some u =>
      let n := N.of_uint u in
      if String.eqb (render_N n) s then Some n else None
  | None => None
  end.

Fixpoint string_nth (s : string) (i : nat) : JSValue :=
  match s, i with
  | EmptyString, _ => JUndefined
  | String c _, O => JStr (str1 c)
  | String _ s', S i' => string_nth s' i'
  end.

(** [v[i]] for an integer index. *)
Definition get_index (v : JSValue) (i : nat) : Result JSValue :=
  match v with
  | JUndefined | JNull => Throw TypeError
  | JArr l => Ok (nth i l JUndefined)
  | JStr s => Ok (string_nth s i)
  | JObj o =>
      Ok (match obj_get o (render_N (N.of_nat i)) with
          | Some x => x
          | None => JUndefined
          end)
  | JBool _ | JNum _ => Ok JUndefined
  end.

(** [v.k], for the property names the program reads: none of them is
    defined on a built-in prototype, so on a primitive or an array only
    [length] and the indices exist.  Reading a property of [null] or
    [undefined] is a TypeError. *)
Definition get_prop (v : JSValue) (k : string) : Result JSValue :=
  match v with
  | JUndefined | JNull => Throw TypeError
  | JObj o => Ok (match obj_get o k with Some x => x | None => JUndefined end)
  | JArr l =>
      if String.eqb k "length" then Ok (JNum (Z.of_nat (length l)))
      else match N_of_numeral k with
           | Some i => Ok (nth (N.to_nat i) l JUndefined)
           | None => Ok JUndefined
           end
  | JStr s =>
      if String.eqb k "length" then Ok (JNum (Z.of_nat (String.length s)))
      else match N_of_numeral k with
           | Some i => Ok (string_nth s (N.to_nat i))
           | None => Ok JUndefined
           end
  | JBool _ | JNum _ => Ok JUndefined
  end.

(** [v.k = x] in strict mode, on the object itself. *)
Definition set_prop (v : JSValue) (k : string) (x : JSValue) : Result JSValue :=
  match v with
  | JObj o => Ok (JObj (obj_set o k x))
  | _ => Throw TypeError
  end.

(** [Array.prototype.join] on already converted elements. *)
Fixpoint join (sep : string) (l : list string) : string :=
  match l with
  | [] => EmptyString
  | [x] => x
  | x :: l' => x ++ sep ++ join sep l'
  end.

(** ToString.  An object converts through [Object.prototype.toString]
    unless it carries an own [toString] property.  In data coming from
    JSON such a property is never callable, and the conversion then turns
    to [valueOf], which gives no primitive either, own or inherited. *)
Fixpoint to_string (v : JSValue) : Result string :=
  match v with
  | JUndefined => Ok "undefined"
  | JNull => Ok "null"
  | JBool true => Ok "true"
  | JBool false => Ok "false"
  | JNum n => Ok (render_Z n)
  | JStr s => Ok s
  | JArr l =>
      parts <- mapM (fun x => match x with
                              | JUndefined | JNull => Ok EmptyString
                              | _ => to_string x
                              end) l ;;
      Ok (join "," parts)
  | JObj o =>
      if obj_has o "toString" then Throw TypeError
      else Ok "[object Object]"
  end.

(** [v === s] against a string. *)
Definition strict_eq_str (v : JSValue) (s : string) : bool :=
  match v with JStr s' => String.eqb s' s | _ => false end.

(** [v === n] against a number; [None] is NaN, equal to nothing. *)
Definition strict_eq_num (v : JSValue) (n : option Z) : bool :=
  match v, n with JNum m, Some n => m =? n | _, _ => false end.

(** [v == null] *)
Definition loose_eq_null (v : JSValue) : bool :=
  match v with JUndefined | JNull => true | _ => false end.

(** SameValueZero between a value held by the program and a value of a
    freshly parsed document: primitives compare by value, an object or an
    array is never the same reference as one of the other side. *)
Definition same_value_zero (a b : JSValue) : bool :=
  match a, b with
  | JUndefined, JUndefined => true
  | JNull, JNull => true
  | JBool x, JBool y => Bool.eqb x y
  | JNum x, JNum y => x =? y
  | JStr x, JStr y => String.eqb x y
  | _, _ => false
  end.

(** *** String built-ins *)

Fixpoint string_map (f : ascii -> ascii) (s : string) : string :=
  match s with
  | EmptyString => EmptyString
  | String c s' => String (f c) (string_map f s')
  end.

Definition lower_char (c : ascii) : ascii :=
  let n := N_of_ascii c in
  if ((65 <=? n) && (n <=? 90))%N then ascii_of_N (n + 32)
  else if ((192 <=? n) && (n <=? 222) && negb (n =? 215))%N
       then ascii_of_N (n + 32)
  else c.

(** [String.prototype.toLowerCase] *)
Definition toLowerCase (s : string) : string := string_map lower_char s.

(** WhiteSpace and LineTerminator code units. *)
Definition is_space (c : ascii) : bool :=
  let n := N_of_ascii c in
  (((9 <=? n) && (n <=? 13)) || (n =? 32) || (n =? 160))%N.

Fixpoint trim_start (s : string) : string :=
  match s with
  | String c s' => if is_space c then trim_start s' else s
  | EmptyString => EmptyString
  end.

Fixpoint trim_end (s : string) : string :=
  match s with
  | EmptyString => EmptyString
  | String c s' =>
      match trim_end s' with
      | EmptyString => if is_space c then EmptyString else str1 c
      | t => String c t
      end
  end.

(** [String.prototype.trim] *)
Definition trim (s : string) : string := trim_end (trim_start s).

(** [String.prototype.includes] *)
Fixpoint includes (s q : string) : bool :=
  String.prefix q s ||
  match s with
  | EmptyString => false
  | String _ s' => includes s' q
  end.

(** [s.replace(pat, by)] with a string pattern: the first occurrence. *)
Fixpoint drop (n : nat) (s : string) : string :=
  match n, s with
  | O, _ => s
  | S n', String _ s' => drop n' s'
  | S _, EmptyString => EmptyString
  end.

Fixpoint replace_first (fuel : nat) (s pat by_ : string) : string :=
  if String.prefix pat s then by_ ++ drop (String.length pat) s
  else match fuel, s with
       | S fuel', String c s' => String c (replace_first fuel' s' pat by_)
       | _, _ => s
       end.

Definition replace (s pat by_ : string) : string :=
  replace_first (String.length s) s pat by_.

(** [s.split(",")] *)
Fixpoint split_comma (s : string) : list string :=
  match s with
  | EmptyString => [EmptyString]
  | String c s' =>
      if Ascii.eqb c "," then EmptyString :: split_comma s'
      else match split_comma s' with
           | [] => [str1 c]
           | x :: l => String c x :: l
           end
  end.

(** Value of a digit in the given radix. *)
Definition digit_value (radix : N) (c : ascii) : option N :=
  let n := N_of_ascii c in
  let d := if ((48 <=? n) && (n <=? 57))%N then Some (n - 48)%N
           else if ((97 <=? n) && (n <=? 122))%N then Some (n - 87)%N
           else if ((65 <=? n) && (n <=? 90))%N then Some (n - 55)%N
           else None in
  match d with
  | Some d => if (d <? radix)%N then Some d else None
  | None => None
  end.

Fixpoint digits_prefix (radix : N) (s : string) (acc : option N) : option N :=
  match s with
  | EmptyString => acc
  | String c s' =>
      match digit_value radix c with
      | Some d =>
          digits_prefix radix s'
            (Some (match acc with Some a => a * radix + d | None => d end)%N)
      | None => acc
      end
  end.

(** [parseInt(s)] with the default radix; [None] is NaN. *)
Definition parseInt (s : string) : option Z :=
  let s := trim_start s in
  let '(neg, s) :=
    match s with
    | String "-" s' => (true, s')
    | String "+" s' => (false, s')
    | _ => (false, s)
    end in
  let '(radix, s) :=
    match s with
    | String "0" (String "x" s') => (16%N, s')
    | String "0" (String "X" s') => (16%N, s')
    | _ => (10%N, s)
    end in
  match digits_prefix radix s None with
  | Some n => Some (if neg then - Z.of_N n else Z.of_N n)
  | None => None
  end.

(** [parseInt(s) || null] *)
Definition parseInt_or_null (s : string) : JSValue :=
  match parseInt s with
  | Some n => if n =? 0 then JNull else JNum n
  | None => JNull
  end.

Definition hex_upper (n : N) : ascii :=
  if (n <? 10)%N then ascii_of_N (48 + n) else ascii_of_N (55 + n).

Definition percent (n : N) : string :=
  String "%" (String (hex_upper (n / 16)) (str1 (hex_upper (n mod 16)))).

Definition uri_unreserved (c : ascii) : bool :=
  let n := N_of_ascii c in
  (((48 <=? n) && (n <=? 57)) || ((65 <=? n) && (n <=? 90))
   || ((97 <=? n) && (n <=? 122)))%N
  || existsb (Ascii.eqb c) ["-"; "_"; "."; "!"; "~"; "*"; "'"; "("; ")"]%char.

(** [encodeURIComponent]: the UTF-8 bytes of every reserved code unit,
    percent-escaped. *)
Fixpoint encodeURIComponent (s : string) : string :=
  match s with
  | EmptyString => EmptyString
  | String c s' =>
      let n := N_of_ascii c in
      (if uri_unreserved c then str1 c
       else if (n <? 128)%N then percent n
       else percent (192 + n / 64) ++ percent (128 + n mod 64))
      ++ encodeURIComponent s'
  end.

End JS.
Export JS.

(** ** JSON.stringify and JSON.parse *)

Module JSON.

(** *** Serialization *)

Definition hex_lower (n : N) : ascii :=
  if (n <? 10)%N then ascii_of_N (48 + n) else ascii_of_N (87 + n).

Definition esc (c : ascii) : string := String backslash (str1 c).

(** One code unit inside a quoted string (QuoteJSONString). *)
Definition escape_char (c : ascii) : string :=
  let n := N_of_ascii c in
  if (n =? 8)%N then esc "b"
  else if (n =? 9)%N then esc "t"
  else if (n =? 10)%N then esc "n"
  else if (n =? 12)%N then esc "f"
  else if (n =? 13)%N then esc "r"
  else if (n =? 34)%N then esc dquote
  else if (n =? 92)%N then esc backslash
  else if (n <? 32)%N then
    String backslash
      (String "u" (String "0" (String "0"
         (String (hex_lower (n / 16)) (str1 (hex_lower (n mod 16)))))))
  else str1 c.

Fixpoint escape_string (s : string) : string :=
  match s with
  | EmptyString => EmptyString
  | String c s' => escape_char c ++ escape_string s'
  end.

Definition quote (s : string) : string :=
  String dquote (escape_string s ++ str1 dquote).

(** Wrapping of the serialized elements of an array or the members of an
    object (the end of SerializeJSONArray and SerializeJSONObject). *)
Definition wrap (opening closing : ascii) (gap stepback : string)
    (parts : list string) : string :=
  match parts with
  | [] => String opening (str1 closing)
  | _ =>
      match gap with
      | EmptyString => String opening (join "," parts ++ str1 closing)
      | _ =>
          let indent := stepback ++ gap in
          String opening
            (str1 newline ++ indent
             ++ join (String "," (str1 newline) ++ indent) parts
             ++ str1 newline ++ stepback ++ str1 closing)
      end
  end.

(** The members of an object whose value serializes ([undefined] is left
    out). *)
Fixpoint present (l : list (option string)) : list string :=
  match l with
  | [] => []
  | Some s :: l' => s :: present l'
  | None :: l' => present l'
  end.

(** SerializeJSONProperty: [None] is [undefined]. *)
Fixpoint ser (gap indent : string) (v : JSValue) : option string :=
  match v with
  | JUndefined => None
  | JNull => Some "null"
  | JBool true => Some "true"
  | JBool false => Some "false"
  | JNum n => Some (render_Z n)
  | JStr s => Some (quote s)
  | JArr l =>
      Some (wrap "[" "]" gap indent
              (map (fun x => match ser gap (indent ++ gap) x with
                             | Some t => t
                             | None => "null"
                             end) l))
  | JObj o =>
      Some (wrap "{" "}" gap indent
              (present
                 (map (fun kv =>
                         match ser gap (indent ++ gap) (snd kv) with
                         | Some t =>
                             Some (quote (fst kv) ++ ":"
                                   ++ match gap with
                                      | EmptyString => EmptyString
                                      | _ => " "
                                      end ++ t)
                         | None => None
                         end) o)))
  end.

(** [JSON.stringify(v)] and [JSON.stringify(v, null, 2)], converted to the
    string that [localStorage.setItem] or a [Blob] receives. *)
Definition stringify (v : JSValue) : string :=
  match ser EmptyString EmptyString v with
  | Some t => t
  | None => "undefined"
  end.

Definition stringify_pretty (v : JSValue) : string :=
  match ser "  " EmptyString v with
  | Some t => t
  | None => "undefined"
  end.

(** *** Parsing: the lexical grammar *)

Inductive token : Type :=
| TLBrack | TRBrack | TLBrace | TRBrace | TComma | TColon
| TStr (s : string)
| TNum (n : Z)
| TTrue | TFalse | TNull.

(** The scanner reads one code unit at a time.  Accumulators hold the
    code units read so far in reverse. *)
Inductive lex_state : Type :=
| LStart
| LNum (neg : bool) (digits : list ascii)
| LStr (acc : list ascii)
| LEsc (acc : list ascii)
| LHex (acc : list ascii) (hs : list N)
| LLit (t : token) (rest : list ascii).

Definition is_json_ws (c : ascii) : bool :=
  let n := N_of_ascii c in ((n =? 32) || (n =? 9) || (n =? 10) || (n =? 13))%N.

Definition lex_start (c : ascii) : Result (lex_state * list token) :=
  if is_json_ws c then Ok (LStart, [])
  else if Ascii.eqb c "[" then Ok (LStart, [TLBrack])
  else if Ascii.eqb c "]" then Ok (LStart, [TRBrack])
  else if Ascii.eqb c "{" then Ok (LStart, [TLBrace])
  else if Ascii.eqb c "}" then Ok (LStart, [TRBrace])
  else if Ascii.eqb c "," then Ok (LStart, [TComma])
  else if Ascii.eqb c ":" then Ok (LStart, [TColon])
  else if Ascii.eqb c dquote then Ok (LStr [], [])
  else if Ascii.eqb c "-" then Ok (LNum true [], [])
  else if is_digit c then Ok (LNum false [c], [])
  else if Ascii.eqb c "t" then Ok (LLit TTrue ["r"; "u"; "e"]%char, [])
  else if Ascii.eqb c "f" then Ok (LLit TFalse ["a"; "l"; "s"; "e"]%char, [])
  else if Ascii.eqb c "n" then Ok (LLit TNull ["u"; "l"; "l"]%char, [])
  else Throw SyntaxError.

(** The end of an integer numeral: an optional minus sign, then a single
    zero or a run of digits without a leading zero. *)
Definition finish_num (neg : bool) (digits : list ascii) : Result token :=
  match N_of_numeral (string_of_list_ascii (rev digits)) with
  | Some n => Ok (TNum (if neg then - Z.of_N n else Z.of_N n))
  | None => Throw SyntaxError
  end.

(** A fraction or an exponent continues the numeral outside the modelled
    fragment. *)
Definition continues_numeral (c : ascii) : bool :=
  Ascii.eqb c "." || Ascii.eqb c "e" || Ascii.eqb c "E".

Definition hex_code (hs : list N) : N :=
  fold_left (fun a h => a * 16 + h)%N hs 0%N.

Definition lex_step (st : lex_state) (c : ascii)
  : Result (lex_state * list token) :=
  match st with
  | LStart => lex_start c
  | LNum neg ds =>
      if is_digit c then Ok (LNum neg (c :: ds), [])
      else
        t <- finish_num neg ds ;;
        if continues_numeral c then Beyond
        else
          r <- lex_start c ;;
          Ok (fst r, t :: snd r)
  | LStr acc =>
      if Ascii.eqb c dquote
      then Ok (LStart, [TStr (string_of_list_ascii (rev acc))])
      else if Ascii.eqb c backslash then Ok (LEsc acc, [])
      else if (N_of_ascii c <? 32)%N then Throw SyntaxError
      else Ok (LStr (c :: acc), [])
  | LEsc acc =>
      if Ascii.eqb c dquote then Ok (LStr (dquote :: acc), [])
      else if Ascii.eqb c backslash then Ok (LStr (backslash :: acc), [])
      else if Ascii.eqb c "/" then Ok (LStr ("/"%char :: acc), [])
      else if Ascii.eqb c "b" then Ok (LStr ("008"%char :: acc), [])
      else if Ascii.eqb c "f" then Ok (LStr ("012"%char :: acc), [])
      else if Ascii.eqb c "n" then Ok (LStr ("010"%char :: acc), [])
      else if Ascii.eqb c "r" then Ok (LStr ("013"%char :: acc), [])
      else if Ascii.eqb c "t" then Ok (LStr ("009"%char :: acc), [])
      else if Ascii.eqb c "u" then Ok (LHex acc [], [])
      else Throw SyntaxError
  | LHex acc hs =>
      match digit_value 16 c with
      | None => Throw SyntaxError
      | Some h =>
          let hs' := (hs ++ [h])%list in
          if (length hs' <? 4)%nat then Ok (LHex acc hs', [])
          else if (hex_code hs' <? 256)%N
               then Ok (LStr (ascii_of_N (hex_code hs') :: acc), [])
          else Beyond
      end
  | LLit t rest =>
      match rest with
      | [] => Throw SyntaxError
      | x :: rest' =>
          if Ascii.eqb c x
          then match rest' with
               | [] => Ok (LStart, [t])
               | _ => Ok (LLit t rest', [])
               end
          else Throw SyntaxError
      end
  end.

(** The end of the text. *)
Definition lex_finish (st : lex_state) : Result (list token) :=
  match st with
  | LStart => Ok []
  | LNum neg ds => t <- finish_num neg ds ;; Ok [t]
  | _ => Throw SyntaxError
  end.

Fixpoint lex_go (st : lex_state) (s : string) : Result (list token) :=
  match s with
  | EmptyString => lex_finish st
  | String c s' =>
      r <- lex_step st c ;;
      ts <- lex_go (fst r) s' ;;
      Ok (snd r ++ ts)%list
  end.

(** *** Parsing: the syntactic grammar *)

(** [elements] after the first one has been announced: a value, then
    either a comma and more elements, or the closing bracket. *)
Fixpoint parse_elements
    (value : list token -> Result (JSValue * list token))
    (fuel : nat) (ts : list token) : Result (list JSValue * list token) :=
  match fuel with
  | O => Beyond
  | S fuel' =>
      r <- value ts ;;
      match snd r with
      | TComma :: ts' =>
          r' <- parse_elements value fuel' ts' ;;
          Ok (fst r :: fst r', snd r')
      | TRBrack :: ts' => Ok ([fst r], ts')
      | _ => Throw SyntaxError
      end
  end.

Fixpoint parse_members
    (value : list token -> Result (JSValue * list token))
    (fuel : nat) (ts : list token)
  : Result (list (string * JSValue) * list token) :=
  match fuel with
  | O => Beyond
  | S fuel' =>
      match ts with
      | TStr k :: TColon :: ts1 =>
          r <- value ts1 ;;
          match snd r with
          | TComma :: ts' =>
              r' <- parse_members value fuel' ts' ;;
              Ok ((k, fst r) :: fst r', snd r')
          | TRBrace :: ts' => Ok ([(k, fst r)], ts')
          | _ => Throw SyntaxError
          end
      | _ => Throw SyntaxError
      end
  end.

(** The object denoted by a member list: a later member with the same key
    overwrites the earlier one. *)
Definition object_of_members (ms : list (string * JSValue)) : Object :=
  fold_left (fun o kv => obj_set o (fst kv) (snd kv)) ms [].

Fixpoint parse_value (fuel : nat) (ts : list token)
  : Result (JSValue * list token) :=
  match fuel with
  | O => Beyond
  | S fuel' =>
      match ts with
      | TNull :: ts' => Ok (JNull, ts')
      | TTrue :: ts' => Ok (JBool true, ts')
      | TFalse :: ts' => Ok (JBool false, ts')
      | TNum n :: ts' => Ok (JNum n, ts')
      | TStr s :: ts' => Ok (JStr s, ts')
      | TLBrack :: TRBrack :: ts' => Ok (JArr [], ts')
      | TLBrack :: ts' =>
          r <- parse_elements (parse_value fuel') fuel' ts' ;;
          Ok (JArr (fst r), snd r)
      | TLBrace :: TRBrace :: ts' => Ok (JObj [], ts')
      | TLBrace :: ts' =>
          r <- parse_members (parse_value fuel') fuel' ts' ;;
          Ok (JObj (object_of_members (fst r)), snd r)
      | _ => Throw SyntaxError
      end
  end.

(** [JSON.parse(text)]: a SyntaxError is thrown on text outside the JSON
    grammar. *)
Definition parse (text : string) : Result JSValue :=
  ts <- lex_go LStart text ;;
  r <- parse_value (S (length ts)) ts ;;
  match snd r with
  | [] => Ok (fst r)
  | _ => Throw SyntaxError
  end.

End JSON.

(** ** Built-ins whose result the standard leaves to the implementation *)

(** [String.prototype.localeCompare]: the host's collation.  ECMA-262
    requires it to be a consistent comparison function on all strings. *)
Class Collation : Type := {
  localeCompare : string -> string -> comparison;
  localeCompare_antisym :
    forall a b, localeCompare a b = CompOpp (localeCompare b a);
  localeCompare_trans :
    forall a b c,
      localeCompare a b <> Gt -> localeCompare b c <> Gt ->
      localeCompare a c <> Gt
}.

Definition Z_of_comparison (c : comparison) : Z :=
  match c with Lt => -1 | Eq => 0 | Gt => 1 end.

(** [Array.prototype.sort(cmp)].  The standard fixes the result for a
    consistent comparator (sorted, and stable since ES2019) and leaves the
    sequence of comparisons to the implementation; stable insertion is one
    such implementation.  The comparator yields a number ([None] is NaN,
    which [sort] reads as [0]) or throws. *)
Section Sort.
Context {A : Type}.
Variable cmp : A -> A -> Result (option Z).

Definition positive_result (c : option Z) : bool :=
  match c with Some n => 0 <? n | None => false end.

Fixpoint sort_insert (x : A) (l : list A) : Result (list A) :=
  match l with
  | [] => Ok [x]
  | y :: l' =>
      c <- cmp x y ;;
      if positive_result c
      then r <- sort_insert x l' ;; Ok (y :: r)
      else Ok (x :: l)
  end.

Fixpoint array_sort (l : list A) : Result (list A) :=
  match l with
  | [] => Ok []
  | x :: l' => r <- array_sort l' ;; sort_insert x r
  end.
End Sort.

(** ** The application *)

Module App.

Definition STORAGE_KEY : string := "harrys-reading-list".
Definition COVER_CACHE_KEY : string := "reading-list-covers".

(** [STATUS_LABELS], in declaration order. *)
Definition STATUS_LABELS : list (string * string) :=
  [("wishlist", "Wishlist"); ("up-next", "Up Next");
   ("reading", "Currently Reading"); ("on-hold", "On Hold");
   ("finished", "Finished")].

(** The state the modelled functions read and write: the [books] array,
    the browser's [localStorage], and the notifications shown so far by
    [showToast], oldest first. *)
Record State : Type := mkState {
  books : list JSValue;
  localStorage : gmap string string;
  toasts : list string
}.

(** *** State and exceptions *)

Inductive Outcome (A : Type) : Type :=
| Done (a : A) (st : State)
| Uncaught (e : Exn) (st : State)
| Unmodelled.

Arguments Done {A} a st.
Arguments Uncaught {A} e st.
Arguments Unmodelled {A}.

Definition M (A : Type) : Type := State -> Outcome A.

Definition ret {A} (a : A) : M A := fun st => Done a st.

Definition bind {A B} (m : M A) (f : A -> M B) : M B :=
  fun st =>
    match m st with
    | Done a st' => f a st'
    | Uncaught e st' => Uncaught e st'
    | Unmodelled => Unmodelled
    end.

Notation "x <~ m ;; k" := (bind m (fun x => k))
  (at level 100, m at next level, right associativity).
Notation "m ;;; k" := (bind m (fun _ => k))
  (at level 100, right associativity).

(** A pure evaluation inside a handler. *)
Definition lift {A} (r : Result A) : M A :=
  fun st =>
    match r with
    | Ok a => Done a st
    | Throw e => Uncaught e st
    | Beyond => Unmodelled
    end.

(** [try { m } catch (err) { h }] *)
Definition try_ {A} (m : M A) (h : Exn -> M A) : M A :=
  fun st =>
    match m st with
    | Uncaught e st' => h e st'
    | o => o
    end.

Definition get_books : M (list JSValue) := fun st => Done (books st) st.

Definition set_books (l : list JSValue) : M unit :=
  fun st => Done tt (mkState l (localStorage st) (toasts st)).

Definition getItem (k : string) : M (option string) :=
  fun st => Done (localStorage st !! k) st.

Definition setItem (k v : string) : M unit :=
  fun st => Done tt (mkState (books st) (<[k := v]> (localStorage st)) (toasts st)).

(** [showToast(msg)] *)
Definition showToast (msg : string) : M unit :=
  fun st => Done tt (mkState (books st) (localStorage st) (toasts st ++ [msg])%list).

(** [JSON.parse(x)] on what [getItem] returned: [null] converts to the
    text [null]. *)
Definition parse_item (x : option string) : Result JSValue :=
  JSON.parse (match x with Some t => t | None => "null" end).

(** *** Cover image cache *)

Definition loadCoverCache : M JSValue :=
  try_ (x <~ getItem COVER_CACHE_KEY ;;
        v <~ lift (parse_item x) ;;
        ret (js_or v (JObj [])))
       (fun _ => ret (JObj [])).

Definition saveCoverCache (cache : JSValue) : M unit :=
  setItem COVER_CACHE_KEY (JSON.stringify cache).

(** [k in v], for a key that no built-in prototype defines. *)
Definition js_in (k : string) (v : JSValue) : Result bool :=
  match v with
  | JObj o => Ok (obj_has o k)
  | JArr l =>
      Ok (String.eqb k "length"
          || match N_of_numeral k with
             | Some i => (N.to_nat i <? length l)%nat
             | None => false
             end)
  | _ => Throw TypeError
  end.

(** [v[k] = x] on the cache.  A named property put on an array is not
    among the elements that [JSON.stringify] writes. *)
Definition put_entry (v : JSValue) (k : string) (x : JSValue) : JSValue :=
  match v with
  | JObj o => JObj (obj_set o k x)
  | _ => v
  end.

(** [x > 0].  [None] of [to_number] is NaN. *)
Definition to_number (v : JSValue) : Result (option Z) :=
  match v with
  | JNum n => Ok (Some n)
  | JUndefined => Ok None
  | JNull => Ok (Some 0)
  | JBool b => Ok (Some (if b then 1 else 0))
  | JStr _ | JArr _ | JObj _ => Beyond
  end.

Definition gt_zero (v : JSValue) : Result bool :=
  n <- to_number v ;; Ok (positive_result n).

(** The network: the JSON body that [fetch(url)] followed by
    [resp.json()] yields, or the exception it is rejected with. *)
Definition Network : Type := string -> Result JSValue.

(** The requests issued so far are threaded next to the state. *)
Definition fetch_json (net : Network) (url : string) (log : list string)
  : Result JSValue * list string :=
  (net url, (log ++ [url])%list).

(** The test and the assignment inside strategies 1 and 2:
    [data.docs && data.docs.length > 0 && data.docs[0].cover_edition_key]. *)
Definition openLibraryCover (data : JSValue) : Result JSValue :=
  docs <- get_prop data "docs" ;;
  if truthy docs then
    len <- get_prop docs "length" ;;
    pos <- gt_zero len ;;
    if pos then
      d0 <- get_index docs 0 ;;
      key <- get_prop d0 "cover_edition_key" ;;
      if truthy key then
        ks <- to_string key ;;
        Ok (JStr ("https://covers.openlibrary.org/b/olid/" ++ ks ++ "-M.jpg"))
      else Ok JNull
    else Ok JNull
  else Ok JNull.

(** The test and the assignment inside strategy 3. *)
Definition googleBooksCover (data : JSValue) : Result JSValue :=
  items <- get_prop data "items" ;;
  if truthy items then
    len <- get_prop items "length" ;;
    pos <- gt_zero len ;;
    if pos then
      i0 <- get_index items 0 ;;
      volumeInfo <- get_prop i0 "volumeInfo" ;;
      imageLinks <- (if loose_eq_null volumeInfo then Ok JUndefined
                     else get_prop volumeInfo "imageLinks") ;;
      if truthy imageLinks then
        thumbnail <- get_prop imageLinks "thumbnail" ;;
        link <- (if truthy thumbnail then Ok thumbnail
                 else small <- get_prop imageLinks "smallThumbnail" ;;
                      Ok (js_or small (JStr EmptyString))) ;;
        match link with
        | JStr t => Ok (JStr (replace t "http://" "https://"))
        | _ => Throw TypeError
        end
      else Ok JNull
    else Ok JNull
  else Ok JNull.

(** [encodeURIComponent(v)] *)
Definition encode (v : JSValue) : Result string :=
  t <- to_string v ;; Ok (encodeURIComponent t).

Definition url1 (book : JSValue) : Result string :=
  t <- get_prop book "title" ;; te <- encode t ;;
  a <- get_prop book "author" ;; ae <- encode a ;;
  Ok ("https://openlibrary.org/search.json?title=" ++ te
      ++ "&author=" ++ ae ++ "&limit=1").

Definition url2 (book : JSValue) : Result string :=
  t <- get_prop book "title" ;; te <- encode t ;;
  Ok ("https://openlibrary.org/search.json?title=" ++ te ++ "&limit=1").

Definition url3 (book : JSValue) : Result string :=
  t <- get_prop book "title" ;; te <- encode t ;;
  a <- get_prop book "author" ;; ae <- encode a ;;
  Ok ("https://www.googleapis.com/books/v1/volumes?q=" ++ "intitle:" ++ te
      ++ "+inauthor:" ++ ae ++ "&maxResults=1").

(** One [try { ... } catch { /* continue */ }] block of
    [fetchCoverForBook]: build the URL, fetch, extract.  Any exception
    leaves [url] as it was, that is [null]. *)
Definition attempt (net : Network) (url : Result string)
    (extract : JSValue -> Result JSValue) (log : list string)
  : Result (JSValue * list string) :=
  match url with
  | Ok u =>
      let '(body, log') := fetch_json net u log in
      match (data <- body ;; extract data) with
      | Ok found => Ok (found, log')
      | Throw _ => Ok (JNull, log')
      | Beyond => Beyond
      end
  | Throw _ => Ok (JNull, log)
  | Beyond => Beyond
  end.

(** [fetchCoverForBook(book)] from the call to the return, with nothing
    else running while it waits; the second component is the list of
    requests it issued.  The cache key contains [|||], so it names no
    inherited property. *)
Definition fetchCoverForBook (net : Network) (book : JSValue)
  : M (JSValue * list string) :=
  cache <~ loadCoverCache ;;
  title <~ lift (t <- get_prop book "title" ;; to_string t) ;;
  author <~ lift (a <- get_prop book "author" ;; to_string a) ;;
  let cacheKey := title ++ "|||" ++ author in
  hit <~ lift (js_in cacheKey cache) ;;
  if hit : bool then
    v <~ lift (get_prop cache cacheKey) ;;
    ret (v, [])
  else
    r1 <~ lift (attempt net (url1 book) openLibraryCover []) ;;
    r2 <~ (if truthy (fst r1) then ret r1
           else lift (attempt net (url2 book) openLibraryCover (snd r1))) ;;
    r3 <~ (if truthy (fst r2) then ret r2
           else lift (attempt net (url3 book) googleBooksCover (snd r2))) ;;
    saveCoverCache (put_entry cache cacheKey (fst r3)) ;;;
    ret r3.

(** [fetchCoverForBook] is an [async] function, and [lazyLoadCovers] calls
    it for every card that comes into view without waiting for the call
    before.  A call runs at once up to its first [await]: it reads the
    cache and, on a hit, returns from it.  On a miss it waits for its
    requests while other code runs, and when the last answer is in it
    writes back the cache that it read when it was called, with its one
    entry added (lines 93 and 94). *)
Inductive Lookup : Type :=
| Settled (url : JSValue)
| Suspended (cache : JSValue) (cacheKey : string).

(** The call, up to the first [await]. *)
Definition fetchCoverForBook_call (book : JSValue) : M Lookup :=
  cache <~ loadCoverCache ;;
  title <~ lift (t <- get_prop book "title" ;; to_string t) ;;
  author <~ lift (a <- get_prop book "author" ;; to_string a) ;;
  let cacheKey := title ++ "|||" ++ author in
  hit <~ lift (js_in cacheKey cache) ;;
  if hit : bool then
    v <~ lift (get_prop cache cacheKey) ;;
    ret (Settled v)
  else ret (Suspended cache cacheKey).

(** What is left to do after the last [await]: lines 93 to 95. *)
Definition fetchCoverForBook_resume (cache : JSValue) (cacheKey : string)
    (url : JSValue) : M JSValue :=
  saveCoverCache (put_entry cache cacheKey url) ;;;
  ret url.

(** *** LocalStorage *)

Definition loadBooks : M JSValue :=
  try_ (data <~ getItem STORAGE_KEY ;;
        match data with
        | Some t =>
            if String.eqb t EmptyString then ret (JArr [])
            else lift (JSON.parse t)
        | None => ret (JArr [])
        end)
       (fun _ => ret (JArr [])).

Definition saveBooks : M unit :=
  l <~ get_books ;; setItem STORAGE_KEY (JSON.stringify (JArr l)).

(** *** Rendering: the six sections *)

Record Buckets : Type := mkBuckets {
  favorites : list JSValue;
  reading : list JSValue;
  owned : list JSValue;
  wantToBuy : list JSValue;
  paused : list JSValue;
  completed : list JSValue
}.

(** [b => b.status === s] *)
Definition has_status (s : string) (b : JSValue) : Result bool :=
  st <- get_prop b "status" ;; Ok (strict_eq_str st s).

(** [b => b.favorite && b.status === 'finished'] *)
Definition is_top_pick (b : JSValue) : Result bool :=
  f <- get_prop b "favorite" ;;
  if truthy f then has_status "finished" b else Ok false.

(** [b => b.status === 'finished' && !b.favorite] *)
Definition is_plain_finished (b : JSValue) : Result bool :=
  fin <- has_status "finished" b ;;
  if fin : bool then f <- get_prop b "favorite" ;; Ok (negb (truthy f))
  else Ok false.

(** The six predicates in the order [renderAll] applies them. *)
Definition bucket_predicates : list (JSValue -> Result bool) :=
  [is_top_pick; has_status "reading"; has_status "up-next";
   has_status "wishlist"; has_status "on-hold"; is_plain_finished].

(** The six [filtered.filter(...)] calls of [renderAll]. *)
Definition renderAll_buckets (filtered : list JSValue) : Result Buckets :=
  fav <- filterM is_top_pick filtered ;;
  rd <- filterM (has_status "reading") filtered ;;
  ow <- filterM (has_status "up-next") filtered ;;
  wb <- filterM (has_status "wishlist") filtered ;;
  pa <- filterM (has_status "on-hold") filtered ;;
  co <- filterM is_plain_finished filtered ;;
  Ok (mkBuckets fav rd ow wb pa co).

(** *** Filtering and sorting *)

(** [filterState] together with the content of the search box. *)
Record FilterConfig : Type := mkFilter {
  searchInput : string;
  genre : string;
  status : string;
  format : string;
  rating : string;
  sort_key : string
}.

Definition nonempty (s : string) : bool := negb (String.eqb s EmptyString).

(** [v.toLowerCase()]: only a string has the method. *)
Definition lower_of (v : JSValue) : Result string :=
  match v with
  | JStr s => Ok (toLowerCase s)
  | _ => Throw TypeError
  end.

(** The callback of [books.filter] in [getFilteredBooks]; each [let]
    below is one [if (...) return false] of the source, in order. *)
Definition filter_callback (query : string) (cfg : FilterConfig)
    (book : JSValue) : Result bool :=
  reject_query <-
    (if nonempty query then
       t <- get_prop book "title" ;; tl <- lower_of t ;;
       if includes tl query then Ok false
       else a <- get_prop book "author" ;; al <- lower_of a ;;
            Ok (negb (includes al query))
     else Ok false) ;;
  if reject_query : bool then Ok false else
  reject_genre <-
    (if nonempty (genre cfg)
     then g <- get_prop book "genre" ;; Ok (negb (strict_eq_str g (genre cfg)))
     else Ok false) ;;
  if reject_genre : bool then Ok false else
  reject_status <-
    (if nonempty (status cfg)
     then x <- get_prop book "status" ;;
          Ok (negb (strict_eq_str x (status cfg)))
     else Ok false) ;;
  if reject_status : bool then Ok false else
  reject_format <-
    (if nonempty (format cfg)
     then x <- get_prop book "format" ;;
          Ok (negb (strict_eq_str x (format cfg)))
     else Ok false) ;;
  if reject_format : bool then Ok false else
  reject_unrated <-
    (if String.eqb (rating cfg) "none"
     then r <- get_prop book "rating" ;; Ok (negb (loose_eq_null r))
     else Ok false) ;;
  if reject_unrated : bool then Ok false else
  reject_rating <-
    (if nonempty (rating cfg) && negb (String.eqb (rating cfg) "none")
     then r <- get_prop book "rating" ;;
          Ok (negb (strict_eq_num r (parseInt (rating cfg))))
     else Ok false) ;;
  if reject_rating : bool then Ok false else
  Ok true.

(** [x - y] *)
Definition js_sub (x y : JSValue) : Result (option Z) :=
  a <- to_number x ;; b <- to_number y ;;
  Ok (match a, b with Some a, Some b => Some (a - b) | _, _ => None end).

(** [v.localeCompare(w)]: only a string has the method; the argument is
    converted to a string. *)
Definition locale_compare `{Collation} (v w : JSValue) : Result (option Z) :=
  match v with
  | JStr s =>
      t <- to_string w ;; Ok (Some (Z_of_comparison (localeCompare s t)))
  | _ => Throw TypeError
  end.

(** The comparator of [result.sort] in [getFilteredBooks]. *)
Definition sort_callback `{Collation} (sortBy : string) (a b : JSValue)
  : Result (option Z) :=
  if String.eqb sortBy "title" then
    x <- get_prop a "title" ;; y <- get_prop b "title" ;; locale_compare x y
  else if String.eqb sortBy "author" then
    x <- get_prop a "author" ;; y <- get_prop b "author" ;; locale_compare x y
  else if String.eqb sortBy "rating" then
    y <- get_prop b "rating" ;; x <- get_prop a "rating" ;;
    js_sub (js_or y (JNum 0)) (js_or x (JNum 0))
  else if String.eqb sortBy "yearPublished" then
    y <- get_prop b "yearPublished" ;; x <- get_prop a "yearPublished" ;;
    js_sub (js_or y (JNum 0)) (js_or x (JNum 0))
  else
    y <- get_prop b "dateAdded" ;; x <- get_prop a "dateAdded" ;;
    locale_compare (js_or y (JStr EmptyString)) (js_or x (JStr EmptyString)).

Definition getFilteredBooks `{Collation} (cfg : FilterConfig)
    (books : list JSValue) : Result (list JSValue) :=
  let query := trim (toLowerCase (searchInput cfg)) in
  result <- filterM (filter_callback query cfg) books ;;
  array_sort (sort_callback (sort_key cfg)) result.

(** *** Mutations *)

(** [books.findIndex(b => b.id === id)]; [None] is [-1]. *)
Fixpoint findIndex (id : string) (l : list JSValue) : Result (option nat) :=
  match l with
  | [] => Ok None
  | b :: l' =>
      i <- get_prop b "id" ;;
      if strict_eq_str i id then Ok (Some O)
      else r <- findIndex id l' ;; Ok (option_map S r)
  end.

(** [books.find(b => b.id === id)]; [None] is [undefined]. *)
Definition find (id : string) (l : list JSValue) : Result (option JSValue) :=
  r <- findIndex id l ;;
  Ok (match r with Some i => nth_error l i | None => None end).

(** [books[idx] = x] for an index inside the array. *)
Fixpoint set_nth (l : list JSValue) (idx : nat) (x : JSValue) : list JSValue :=
  match l, idx with
  | [], _ => []
  | _ :: l', O => x :: l'
  | y :: l', S i => y :: set_nth l' i x
  end.

(** [STATUS_LABELS[v]], converted to a string inside a template. *)
Definition status_label (v : string) : string :=
  match List.find (fun kv => String.eqb (fst kv) v) STATUS_LABELS with
  | Some kv => snd kv
  | None => "undefined"
  end.

(** The controls of the add/edit form, as [handleFormSubmit] reads them. *)
Record BookForm : Type := mkForm {
  formBookId : string;
  formTitle : string;
  formAuthor : string;
  formGenre : string;
  formYear : string;
  formPages : string;
  formCover : string;
  formFormat : string;
  formStatus : string;
  formDatePurchased : string;
  formDateStarted : string;
  formDateCompleted : string;
  formCurrentPage : string;
  formRating : string;
  formFavorite : bool;
  formTags : string;
  formRecommendedBy : string;
  formNotes : string;
  formDescription : string
}.

(** [value.split(',').map(t => t.trim()).filter(Boolean)] *)
Definition tags_of (value : string) : list JSValue :=
  map JStr (List.filter nonempty (map trim (split_comma value))).

(** The object literal [bookData]; [id] and [dateAdded] are computed by
    the caller. *)
Definition bookData (f : BookForm) (id : string) (dateAdded : JSValue)
  : JSValue :=
  JObj
    [("id", JStr id);
     ("title", JStr (trim (formTitle f)));
     ("author", JStr (trim (formAuthor f)));
     ("genre", JStr (formGenre f));
     ("yearPublished", parseInt_or_null (formYear f));
     ("pageCount", parseInt_or_null (formPages f));
     ("coverImage", JStr (trim (formCover f)));
     ("format", JStr (formFormat f));
     ("status", JStr (formStatus f));
     ("datePurchased", JStr (formDatePurchased f));
     ("dateStarted", JStr (formDateStarted f));
     ("dateCompleted", JStr (formDateCompleted f));
     ("currentPage", parseInt_or_null (formCurrentPage f));
     ("rating", parseInt_or_null (formRating f));
     ("favorite", JBool (formFavorite f));
     ("tags", JArr (tags_of (formTags f)));
     ("recommendedBy", JStr (trim (formRecommendedBy f)));
     ("notes", JStr (trim (formNotes f)));
     ("description", JStr (trim (formDescription f)));
     ("dateAdded", dateAdded)].

(** The controls of the import dialog: the text of the chosen file if
    there is one, the text area, the replace checkbox. *)
Record ImportForm : Type := mkImport {
  importFile : option string;
  importTextarea : string;
  importReplace : bool
}.

(** The text that [doImport] hands to [JSON.parse]: the content of the
    file if one was chosen, else the trimmed text area if it is not empty;
    with neither there is nothing to parse. *)
Definition import_source (f : ImportForm) : option string :=
  let text := trim (importTextarea f) in
  match importFile f with
  | Some content => Some content
  | None => if nonempty text then Some text else None
  end.

(** [Array.isArray(data)] *)
Definition isArray (v : JSValue) : bool :=
  match v with JArr _ => true | _ => false end.

(** [existingIds.has(x)] for [existingIds = new Set(ids)]. *)
Definition set_has (ids : list JSValue) (x : JSValue) : bool :=
  existsb (fun i => same_value_zero i x) ids.

Section Handlers.

(** What follows a mutation in every handler: [closeModal],
    [populateGenreFilter], [renderAll], [updateStats].  These redraw the
    page from the state and leave the state alone; all that matters
    here is whether they throw. *)
Variable redraw : State -> option Exn.

Definition refresh : M unit :=
  fun st =>
    match redraw st with
    | None => Done tt st
    | Some e => Uncaught e st
    end.

(** The [change] listener that [showBookDetail(id)] puts on the status
    selector, fired with [e.target.value = value] while the dialog it
    belongs to is showing: [book] is the element that
    [books.find(b => b.id === id)] returned. *)
Definition changeStatus (id value : string) : M unit :=
  l <~ get_books ;;
  idx <~ lift (findIndex id l) ;;
  match idx with
  | None => ret tt
  | Some i =>
      book <~ lift (set_prop (nth i l JUndefined) "status" (JStr value)) ;;
      set_books (set_nth l i book) ;;;
      saveBooks ;;;
      refresh ;;;
      showToast ("Moved to " ++ status_label value)
  end.

(** The confirmed deletion that [showBookDetail(id)] offers:
    [books = books.filter(b => b.id !== id)]. *)
Definition deleteBook (id : string) : M unit :=
  l <~ get_books ;;
  idx <~ lift (findIndex id l) ;;
  match idx with
  | None => ret tt
  | Some _ =>
      kept <~ lift (filterM (fun b => i <- get_prop b "id" ;;
                                      Ok (negb (strict_eq_str i id))) l) ;;
      set_books kept ;;;
      saveBooks ;;;
      refresh ;;;
      showToast "Book deleted"
  end.

(** [handleFormSubmit(e)]; [newId] and [today] are what [generateId()]
    and [today()] return when called. *)
Definition handleFormSubmit (f : BookForm) (newId today : string) : M unit :=
  let id := formBookId f in
  let isEdit := nonempty id in
  l <~ get_books ;;
  dateAdded <~
    (if isEdit then
       found <~ lift (find id l) ;;
       d <~ lift (match found with
                  | Some b => get_prop b "dateAdded"
                  | None => Ok JUndefined
                  end) ;;
       ret (js_or d (JStr today))
     else ret (JStr today)) ;;
  let data := bookData f (if isEdit then id else newId) dateAdded in
  (if isEdit then
     idx <~ lift (findIndex id l) ;;
     match idx with
     | Some i => set_books (set_nth l i data)
     | None => ret tt
     end
   else set_books (l ++ [data])%list) ;;;
  saveBooks ;;;
  refresh ;;;
  showToast (if isEdit then "Book updated" else "Book added").

(** [exportBooks()]: the text handed to the download. *)
Definition exportBooks : M string :=
  l <~ get_books ;;
  let json := JSON.stringify_pretty (JArr l) in
  showToast "Exported successfully" ;;;
  ret json.

(** The merge branch of [doImport]. *)
Definition merge (l data : list JSValue) : Result (list JSValue) :=
  existingIds <- mapM (fun b => get_prop b "id") l ;;
  newBooks <- filterM (fun b => i <- get_prop b "id" ;;
                                Ok (negb (set_has existingIds i))) data ;;
  Ok (l ++ newBooks)%list.

(** [doImport()] *)
Definition doImport (f : ImportForm) : M unit :=
  try_
    (match import_source f with
     | None => showToast "No data to import"
     | Some doc =>
         data <~ lift (JSON.parse doc) ;;
         match data with
         | JArr items =>
             (if importReplace f then set_books items
              else l <~ get_books ;;
                   merged <~ lift (merge l items) ;;
                   set_books merged) ;;;
             saveBooks ;;;
             refresh ;;;
             showToast ("Imported " ++ render_Z (Z.of_nat (length items))
                        ++ " books")
         | _ => showToast "Invalid format — expected an array of books"
         end
     end)
    (fun _ => showToast "Import failed — invalid JSON").

End Handlers.

End App.

(** ** Vocabulary of the properties *)

Module Data.

(** Pairwise distinct keys. *)
Fixpoint distinct (l : list string) : bool :=
  match l with
  | [] => true
  | k :: l' => negb (existsb (String.eqb k) l') && distinct l'
  end.

(** The values that JSON text denotes, as a JavaScript program holds
    them: no [undefined] inside, and no object with a repeated key. *)
Fixpoint json_ok (v : JSValue) : bool :=
  match v with
  | JUndefined => false
  | JNull | JBool _ | JNum _ | JStr _ => true
  | JArr l => forallb json_ok l
  | JObj o =>
      distinct (map fst o) && forallb (fun kv => json_ok (snd kv)) o
  end.

(** The token sequence of the text that serializes a value. *)
Fixpoint commas (l : list (list JSON.token)) : list JSON.token :=
  match l with
  | [] => []
  | [x] => x
  | x :: l' => x ++ JSON.TComma :: commas l'
  end.

Fixpoint tokens (v : JSValue) : list JSON.token :=
  match v with
  | JUndefined | JNull => [JSON.TNull]
  | JBool true => [JSON.TTrue]
  | JBool false => [JSON.TFalse]
  | JNum n => [JSON.TNum n]
  | JStr s => [JSON.TStr s]
  | JArr l => JSON.TLBrack :: commas (map tokens l) ++ [JSON.TRBrack]
  | JObj o =>
      JSON.TLBrace
        :: commas (map (fun kv => JSON.TStr (fst kv) :: JSON.TColon
                                  :: tokens (snd kv)) o)
        ++ [JSON.TRBrace]
  end.

(** The text after an integer numeral neither extends it nor leaves the
    modelled fragment. *)
Definition num_end_ok (rest : string) : bool :=
  match rest with
  | EmptyString => true
  | String c _ => negb (is_digit c || JSON.continues_numeral c)
  end.

Definition delim_start (t : string) : bool :=
  match t with
  | EmptyString => false
  | String c _ => negb (is_digit c || JSON.continues_numeral c)
  end.

Fixpoint all_ws (t : string) : bool :=
  match t with
  | EmptyString => true
  | String c t' => JSON.is_json_ws c && all_ws t'
  end.

End Data.

Import JSON Data App.

(** *** Scanning and parsing, for the round trip *)

(** Scanning a text then continuing: [scans t toks] says that [t] scans
    from the start state to the start state, emitting [toks]. *)
Definition scans (t : string) (toks : list token) : Prop :=
  forall rest,
    lex_go LStart (t ++ rest)
    = (ts <- lex_go LStart rest ;; Ok (toks ++ ts)%list).

Definition scans_before_delim (t : string) (toks : list token) : Prop :=
  forall rest, num_end_ok rest = true ->
    lex_go LStart (t ++ rest)
    = (ts <- lex_go LStart rest ;; Ok (toks ++ ts)%list).

Fixpoint all_digits (s : string) : bool :=
  match s with
  | EmptyString => true
  | String c s' => is_digit c && all_digits s'
  end.

Definition ser_or_null gap indent (x : JSValue) : string :=
  match ser gap indent x with Some t => t | None => "null" end.

Definition value_start (t : token) : bool :=
  match t with
  | TRBrack | TRBrace | TComma | TColon => false
  | _ => true
  end.

Definition yields_json (value : list token -> Result (JSValue * list token)) : Prop :=
  forall ts r, value ts = Ok r -> json_ok (fst r) = true.

(** *** Comparators *)

(** On the elements of [l] the comparator [cmp] computes the order [c]. *)
Definition agrees_on {A} (cmp : A -> A -> Result (option Z))
    (c : A -> A -> Z) (l : list A) : Prop :=
  forall a b, In a l -> In b l -> cmp a b = Ok (Some (c a b)).

(** [y] ties with [z] under the order [c]. *)
Definition tie {A} (c : A -> A -> Z) (z y : A) : bool := c z y =? 0.

(** *** The six sections *)

(** The value of a property, [undefined] when there is none to read. *)
Definition field (b : JSValue) (k : string) : JSValue :=
  match get_prop b k with Ok v => v | _ => JUndefined end.

Definition STATUSES : list string :=
  ["wishlist"; "up-next"; "reading"; "on-hold"; "finished"].

(** The status of the book is one of the five of the data model. *)
Definition status_in_enum (b : JSValue) : bool :=
  match field b "status" with
  | JStr s => existsb (String.eqb s) STATUSES
  | _ => false
  end.

Definition favorite_is_boolean (b : JSValue) : bool :=
  match field b "favorite" with JBool _ => true | _ => false end.

Definition count_true (l : list bool) : nat := length (List.filter id l).

Definition all_buckets (B : Buckets) : list JSValue :=
  (favorites B ++ reading B ++ owned B ++ wantToBuy B ++ paused B
   ++ completed B)%list.

(** The six sections as the data model words them, on the fields of a
    book, in the order of the page: top picks, currently reading, up
    next, wishlist, on hold, finished. *)
Definition is_favorite (b : JSValue) : bool := truthy (field b "favorite").

Definition status_is (s : string) (b : JSValue) : bool :=
  strict_eq_str (field b "status") s.

Definition section_tests : list (JSValue -> bool) :=
  [fun b => is_favorite b && status_is "finished" b;
   status_is "reading"; status_is "up-next"; status_is "wishlist";
   status_is "on-hold";
   fun b => status_is "finished" b && negb (is_favorite b)].

Definition sections (B : Buckets) : list (list JSValue) :=
  [favorites B; reading B; owned B; wantToBuy B; paused B; completed B].

(** *** The filter *)

Definition is_string (v : JSValue) : bool :=
  match v with JStr _ => true | _ => false end.

Definition text_key (k : string) (b : JSValue) : string :=
  match field b k with JStr s => s | _ => EmptyString end.

Definition number_key (k : string) (b : JSValue) : Z :=
  match field b k with JNum n => n | _ => 0 end.

(** The query of a filter configuration, as [getFilteredBooks] reads it. *)
Definition query_of (cfg : FilterConfig) : string :=
  trim (toLowerCase (searchInput cfg)).

(** The books the filter can be asked about: not [null], and with a
    string title and author when there is a query to match. *)
Definition filterable (cfg : FilterConfig) (b : JSValue) : bool :=
  negb (loose_eq_null b)
  && (negb (nonempty (query_of cfg))
      || (is_string (field b "title") && is_string (field b "author"))).

(** The filter as the specification words it. *)
Definition matches_query (q : string) (b : JSValue) : bool :=
  includes (toLowerCase (text_key "title" b)) q
  || includes (toLowerCase (text_key "author" b)) q.

Definition exact_match (wanted : string) (v : JSValue) : bool :=
  negb (nonempty wanted) || strict_eq_str v wanted.

Definition rating_match (wanted : string) (v : JSValue) : bool :=
  if String.eqb wanted EmptyString then true
  else if String.eqb wanted "none" then loose_eq_null v
  else match parseInt wanted, v with
       | Some n, JNum m => m =? n
       | _, _ => false
       end.

Definition spec_filter (cfg : FilterConfig) (b : JSValue) : bool :=
  (negb (nonempty (query_of cfg)) || matches_query (query_of cfg) b)
  && exact_match (genre cfg) (field b "genre")
  && exact_match (status cfg) (field b "status")
  && exact_match (format cfg) (field b "format")
  && rating_match (rating cfg) (field b "rating").

(** *** The sort keys *)

Definition unset_or_number (v : JSValue) : bool :=
  match v with JUndefined | JNull | JNum _ => true | _ => false end.

Definition unset_or_string (v : JSValue) : bool :=
  match v with JUndefined | JNull | JStr _ => true | _ => false end.

(** A book typed as the data model has it, as far as sorting reads it. *)
Definition sortable (b : JSValue) : bool :=
  negb (loose_eq_null b)
  && is_string (field b "title") && is_string (field b "author")
  && unset_or_number (field b "rating")
  && unset_or_number (field b "yearPublished")
  && unset_or_string (field b "dateAdded").

(** The order each sort key stands for. *)
Definition sort_order `{Collation} (sortBy : string) (a b : JSValue) : Z :=
  if String.eqb sortBy "title" then
    Z_of_comparison (localeCompare (text_key "title" a) (text_key "title" b))
  else if String.eqb sortBy "author" then
    Z_of_comparison (localeCompare (text_key "author" a) (text_key "author" b))
  else if String.eqb sortBy "rating" then
    number_key "rating" b - number_key "rating" a
  else if String.eqb sortBy "yearPublished" then
    number_key "yearPublished" b - number_key "yearPublished" a
  else
    Z_of_comparison
      (localeCompare (text_key "dateAdded" b) (text_key "dateAdded" a)).

(** Two books tie under a sort key when the comparator answers zero. *)
Definition ties `{Collation} (sortBy : string) (z y : JSValue) : bool :=
  match sort_callback sortBy z y with
  | Ok (Some n) => n =? 0
  | Ok None => true
  | _ => false
  end.



Definition rating_is (v : JSValue) (b : JSValue) : bool :=
  match field b "rating", v with
  | JNum n, JNum m => n =? m
  | JNull, JNull => true
  | JUndefined, JUndefined => true
  | _, _ => false
  end.

(** Collation by code units: a collation to run the model with. *)
#[export] Instance code_unit_collation : Collation.
Proof.
  refine {| localeCompare := String.compare;
            localeCompare_antisym := String.compare_antisym;
            localeCompare_trans := _ |}.
  intros a. induction a as [|x a IH]; intros [|y b] [|z c]; simpl;
    try congruence.
  unfold Ascii.compare.
  destruct (N.compare_spec (N_of_ascii x) (N_of_ascii y));
    destruct (N.compare_spec (N_of_ascii y) (N_of_ascii z));
    destruct (N.compare_spec (N_of_ascii x) (N_of_ascii z));
    try congruence; try lia; try apply IH.
Defined.

(** The scenario of the specification. *)
Definition unrated_book : JSValue := JObj [("rating", JNull)].
Definition three_star_book : JSValue := JObj [("rating", JNum 3)].
Definition only_unrated : FilterConfig :=
  mkFilter EmptyString EmptyString EmptyString EmptyString "none" "dateAdded".




(** *** Import and storage *)

(** What the user submitted to the import dialog. *)
Definition import_text (f : ImportForm) : string :=
  match importFile f with
  | Some content => content
  | None => trim (importTextarea f)
  end.

Definition notify (msg : string) (st : State) : State :=
  mkState (books st) (localStorage st) (toasts st ++ [msg])%list.

Definition stored_books (st : State) : option string :=
  localStorage st !! STORAGE_KEY.

(** The three cases in which [loadBooks] takes its fallback. *)
Definition falls_back (st : State) : Prop :=
  stored_books st = None
  \/ stored_books st = Some EmptyString
  \/ exists t e, stored_books st = Some t /\ JSON.parse t = Throw e.

Definition with_stored_books (t : string) : State :=
  mkState [] {[ STORAGE_KEY := t ]} [].

(** *** Handlers *)

(** The state once [books] has been assigned and [saveBooks] has run. *)
Definition saved (l : list JSValue) (st : State) : State :=
  mkState l (<[STORAGE_KEY := JSON.stringify (JArr l)]> (localStorage st))
          (toasts st).

(** The tail of a handler: redraw, then notify. *)
Definition after_refresh (redraw : State -> option Exn) (msg : string)
    (st : State) : Outcome unit :=
  match redraw st with
  | None => Done tt (notify msg st)
  | Some e => Uncaught e st
  end.

(** [b => b.id !== id] *)
Definition keeps_other (id : string) (b : JSValue) : Result bool :=
  i <- get_prop b "id" ;; Ok (negb (strict_eq_str i id)).

(** The state a handler leaves behind, however it ended. *)
Definition final {A} (o : Outcome A) : option State :=
  match o with
  | Done _ st | Uncaught _ st => Some st
  | Unmodelled => None
  end.

Definition import_done (items : list JSValue) : string :=
  "Imported " ++ render_Z (Z.of_nat (length items)) ++ " books".

Definition import_failed : string := "Import failed — invalid JSON".

(** A primitive value: compared by value by [Set.prototype.has]. *)
Definition is_primitive (v : JSValue) : bool :=
  match v with JArr _ | JObj _ => false | _ => true end.

(** *** Ids *)

(** The id of a book, when it is a string as the data model has it. *)
Definition id_string (b : JSValue) : option string :=
  match get_prop b "id" with
  | Ok (JStr s) => Some s
  | _ => None
  end.

Fixpoint all_ids (l : list JSValue) : option (list string) :=
  match l with
  | [] => Some []
  | b :: l' =>
      match id_string b, all_ids l' with
      | Some i, Some ids => Some (i :: ids)
      | _, _ => None
      end
  end.

(** Every book has a string id and no two books share one. *)
Definition unique_ids (l : list JSValue) : bool :=
  match all_ids l with
  | Some ids => distinct ids
  | None => false
  end.

Definition id_fresh (id : string) (l : list JSValue) : bool :=
  negb (existsb (fun b => match id_string b with
                          | Some i => String.eqb i id
                          | None => false
                          end) l).

Fixpoint index_of (id : string) (ids : list string) : option nat :=
  match ids with
  | [] => None
  | i :: ids' => if String.eqb i id then Some O else option_map S (index_of id ids')
  end.

(** *** The cover cache *)

(** The cache key of a book: the template [title|||author]. *)
Definition cover_key (book : JSValue) : Result string :=
  title <- (t <- get_prop book "title" ;; to_string t) ;;
  author <- (a <- get_prop book "author" ;; to_string a) ;;
  Ok (title ++ "|||" ++ author).

Definition stored_covers (st : State) : option string :=
  localStorage st !! COVER_CACHE_KEY.


Definition with_covers (cache : JSValue) (st : State) : State :=
  mkState (books st)
          (<[COVER_CACHE_KEY := JSON.stringify cache]> (localStorage st))
          (toasts st).

Definition null_or_string (v : JSValue) : bool :=
  match v with JNull | JStr _ => true | _ => false end.

(** The three attempts of a cache miss, in order. *)
Definition strategies (net : Network) (book : JSValue)
  : Result (JSValue * list string) :=
  r1 <- attempt net (url1 book) openLibraryCover [] ;;
  r2 <- (if truthy (fst r1) then Ok r1
         else attempt net (url2 book) openLibraryCover (snd r1)) ;;
  if truthy (fst r2) then Ok r2
  else attempt net (url3 book) googleBooksCover (snd r2).

(** *** Calls in flight *)

(** A call of [fetchCoverForBook] that waits for its requests: the cache
    and the key it holds, the requests it makes and what they find. *)
Record Flight : Type := mkFlight {
  snapshot : JSValue;
  flightKey : string;
  answer : JSValue;
  requests : list string
}.

(** The page while covers load: the state, and the calls in flight,
    oldest first. *)
Definition Page : Type := (State * list Flight)%type.

(** What happens on the page, one thing at a time: [fetchCoverForBook] is
    called for a book, on a network that answers as [net] does; the call
    in flight at position [i] gets its last answer and runs to its end;
    other code runs, a handler or a redraw, and leaves the state [st'],
    in which the cover record is what it was. *)
Inductive Event : Type :=
| Call (net : Network) (book : JSValue)
| Return (i : nat)
| Elsewhere (st' : State).

Definition same_text (a b : option string) : bool :=
  match a, b with
  | Some x, Some y => String.eqb x y
  | None, None => true
  | _, _ => false
  end.

Definition without {A} (i : nat) (l : list A) : list A :=
  (firstn i l ++ skipn (S i) l)%list.

(** A call that throws before its first [await] is a rejected promise,
    which nothing handles. *)
Definition step (ev : Event) (p : Page) : option Page :=
  let '(st, flights) := p in
  match ev with
  | Call net book =>
      match fetchCoverForBook_call book st with
      | Done (Settled _) st' => Some (st', flights)
      | Done (Suspended cache cacheKey) st' =>
          match strategies net book with
          | Ok r =>
              Some (st', (flights
                          ++ [mkFlight cache cacheKey (fst r) (snd r)])%list)
          | _ => None
          end
      | Uncaught _ st' => Some (st', flights)
      | Unmodelled => None
      end
  | Return i =>
      match nth_error flights i with
      | Some fl =>
          match fetchCoverForBook_resume (snapshot fl) (flightKey fl)
                  (answer fl) st with
          | Done _ st' => Some (st', without i flights)
          | _ => None
          end
      | None => None
      end
  | Elsewhere st' =>
      if same_text (stored_covers st') (stored_covers st)
      then Some (st', flights) else None
  end.

Fixpoint run (evs : list Event) (p : Page) : option Page :=
  match evs with
  | [] => Some p
  | ev :: evs' =>
      match step ev p with
      | Some p' => run evs' p'
      | None => None
      end
  end.

(** The cover record has the entry. *)
Definition record_holds (st : State) (key : string) (v : JSValue) : Prop :=
  exists o, loadCoverCache st = Done (JObj o) st /\ obj_get o key = Some v.

(** The call was made when the record had the entry already: it is a call
    for another key, and the cache it holds has the entry. *)
Definition began_after (key : string) (v : JSValue) (fl : Flight) : Prop :=
  flightKey fl <> key
  /\ exists o, snapshot fl = JObj o /\ obj_get o key = Some v.

(** What a call in flight holds is JSON data. *)
Definition sound (fl : Flight) : Prop :=
  json_ok (snapshot fl) = true /\ null_or_string (answer fl) = true.

(** ** Sample data *)

Module Examples.

(** The two books of the bucketing scenario. *)
Definition b1 : JSValue :=
  JObj [("id", JStr "b1"); ("status", JStr "finished");
        ("favorite", JBool true); ("rating", JNum 5)].
Definition b2 : JSValue :=
  JObj [("id", JStr "b2"); ("status", JStr "finished");
        ("favorite", JBool false)].

Definition empty_state : State := mkState [] ∅ [].
Definition shelf_state : State := mkState [b1; b2] ∅ [].
Definition never_throws : State -> option Exn := fun _ => None.

(** A book as the form writes it, with every field of the schema. *)
Definition book (id title author : string) (rating : JSValue)
    (dateAdded : string) : JSValue :=
  JObj [("id", JStr id); ("title", JStr title); ("author", JStr author);
        ("status", JStr "finished"); ("rating", rating);
        ("favorite", JBool false); ("dateAdded", JStr dateAdded)].

Definition dune : JSValue :=
  book "b10" "Dune" "Frank Herbert" (JNum 3) "2026-01-05".
Definition emma : JSValue :=
  book "b11" "Emma" "Jane Austen" JNull "2026-01-06".
Definition ulysses : JSValue :=
  book "b12" "Ulysses" "James Joyce" (JNum 5) "2026-01-07".
Definition walden : JSValue :=
  book "b13" "Walden" "Henry David Thoreau" (JNum 3) "2026-01-08".

Definition library : list JSValue := [dune; emma; ulysses; walden].
Definition library_state : State := mkState library ∅ [].

Definition by_rating : FilterConfig :=
  mkFilter EmptyString EmptyString EmptyString EmptyString EmptyString "rating".

(** A network on which every request fails, and one that always finds a
    cover. *)
Definition offline : Network := fun _ => Throw NetworkError.
Definition online : Network :=
  fun _ => Ok (JObj [("docs", JArr [JObj [("cover_edition_key", JStr "OL1M")]])]).

(** An import file with two books: one whose id is on the shelf already,
    one that is new. *)
Definition b1_again : JSValue :=
  JObj [("id", JStr "b1"); ("status", JStr "wishlist")].
Definition b3 : JSValue :=
  JObj [("id", JStr "b3"); ("status", JStr "reading")].
Definition merge_file : ImportForm :=
  mkImport (Some (JSON.stringify (JArr [b1_again; b3]))) EmptyString false.

(** An import file in which one id occurs twice. *)
Definition twice_b3 : ImportForm :=
  mkImport (Some (JSON.stringify (JArr [b3; b3]))) EmptyString true.

(** A book imported without a creation date, and the form that edits it. *)
Definition undated : JSValue :=
  JObj [("id", JStr "b7"); ("title", JStr "Solaris");
        ("author", JStr "Stanislaw Lem")].
Definition undated_state : State := mkState [undated] ∅ [].
Definition edit_form (id : string) : BookForm :=
  mkForm id "Solaris" "Stanislaw Lem" "Science Fiction" "1961" EmptyString
         EmptyString EmptyString "reading" EmptyString EmptyString EmptyString
         EmptyString EmptyString false EmptyString EmptyString EmptyString
         EmptyString.

End Examples.

Import Examples.

(** ** The rest of the application

    The functions of [app.js] around the ones above: start-up, the header
    statistics, the filter controls, the list view, the cover of a card,
    the star rating, attribute escaping and the edit form.  Where a
    function builds markup, the model keeps the values that the markup is
    built from. *)

(** *** Initialization *)

Section Startup.

(** [SEED_DATA], the constant of [seed-data.js]: an array of books when
    that script is loaded, not declared otherwise. *)
Variable SEED_DATA : option (list JSValue).

(** What [init] does once the collection is in place:
    [populateGenreFilter], the view toggle, [renderAll], [updateStats],
    [bindEvents].  They draw the page and bind its listeners. *)
Variable redraw : State -> option Exn.

(** [init()].  A stored record that parses to something else than an
    array leaves [books] holding a value that is no array; the state of
    this model has no such collection, and that run is left out. *)
Definition init : M unit :=
  loaded <~ loadBooks ;;
  match loaded with
  | JArr l =>
      set_books l ;;;
      len <~ lift (get_prop (JArr l) "length") ;;
      (match SEED_DATA with
       | Some seed =>
           if strict_eq_num len (Some 0) then
             set_books seed ;;;
             saveBooks ;;;
             showToast "Loaded seed data — welcome!"
           else ret tt
       | None => ret tt
       end) ;;;
      refresh redraw
  | _ => fun _ => Unmodelled
  end.

End Startup.

(** The page as a reload finds it: [books] and the notifications start
    empty, [localStorage] is what the browser kept. *)
Definition reloaded (st : State) : State := mkState [] (localStorage st) [].

(** *** Header statistics *)

(** The three numbers that [updateStats] writes into the header. *)
Record Stats : Type := mkStats {
  statBooks : nat;
  statRead : nat;
  statReading : nat
}.

Definition updateStats (books : list JSValue) : Result Stats :=
  let total := length books in
  completed <- filterM (has_status "finished") books ;;
  reading <- filterM (has_status "reading") books ;;
  Ok (mkStats total (length completed) (length reading)).

(** *** The filter controls *)

Definition isFilterActive (cfg : FilterConfig) : bool :=
  nonempty (trim (searchInput cfg))
  || nonempty (genre cfg)
  || nonempty (status cfg)
  || nonempty (format cfg)
  || nonempty (rating cfg).

(** [clearAllFilters()], on the filter state and the search box. *)
Definition clearAllFilters (cfg : FilterConfig) : FilterConfig :=
  mkFilter EmptyString EmptyString EmptyString EmptyString EmptyString
           "dateAdded".

(** [toggleSection(id, count)]: whether the section ends up hidden. *)
Definition toggleSection (count : nat) (cfg : FilterConfig) : bool :=
  let hasFilters := isFilterActive cfg in
  Nat.eqb count 0 && hasFilters.

(** [updateClearFiltersButton()]: whether the button ends up displayed. *)
Definition updateClearFiltersButton (cfg : FilterConfig) : bool :=
  isFilterActive cfg || negb (String.eqb (sort_key cfg) "dateAdded").

(** *** The list view *)

Record ListSortState : Type := mkListSort {
  column : string;
  direction : string
}.

(** The initial [listSortState]. *)
Definition listSortState0 : ListSortState := mkListSort "title" "asc".

(** [-cmp] *)
Definition js_neg (x : option Z) : option Z := option_map Z.opp x.

(** [(a.k || '').localeCompare(b.k || '')] *)
Definition compare_text `{Collation} (k : string) (a b : JSValue)
  : Result (option Z) :=
  x <- get_prop a k ;; y <- get_prop b k ;;
  locale_compare (js_or x (JStr EmptyString)) (js_or y (JStr EmptyString)).

(** The comparator of [[...bookList].sort] in [renderList]. *)
Definition list_sort_callback `{Collation} (s : ListSortState)
    (a b : JSValue) : Result (option Z) :=
  cmp <-
    (if String.eqb (column s) "title" then compare_text "title" a b
     else if String.eqb (column s) "author" then compare_text "author" a b
     else if String.eqb (column s) "genre" then compare_text "genre" a b
     else if String.eqb (column s) "rating" then
       x <- get_prop a "rating" ;; y <- get_prop b "rating" ;;
       js_sub (js_or x (JNum 0)) (js_or y (JNum 0))
     else if String.eqb (column s) "status" then compare_text "status" a b
     else if String.eqb (column s) "format" then compare_text "format" a b
     else compare_text "title" a b) ;;
  Ok (if String.eqb (direction s) "desc" then js_neg cmp else cmp).

(** The rows of [renderList], in the order of the table. *)
Definition renderList_sorted `{Collation} (s : ListSortState)
    (bookList : list JSValue) : Result (list JSValue) :=
  array_sort (list_sort_callback s) bookList.

(** The [click] listener of a column header with [data-sort-col = col]. *)
Definition headerClick (col : string) (s : ListSortState) : ListSortState :=
  if String.eqb (column s) col then
    mkListSort (column s)
               (if String.eqb (direction s) "asc" then "desc" else "asc")
  else mkListSort col "asc".

(** *** The cover of a card *)

(** What [createBookCard] puts in the cover of a card: an image with the
    given source, or the placeholder, marked or not with
    [data-needs-cover] for [lazyLoadCovers]. *)
Inductive CardCover : Type :=
| CoverImage (src : JSValue)
| CoverPlaceholder (needsCover : bool).

(** The first statement of [createBookCard(book)], which settles
    [coverHtml] and [needsCover]. *)
Definition createBookCard_cover (book : JSValue) : M CardCover :=
  coverImage <~ lift (get_prop book "coverImage") ;;
  if truthy coverImage then ret (CoverImage coverImage)
  else
    cache <~ loadCoverCache ;;
    title <~ lift (t <- get_prop book "title" ;; to_string t) ;;
    author <~ lift (a <- get_prop book "author" ;; to_string a) ;;
    let cacheKey := title ++ "|||" ++ author in
    hit <~ lift (js_in cacheKey cache) ;;
    cached <~ (if hit : bool then lift (get_prop cache cacheKey)
               else ret JUndefined) ;;
    if hit && truthy cached then ret (CoverImage cached)
    else if negb hit then ret (CoverPlaceholder true)
    else ret (CoverPlaceholder false).

(** *** Stars *)

(** [i <= rating] for a number [i]. *)
Definition le_number (i : Z) (v : JSValue) : Result bool :=
  n <- to_number v ;;
  Ok (match n with Some n => i <=? n | None => false end).

Definition star_span (filled : bool) : string :=
  "<span class=" ++ str1 dquote ++ "star "
  ++ (if filled then "filled" else EmptyString)
  ++ str1 dquote ++ ">&#9733;</span>".

(** The five turns of the loop of [starsHtml]. *)
Definition star_flags (rating : JSValue) : Result (list bool) :=
  mapM (fun i => le_number i rating) [1; 2; 3; 4; 5].

Definition starsHtml (rating : JSValue) : Result string :=
  flags <- star_flags rating ;;
  Ok ("<div class=" ++ str1 dquote ++ "stars" ++ str1 dquote ++ ">"
      ++ String.concat EmptyString (map star_span flags) ++ "</div>").

(** *** Escaping *)

(** [s.replace(/c/g, by)] for a single character [c]. *)
Fixpoint replace_all (c : ascii) (by_ : string) (s : string) : string :=
  match s with
  | EmptyString => EmptyString
  | String x s' =>
      (if Ascii.eqb x c then by_ else str1 x) ++ replace_all c by_ s'
  end.

(** [escapeAttr(str)]: only a string has [replace]. *)
Definition escapeAttr (str : JSValue) : Result string :=
  if negb (truthy str) then Ok EmptyString
  else match str with
       | JStr s =>
           Ok (replace_all ">" "&gt;"
                 (replace_all "<" "&lt;"
                    (replace_all "'" "&#39;"
                       (replace_all dquote "&quot;"
                          (replace_all "&" "&amp;" s)))))
       | _ => Throw TypeError
       end.

(** *** The edit form *)

(** [Array.prototype.join(sep)] *)
Definition array_join (sep : string) (l : list JSValue) : Result string :=
  parts <- mapM (fun x => match x with
                          | JUndefined | JNull => Ok EmptyString
                          | _ => to_string x
                          end) l ;;
  Ok (join sep parts).

(** [control.value = book.k || dflt]: the control receives the text of
    the value. *)
Definition assigned (book : JSValue) (k dflt : string) : Result string :=
  v <- get_prop book k ;; to_string (js_or v (JStr dflt)).

(** [openEditForm(book)]: the values it assigns to the controls, which
    [handleFormSubmit] reads back when the form is submitted untouched.
    The [value] of a text input turns [null] into the empty text. *)
Definition openEditForm (book : JSValue) : Result BookForm :=
  id <- (v <- get_prop book "id" ;;
         match v with JNull => Ok EmptyString | _ => to_string v end) ;;
  title <- assigned book "title" EmptyString ;;
  author <- assigned book "author" EmptyString ;;
  genre <- assigned book "genre" EmptyString ;;
  year <- assigned book "yearPublished" EmptyString ;;
  pages <- assigned book "pageCount" EmptyString ;;
  format <- assigned book "format" EmptyString ;;
  status <- assigned book "status" "up-next" ;;
  rating <- assigned book "rating" EmptyString ;;
  cover <- assigned book "coverImage" EmptyString ;;
  datePurchased <- assigned book "datePurchased" EmptyString ;;
  dateStarted <- assigned book "dateStarted" EmptyString ;;
  dateCompleted <- assigned book "dateCompleted" EmptyString ;;
  currentPage <- assigned book "currentPage" EmptyString ;;
  recommendedBy <- assigned book "recommendedBy" EmptyString ;;
  tags <- (v <- get_prop book "tags" ;;
           match js_or v (JArr []) with
           | JArr l => array_join ", " l
           | _ => Throw TypeError
           end) ;;
  description <- assigned book "description" EmptyString ;;
  notes <- assigned book "notes" EmptyString ;;
  favorite <- get_prop book "favorite" ;;
  Ok {| formBookId := id; formTitle := title; formAuthor := author;
        formGenre := genre; formYear := year; formPages := pages;
        formCover := cover; formFormat := format; formStatus := status;
        formDatePurchased := datePurchased; formDateStarted := dateStarted;
        formDateCompleted := dateCompleted; formCurrentPage := currentPage;
        formRating := rating;
        formFavorite := truthy (js_or favorite (JBool false));
        formTags := tags; formRecommendedBy := recommendedBy;
        formNotes := notes; formDescription := description |}.

(** *** Vocabulary of the further properties *)

(** A row typed as the data model has it, as far as the list view reads
    it: every column is unset or of its type. *)
Definition listable (b : JSValue) : bool :=
  negb (loose_eq_null b)
  && unset_or_string (field b "title") && unset_or_string (field b "author")
  && unset_or_string (field b "genre") && unset_or_string (field b "status")
  && unset_or_string (field b "format") && unset_or_number (field b "rating").

(** The column that [renderList] sorts by: an unknown one counts as the
    title. *)
Definition list_column (s : ListSortState) : string :=
  if existsb (String.eqb (column s))
       ["title"; "author"; "genre"; "rating"; "status"; "format"]
  then column s else "title".

(** The order that a list sort state stands for: by the text of the
    column, or the number of the rating, an unset value counting as the
    empty text or as zero; reversed when the direction is [desc]. *)
Definition list_order `{Collation} (s : ListSortState) (a b : JSValue) : Z :=
  let cmp :=
    if String.eqb (list_column s) "rating"
    then number_key "rating" a - number_key "rating" b
    else Z_of_comparison
           (localeCompare (text_key (list_column s) a)
                          (text_key (list_column s) b)) in
  if String.eqb (direction s) "desc" then - cmp else cmp.

(** The state of the list sort after clicks on the given headers. *)
Definition clicks (cols : list string) (s : ListSortState) : ListSortState :=
  fold_left (fun s col => headerClick col s) cols s.

(** The stored record is the text of the collection in memory, and the
    collection is JSON data. *)
Definition persisted (st : State) : Prop :=
  forallb json_ok (books st) = true
  /\ stored_books st = Some (JSON.stringify (JArr (books st))).

(** [st'] is in step with its stored record, and has the record of the
    covers that [st] had. *)
Definition in_step (st st' : State) : Prop :=
  persisted st' /\ stored_covers st' = stored_covers st.

(** An integer that a JavaScript number holds exactly and shows in plain
    digits: at most [Number.MAX_SAFE_INTEGER] in size.  On these the
    integers of the model and the numbers of the program agree. *)
Definition safe_integer (n : Z) : bool := Z.abs n <=? 9007199254740991.

(** Every number inside the value is a safe integer. *)
Fixpoint safe_numbers (v : JSValue) : bool :=
  match v with
  | JNum n => safe_integer n
  | JArr l => forallb safe_numbers l
  | JObj o => forallb (fun kv => safe_numbers (snd kv)) o
  | _ => true
  end.

(** The text of a numeric control reads as a safe integer, or as no
    number at all. *)
Definition safe_text (s : string) : bool :=
  match parseInt s with
  | Some n => safe_integer n
  | None => true
  end.

Definition safe_form (f : BookForm) : bool :=
  safe_text (formYear f) && safe_text (formPages f)
  && safe_text (formCurrentPage f) && safe_text (formRating f).

(** Every number of the collection is a safe integer. *)
Definition in_range (st : State) : Prop :=
  forallb safe_numbers (books st) = true.

Definition welcome : string := "Loaded seed data — welcome!".

(** What one strategy of [fetchCoverForBook] finds at a URL: the cover
    that the answer yields, and [null] when the request fails, when the
    answer cannot be read, or when it has no cover. *)
Definition found_at (net : Network) (url : string)
    (extract : JSValue -> Result JSValue) : Result JSValue :=
  match (data <- net url ;; extract data) with
  | Ok found => Ok found
  | Throw _ => Ok JNull
  | Beyond => Beyond
  end.

(** What [escapeAttr] makes of one character. *)
Definition escape_unit (c : ascii) : string :=
  if Ascii.eqb c "&" then "&amp;"
  else if Ascii.eqb c dquote then "&quot;"
  else if Ascii.eqb c "'" then "&#39;"
  else if Ascii.eqb c "<" then "&lt;"
  else if Ascii.eqb c ">" then "&gt;"
  else str1 c.

Fixpoint string_forall (p : ascii -> bool) (s : string) : bool :=
  match s with
  | EmptyString => true
  | String c s' => p c && string_forall p s'
  end.

(** A character that cannot end an attribute value or open a tag. *)
Definition attr_safe (c : ascii) : bool :=
  negb (Ascii.eqb c dquote || Ascii.eqb c "'" || Ascii.eqb c "<"
        || Ascii.eqb c ">").

(** A character that [escapeAttr] leaves as it is. *)
Definition attr_plain (c : ascii) : bool :=
  attr_safe c && negb (Ascii.eqb c "&").

(** The number of stars that a rating fills. *)
Definition stars_filled (n : Z) : nat := Z.to_nat (Z.max 0 (Z.min 5 n)).

(** The texts of an array of strings. *)
Definition texts (l : list JSValue) : list string :=
  map (fun v => match v with JStr s => s | _ => EmptyString end) l.

Definition no_comma (c : ascii) : bool := negb (Ascii.eqb c ",").

(** The value of a numeral read digit by digit from [acc]. *)
Fixpoint uint_value (u : Decimal.uint) (acc : N) : N :=
  match u with
  | Decimal.Nil => acc
  | Decimal.D0 u => uint_value u (10 * acc)
  | Decimal.D1 u => uint_value u (10 * acc + 1)
  | Decimal.D2 u => uint_value u (10 * acc + 2)
  | Decimal.D3 u => uint_value u (10 * acc + 3)
  | Decimal.D4 u => uint_value u (10 * acc + 4)
  | Decimal.D5 u => uint_value u (10 * acc + 5)
  | Decimal.D6 u => uint_value u (10 * acc + 6)
  | Decimal.D7 u => uint_value u (10 * acc + 7)
  | Decimal.D8 u => uint_value u (10 * acc + 8)
  | Decimal.D9 u => uint_value u (10 * acc + 9)
  end%N.

(** [b.id !== id], on a book that can be read. *)
Definition other_id (id : string) (b : JSValue) : bool :=
  negb (strict_eq_str (field b "id") id).

(** *** Further sample data *)

Definition by_title : FilterConfig :=
  mkFilter EmptyString EmptyString EmptyString EmptyString EmptyString "title".

(** Two books as an import may bring them, without a title. *)
Definition untitled1 : JSValue :=
  JObj [("id", JStr "u1"); ("author", JStr "Anonymous")].
Definition untitled2 : JSValue :=
  JObj [("id", JStr "u2"); ("author", JStr "Unknown")].

Definition by_rating_desc : ListSortState := mkListSort "rating" "desc".

(** The shelf once it has been saved. *)
Definition saved_shelf : State := saved [b1; b2] empty_state.

Definition always_throws : State -> option Exn := fun _ => Some TypeError.

(** A book written by the form, alone in the collection. *)
Definition solaris : JSValue :=
  bookData (edit_form "b7") "b7" (JStr "2026-01-09").
Definition solaris_state : State := mkState [solaris] ∅ [].

(** An import file whose only book has an id that is on the shelf. *)
Definition known_file : ImportForm :=
  mkImport (Some (JSON.stringify (JArr [b1_again]))) EmptyString false.

(** States whose cover record is not a map: the text of an empty array,
    and the text of a number. *)
Definition array_covers_state : State :=
  mkState [] {[ COVER_CACHE_KEY := "[]" ]} [].
Definition number_covers_state : State :=
  mkState [] {[ COVER_CACHE_KEY := "5" ]} [].

(** A book as an import may bring it, with a status that is none of the
    five. *)
Definition capitalised : JSValue :=
  JObj [("id", JStr "b8"); ("title", JStr "Middlemarch");
        ("status", JStr "Finished")].

(** The form of a new book. *)
Definition new_form : BookForm := edit_form EmptyString.

(** * Properties

    ** JSON: parsing what was serialized *)

Lemma append_assoc (a b c : string) : (a ++ b) ++ c = a ++ (b ++ c).
Proof. induction a; simpl; congruence. Qed.

Lemma append_nil_r (a : string) : a ++ EmptyString = a.
Proof. induction a; simpl; congruence. Qed.

Lemma rbind_ret {A} (r : Result A) : (x <- r ;; Ok x) = r.
Proof. destruct r; reflexivity. Qed.

Lemma scans_weaken t toks : scans t toks -> scans_before_delim t toks.
Proof. intros H rest _. apply H. Qed.

Lemma scans_nil : scans EmptyString [].
Proof. intros rest. simpl. now rewrite rbind_ret. Qed.

Lemma rbind_assoc_toks (r : Result (list token)) (a b : list token) :
  (ts <- (ts' <- r ;; Ok (b ++ ts')%list) ;; Ok (a ++ ts)%list)
  = (ts <- r ;; Ok ((a ++ b) ++ ts)%list).
Proof. destruct r; simpl; try reflexivity. now rewrite app_assoc. Qed.

Lemma scans_app a b ta tb :
  scans a ta -> scans b tb -> scans (a ++ b) (ta ++ tb).
Proof.
  intros Ha Hb rest. rewrite append_assoc, Ha, Hb. apply rbind_assoc_toks.
Qed.

Lemma scans_app_weak a b ta tb :
  scans a ta -> scans_before_delim b tb -> scans_before_delim (a ++ b) (ta ++ tb).
Proof.
  intros Ha Hb rest Hr. rewrite append_assoc, Ha, (Hb _ Hr).
  apply rbind_assoc_toks.
Qed.

Lemma delim_start_app b rest : delim_start b = true -> num_end_ok (b ++ rest) = true.
Proof. destruct b; simpl; [discriminate | trivial]. Qed.

Lemma scans_delim_app a b ta tb :
  scans_before_delim a ta -> delim_start b = true -> scans b tb ->
  scans (a ++ b) (ta ++ tb).
Proof.
  intros Ha Hd Hb rest. rewrite append_assoc, (Ha _ (delim_start_app _ rest Hd)), Hb.
  apply rbind_assoc_toks.
Qed.

Lemma scans_char c tok :
  lex_start c = Ok (LStart, [tok]) -> scans (str1 c) [tok].
Proof.
  intros H rest. simpl. rewrite H. simpl. reflexivity.
Qed.

Lemma scans_ws w : all_ws w = true -> scans w [].
Proof.
  induction w as [|c w IH]; simpl; intros H.
  - apply scans_nil.
  - apply andb_true_iff in H as [Hc Hw]. intros rest. simpl.
    unfold lex_start. rewrite Hc. simpl. rewrite (IH Hw rest).
    destruct (lex_go LStart rest); reflexivity.
Qed.

(** Strings *)
Lemma lex_escape_char c acc rest :
  lex_go (LStr acc) (escape_char c ++ rest) = lex_go (LStr (c :: acc)) rest.
Proof.
  destruct c as [[] [] [] [] [] [] [] []];
    match goal with
    | |- context [escape_char ?c] =>
        let e := eval vm_compute in (escape_char c) in
        change (escape_char c) with e
    end;
    simpl; rewrite ?rbind_ret; reflexivity.
Qed.

Lemma lex_escape_string s acc rest :
  lex_go (LStr acc) (escape_string s ++ String dquote rest)
  = (ts <- lex_go LStart rest ;;
     Ok (TStr (string_of_list_ascii (rev acc ++ list_ascii_of_string s)) :: ts)).
Proof.
  revert acc. induction s as [|c s IH]; intros acc.
  - simpl. rewrite app_nil_r. destruct (lex_go LStart rest); reflexivity.
  - simpl escape_string. rewrite append_assoc, lex_escape_char, IH.
    simpl. now rewrite <- app_assoc.
Qed.

Lemma scans_quote s : scans (quote s) [TStr s].
Proof.
  intros rest. unfold quote. simpl. rewrite append_assoc. simpl.
  rewrite lex_escape_string. simpl. rewrite string_of_list_ascii_of_string.
  destruct (lex_go LStart rest); reflexivity.
Qed.

(** Numerals *)

Lemma string_of_uint_digits d : all_digits (NilEmpty.string_of_uint d) = true.
Proof. induction d; simpl; auto. Qed.

Lemma N_of_numeral_render n : N_of_numeral (render_N n) = Some n.
Proof.
  unfold N_of_numeral, render_N. rewrite NilEmpty.usu, DecimalN.Unsigned.of_to.
  now rewrite String.eqb_refl.
Qed.

Lemma lex_digits ds neg acc rest :
  all_digits ds = true ->
  lex_go (LNum neg acc) (ds ++ rest)
  = lex_go (LNum neg (rev (list_ascii_of_string ds) ++ acc)) rest.
Proof.
  revert acc. induction ds as [|c ds IH]; intros acc H; simpl in *.
  - reflexivity.
  - apply andb_true_iff in H as [Hc Hds]. rewrite Hc. simpl.
    rewrite (IH _ Hds), rbind_ret. now rewrite <- app_assoc.
Qed.

Lemma lex_num_end neg acc t rest :
  num_end_ok rest = true -> finish_num neg acc = Ok t ->
  lex_go (LNum neg acc) rest = (ts <- lex_go LStart rest ;; Ok (t :: ts)).
Proof.
  intros Hr Ht. destruct rest as [|c rest]; simpl.
  - now rewrite Ht.
  - simpl in Hr. apply negb_true_iff, orb_false_iff in Hr as [Hd Hc].
    rewrite Hd, Ht. simpl. rewrite Hc.
    destruct (lex_start c) as [[st ts]| |]; simpl; try reflexivity.
    destruct (lex_go st rest); reflexivity.
Qed.

Lemma lex_start_digit c :
  is_digit c = true -> lex_start c = Ok (LNum false [c], []).
Proof.
  destruct c as [[] [] [] [] [] [] [] []]; try discriminate; reflexivity.
Qed.

Lemma finish_num_render neg ds n :
  string_of_list_ascii (rev ds) = render_N n ->
  finish_num neg ds = Ok (TNum (if neg then - Z.of_N n else Z.of_N n)).
Proof.
  intros H. unfold finish_num. now rewrite H, N_of_numeral_render.
Qed.

Lemma render_N_nonempty n : exists c ds, render_N n = String c ds.
Proof.
  unfold render_N. destruct (N.to_uint n) eqn:E; simpl; eauto.
  exfalso. destruct n; [discriminate E|].
  exact (DecimalPos.Unsigned.to_uint_nonnil p E).
Qed.

Lemma scans_render_N neg n :
  (forall c, is_digit c = true ->
     lex_start c = Ok (LNum false [c], [])) ->
  forall rest, num_end_ok rest = true ->
  lex_go (LNum neg []) (render_N n ++ rest)
  = (ts <- lex_go LStart rest ;;
     Ok (TNum (if neg then - Z.of_N n else Z.of_N n) :: ts)).
Proof.
  intros _ rest Hr.
  rewrite lex_digits by apply string_of_uint_digits.
  apply lex_num_end; [exact Hr|].
  apply finish_num_render.
  rewrite app_nil_r, rev_involutive.
  apply string_of_list_ascii_of_string.
Qed.

Lemma scans_render_Z z : scans_before_delim (render_Z z) [TNum z].
Proof.
  intros rest Hr.
  assert (Hpos : forall n,
             lex_go LStart (render_N n ++ rest)
             = (ts <- lex_go LStart rest ;; Ok (TNum (Z.of_N n) :: ts))).
  { intros n. rewrite <- (scans_render_N false n lex_start_digit rest Hr).
    pose proof (string_of_uint_digits (N.to_uint n)) as Hd.
    fold (render_N n) in Hd.
    destruct (render_N_nonempty n) as (c & ds & E). rewrite E in *.
    simpl in Hd. apply andb_true_iff in Hd as [Hc Hds].
    simpl. rewrite (lex_start_digit c Hc), Hc. simpl.
    now rewrite !rbind_ret. }
  destruct z as [|p|p]; simpl.
  - apply (Hpos 0%N).
  - apply (Hpos (Npos p)).
  - rewrite rbind_ret. apply (scans_render_N true (Npos p) lex_start_digit rest Hr).
Qed.

Lemma scans_null : scans "null" [TNull].
Proof. intros rest. simpl. now rewrite !rbind_ret. Qed.
Lemma scans_true : scans "true" [TTrue].
Proof. intros rest. simpl. now rewrite !rbind_ret. Qed.
Lemma scans_false : scans "false" [TFalse].
Proof. intros rest. simpl. now rewrite !rbind_ret. Qed.

(** Containers *)
Lemma all_ws_app a b : all_ws a = true -> all_ws b = true -> all_ws (a ++ b) = true.
Proof. induction a; simpl; intros Ha Hb; [exact Hb|].
  apply andb_true_iff in Ha as [? ?]. apply andb_true_iff; auto. Qed.

Lemma scans_join parts toks sep tail ttail :
  Forall2 scans_before_delim parts toks -> parts <> [] ->
  scans sep [TComma] -> delim_start sep = true ->
  scans tail ttail -> delim_start tail = true ->
  scans (join sep parts ++ tail) (commas toks ++ ttail).
Proof.
  intros HF Hne Hsep Hdsep Htail Hdtail.
  induction HF as [|p tp ps tps Hp HF IH]; [congruence|].
  destruct HF as [|p2 tp2 ps tps Hp2 HF].
  - simpl. apply scans_delim_app; assumption.
  - change (join sep (p :: p2 :: ps)) with (p ++ sep ++ join sep (p2 :: ps)).
    change (commas (tp :: tp2 :: tps)) with (tp ++ TComma :: commas (tp2 :: tps))%list.
    rewrite !append_assoc, <- app_assoc.
    apply scans_delim_app; [exact Hp| |].
    + destruct sep; [discriminate|exact Hdsep].
    + apply (scans_app sep _ [TComma]); [exact Hsep|].
      apply IH. discriminate.
Qed.

Lemma scans_wrap opening closing topen tclose gap stepback parts toks :
  lex_start opening = Ok (LStart, [topen]) ->
  lex_start closing = Ok (LStart, [tclose]) ->
  delim_start (str1 closing) = true ->
  all_ws gap = true -> all_ws stepback = true ->
  Forall2 scans_before_delim parts toks ->
  scans (wrap opening closing gap stepback parts)
        (topen :: commas toks ++ [tclose]).
Proof.
  intros Ho Hc Hd Hgap Hstep HF.
  pose proof (scans_char _ _ Ho) as So. pose proof (scans_char _ _ Hc) as Sc.
  assert (Scomma : scans (str1 ",") [TComma]) by (apply scans_char; reflexivity).
  unfold wrap. destruct parts as [|p ps].
  - inversion HF; subst. apply (scans_app (str1 opening) (str1 closing) [topen] [tclose]); assumption.
  - set (l := p :: ps) in *. assert (Hne : l <> []) by discriminate.
    clearbody l. destruct gap as [|g gap].
    + apply (scans_app (str1 opening) _ [topen]); [exact So|].
      apply scans_join; auto.
    + set (gp := String g gap) in *.
      apply (scans_app (str1 opening) _ [topen]); [exact So|].
      apply (scans_app (str1 newline ++ (stepback ++ gp)) _ []).
      { apply scans_ws. apply (all_ws_app (str1 newline)); [reflexivity|].
        apply all_ws_app; assumption. }
      apply scans_join; auto.
      * apply (scans_app (str1 ",") _ [TComma] []); [exact Scomma|].
        apply scans_ws. apply (all_ws_app (str1 newline)); [reflexivity|].
        apply all_ws_app; assumption.
      * apply (scans_app (str1 newline) _ [] [tclose]); [apply scans_ws; reflexivity|].
        apply (scans_app stepback _ [] [tclose]); [apply scans_ws; assumption|].
        exact Sc.
Qed.

Lemma ser_some gap indent v : v <> JUndefined -> exists t, ser gap indent v = Some t.
Proof. destruct v as [| |[]| | | |]; simpl; eauto; congruence. Qed.

Lemma json_ok_defined v : json_ok v = true -> v <> JUndefined.
Proof. destruct v; simpl; congruence. Qed.

Lemma present_all {A} (f : A -> option string) (g : A -> string) (l : list A) :
  Forall (fun x => f x = Some (g x)) l -> JSON.present (map f l) = map g l.
Proof. induction 1 as [|x l Hx _ IH]; simpl; [reflexivity|]. now rewrite Hx, IH. Qed.

Lemma ser_scans v :
  json_ok v = true ->
  forall gap indent t,
    all_ws gap = true -> all_ws indent = true ->
    ser gap indent v = Some t -> scans_before_delim t (tokens v).
Proof.
  induction v as [| |b|n|s|l IH|o IH] using JSValue_nested_ind; intros Hok gap indent t Hgap Hind Hser;
    simpl in Hser; try discriminate Hok.
  - injection Hser as <-. apply scans_weaken, scans_null.
  - destruct b; injection Hser as <-; apply scans_weaken;
      [apply scans_true | apply scans_false].
  - injection Hser as <-. apply scans_render_Z.
  - injection Hser as <-. apply scans_weaken, scans_quote.
  - injection Hser as <-. apply scans_weaken. simpl tokens.
    apply scans_wrap; try reflexivity; try assumption.
    simpl in Hok. induction IH as [|x l Hx _ IHl]; simpl; [constructor|].
    simpl in Hok. apply andb_true_iff in Hok as [Hx_ok Hl_ok].
    constructor; [|exact (IHl Hl_ok)].
    destruct (ser_some gap (indent ++ gap) x (json_ok_defined _ Hx_ok)) as [tx Etx].
    rewrite Etx. apply (Hx Hx_ok gap (indent ++ gap)); auto using all_ws_app.
  - injection Hser as <-. apply scans_weaken. simpl tokens.
    simpl in Hok. apply andb_true_iff in Hok as [_ Hok].
    set (sp := match gap with EmptyString => EmptyString | _ => " " end).
    assert (Hsp : all_ws sp = true) by (subst sp; destruct gap; reflexivity).
    rewrite (present_all _
               (fun kv => quote (fst kv) ++ ":" ++ sp
                          ++ ser_or_null gap (indent ++ gap) (snd kv))).
    2:{ clear IH. induction o as [|kv o IHo]; constructor.
        - simpl in Hok. apply andb_true_iff in Hok as [Hkv _].
          unfold ser_or_null.
          destruct (ser_some gap (indent ++ gap) (snd kv) (json_ok_defined _ Hkv)) as [tx Etx].
          now rewrite Etx.
        - simpl in Hok. apply andb_true_iff in Hok as [_ Ho]. auto. }
    apply scans_wrap; try reflexivity; try assumption.
    induction IH as [|kv o Hkv _ IHo]; simpl; [constructor|].
    simpl in Hok. apply andb_true_iff in Hok as [Hkv_ok Ho_ok].
    constructor; [|exact (IHo Ho_ok)].
    apply (scans_app_weak (quote (fst kv)) _ [TStr (fst kv)]); [apply scans_quote|].
    apply (scans_app_weak (str1 ":") _ [TColon]); [apply scans_char; reflexivity|].
    apply (scans_app_weak sp _ []); [apply scans_ws; exact Hsp|].
    unfold ser_or_null.
    destruct (ser_some gap (indent ++ gap) (snd kv) (json_ok_defined _ Hkv_ok)) as [tx Etx].
    rewrite Etx. apply (Hkv Hkv_ok gap (indent ++ gap)); auto using all_ws_app.
Qed.

(** Parsing the token sequence of a value *)

Lemma tokens_head v : exists t ts, tokens v = t :: ts /\ value_start t = true.
Proof. destruct v as [| |[]| | | |]; simpl; eauto. Qed.

Lemma tokens_length v : (1 <= length (tokens v))%nat.
Proof. destruct (tokens_head v) as (t & ts & -> & _). simpl. lia. Qed.

Lemma commas_cons_length (x : list token) l :
  (length x <= length (commas (x :: l)))%nat
  /\ (l <> [] -> length (commas l) < length (commas (x :: l)))%nat.
Proof.
  destruct l; simpl; [split; [lia|congruence]|].
  rewrite length_app. simpl. split; intros; lia.
Qed.

Lemma commas_bounds (tss : list (list token)) :
  Forall (fun ts => 1 <= length ts)%nat tss ->
  (length tss <= length (commas tss))%nat
  /\ Forall (fun ts => length ts <= length (commas tss))%nat tss.
Proof.
  induction 1 as [|x l Hx _ [IH1 IH2]]; [split; [simpl; lia|constructor]|].
  destruct (commas_cons_length x l) as [H1 H2].
  destruct l as [|y l].
  - simpl in *. split; [lia|]. constructor; [lia|constructor].
  - specialize (H2 ltac:(discriminate)). split.
    + simpl length at 1. simpl length in IH1 at 1. lia.
    + constructor; [exact H1|]. eapply List.Forall_impl; [|exact IH2].
      cbv beta. intros ts Hts. lia.
Qed.

Lemma parse_elements_tokens fv fl l rest :
  l <> [] ->
  Forall (fun x => forall r, parse_value fv (tokens x ++ r) = Ok (x, r)) l ->
  (length l <= fl)%nat ->
  parse_elements (parse_value fv) fl
    (commas (map tokens l) ++ TRBrack :: rest) = Ok (l, rest).
Proof.
  intros Hne HF. revert fl. induction HF as [|x l Hx HF IH]; [congruence|].
  intros fl Hfl. destruct fl as [|fl]; [simpl in Hfl; lia|].
  destruct l as [|y l].
  - simpl. rewrite Hx. reflexivity.
  - change (commas (map tokens (x :: y :: l)))
      with (tokens x ++ TComma :: commas (map tokens (y :: l)))%list.
    rewrite <- app_assoc. simpl parse_elements. rewrite Hx. simpl.
    rewrite IH; [reflexivity|discriminate|simpl in *; lia].
Qed.

Lemma parse_members_tokens fv fl (o : list (string * JSValue)) rest :
  o <> [] ->
  Forall (fun kv => forall r, parse_value fv (tokens (snd kv) ++ r) = Ok (snd kv, r)) o ->
  (length o <= fl)%nat ->
  parse_members (parse_value fv) fl
    (commas (map (fun kv => TStr (fst kv) :: TColon :: tokens (snd kv)) o)
     ++ TRBrace :: rest) = Ok (o, rest).
Proof.
  intros Hne HF. revert fl. induction HF as [|[k x] o Hx HF IH]; [congruence|].
  intros fl Hfl. destruct fl as [|fl]; [simpl in Hfl; lia|].
  destruct o as [|y o].
  - simpl. rewrite Hx. reflexivity.
  - set (mt := fun kv : string * JSValue => TStr (fst kv) :: TColon :: tokens (snd kv)) in *.
    change (commas (map mt ((k, x) :: y :: o)))
      with (mt (k, x) ++ TComma :: commas (map mt (y :: o)))%list.
    rewrite <- app_assoc. simpl. rewrite Hx. simpl.
    rewrite IH; [reflexivity|discriminate|simpl in *; lia].
Qed.

Lemma distinct_NoDup l : distinct l = true <-> List.NoDup l.
Proof.
  induction l as [|k l IH]; simpl.
  - split; [constructor|reflexivity].
  - rewrite andb_true_iff, negb_true_iff, IH. split.
    + intros [Hk Hl]. constructor; [|exact Hl].
      intros Hin. assert (existsb (String.eqb k) l = true); [|congruence].
      apply existsb_exists. exists k. split; [exact Hin|apply String.eqb_refl].
    + intros H. inversion H; subst. split; [|assumption].
      destruct (existsb (String.eqb k) l) eqn:E; [|reflexivity].
      apply existsb_exists in E as (k' & Hin & Heq).
      apply String.eqb_eq in Heq. subst. contradiction.
Qed.

Lemma obj_set_fresh (o : Object) k v :
  ~ In k (map fst o) -> obj_set o k v = (o ++ [(k, v)])%list.
Proof.
  induction o as [|[k' v'] o IH]; simpl; intros H; [reflexivity|].
  destruct (String.eqb_spec k' k) as [->|Hne]; [tauto|].
  rewrite IH; tauto.
Qed.

Lemma object_of_members_distinct_from acc o :
  List.NoDup (map fst (acc ++ o)) ->
  fold_left (fun o kv => obj_set o (fst kv) (snd kv)) o acc = (acc ++ o)%list.
Proof.
  revert acc. induction o as [|[k v] o IH]; intros acc H; simpl.
  - now rewrite app_nil_r.
  - rewrite obj_set_fresh.
    + rewrite IH; rewrite <- app_assoc; [reflexivity|exact H].
    + rewrite map_app in H. apply List.NoDup_remove_2 in H.
      intros Hin. apply H. apply in_or_app. now left.
Qed.

Lemma object_of_members_distinct o :
  distinct (map fst o) = true -> object_of_members o = o.
Proof.
  intros H. apply distinct_NoDup in H.
  apply (object_of_members_distinct_from [] o H).
Qed.

Lemma json_ok_arr l : json_ok (JArr l) = forallb json_ok l.
Proof. reflexivity. Qed.

Lemma json_ok_obj o :
  json_ok (JObj o)
  = distinct (map fst o) && forallb (fun kv => json_ok (snd kv)) o.
Proof. reflexivity. Qed.

Lemma parse_value_tokens v :
  json_ok v = true ->
  forall fuel rest, (length (tokens v) <= fuel)%nat ->
    parse_value fuel (tokens v ++ rest) = Ok (v, rest).
Proof.
  induction v as [| |b|n|s|l IH|o IH] using JSValue_nested_ind;
    intros Hok fuel rest Hfuel; try discriminate Hok;
    (destruct fuel as [|fuel];
     [match type of Hfuel with
      | (length (tokens ?x) <= _)%nat => pose proof (tokens_length x); lia
      end|]).
  - reflexivity.
  - destruct b; reflexivity.
  - reflexivity.
  - reflexivity.
  - destruct l as [|x0 l0] eqn:El; [reflexivity|].
    assert (Hne : l <> []) by (rewrite El; discriminate).
    rewrite <- El in *. clear El x0 l0.
    rewrite json_ok_arr in Hok.
    change (tokens (JArr l)) with (TLBrack :: commas (map tokens l) ++ [TRBrack])%list in *.
    assert (Hlen : Forall (fun ts => 1 <= length ts)%nat (map tokens l)).
    { apply List.Forall_forall. intros ts Hin. apply in_map_iff in Hin as (y & <- & _).
      apply tokens_length. }
    destruct (commas_bounds _ Hlen) as [Hb1 Hb2].
    simpl length in Hfuel. rewrite length_app in Hfuel. simpl length in Hfuel.
    rewrite length_map in Hb1.
    assert (HF : Forall (fun x => forall r, parse_value fuel (tokens x ++ r) = Ok (x, r)) l).
    { rewrite List.Forall_forall in IH, Hb2 |- *. intros y Hy r.
      apply IH; [exact Hy| |].
      - rewrite forallb_forall in Hok. auto.
      - specialize (Hb2 (tokens y) (in_map tokens _ _ Hy)). cbv beta in Hb2. lia. }
    assert (Hl : (length l <= fuel)%nat) by lia.
    pose proof (parse_elements_tokens fuel fuel l rest Hne HF Hl) as HP.
    destruct l as [|y ys]; [congruence|].
    destruct (tokens_head y) as (t & ts & Et & Hst).
    assert (exists cs, commas (map tokens (y :: ys)) = t :: cs) as [cs Ec].
    { simpl. destruct (map tokens ys); simpl; rewrite Et; simpl; eauto. }
    rewrite Ec in HP |- *. simpl app. rewrite <- app_assoc. simpl app.
    simpl app in HP. destruct t; try discriminate Hst; simpl; rewrite HP; reflexivity.
  - destruct o as [|x0 l0] eqn:El; [reflexivity|].
    assert (Hne : o <> []) by (rewrite El; discriminate).
    rewrite <- El in *. clear El x0 l0.
    rewrite json_ok_obj in Hok.
    apply andb_true_iff in Hok as [Hdist Hok].
    set (mt := fun kv : string * JSValue => TStr (fst kv) :: TColon :: tokens (snd kv)) in *.
    change (tokens (JObj o)) with (TLBrace :: commas (map mt o) ++ [TRBrace])%list in *.
    assert (Hlen : Forall (fun ts => 1 <= length ts)%nat (map mt o)).
    { apply List.Forall_forall. intros ts Hin. apply in_map_iff in Hin as (y & <- & _).
      simpl. lia. }
    destruct (commas_bounds _ Hlen) as [Hb1 Hb2].
    simpl length in Hfuel. rewrite length_app in Hfuel. simpl length in Hfuel.
    rewrite length_map in Hb1.
    assert (HF : Forall (fun kv => forall r, parse_value fuel (tokens (snd kv) ++ r) = Ok (snd kv, r)) o).
    { rewrite List.Forall_forall in IH, Hb2 |- *. intros y Hy r.
      apply IH; [exact Hy| |].
      - rewrite forallb_forall in Hok. auto.
      - specialize (Hb2 (mt y) (in_map mt _ _ Hy)). cbv beta in Hb2.
        unfold mt in Hb2 at 1. simpl length in Hb2 at 1. lia. }
    assert (Hl : (length o <= fuel)%nat) by lia.
    pose proof (parse_members_tokens fuel fuel o rest Hne HF Hl) as HP.
    fold mt in HP.
    destruct o as [|y ys]; [congruence|].
    assert (exists cs, commas (map mt (y :: ys)) = TStr (fst y) :: cs) as [cs Ec].
    { simpl. destruct (map mt ys); simpl; eauto. }
    rewrite Ec in HP |- *. simpl app. rewrite <- app_assoc. simpl app.
    simpl app in HP. simpl. rewrite HP. simpl.
    now rewrite object_of_members_distinct.
Qed.

(** Round trip *)
Lemma parse_ser v gap t :
  json_ok v = true -> all_ws gap = true ->
  ser gap EmptyString v = Some t -> parse t = Ok v.
Proof.
  intros Hok Hgap Hser. unfold parse.
  pose proof (ser_scans v Hok gap EmptyString t Hgap eq_refl Hser EmptyString eq_refl) as H.
  rewrite append_nil_r in H. rewrite H.
  change (lex_go LStart EmptyString) with (@Ok (list token) []).
  cbv beta iota delta [rbind]. rewrite app_nil_r.
  assert (Hfuel : (length (tokens v) <= S (length (tokens v)))%nat) by lia.
  pose proof (parse_value_tokens v Hok _ [] Hfuel) as HP.
  rewrite app_nil_r in HP. now rewrite HP.
Qed.

Lemma parse_stringify v : json_ok v = true -> parse (stringify v) = Ok v.
Proof.
  intros Hok. unfold stringify.
  destruct (ser_some EmptyString EmptyString v (json_ok_defined v Hok)) as [t Et].
  rewrite Et. now apply (parse_ser v EmptyString).
Qed.

Lemma parse_stringify_pretty v : json_ok v = true -> parse (stringify_pretty v) = Ok v.
Proof.
  intros Hok. unfold stringify_pretty.
  destruct (ser_some "  " EmptyString v (json_ok_defined v Hok)) as [t Et].
  rewrite Et. now apply (parse_ser v "  ").
Qed.

(** What [parse] returns is JSON data. *)
Lemma obj_set_keys (o : Object) k v :
  map fst (obj_set o k v)
  = if existsb (String.eqb k) (map fst o) then map fst o
    else (map fst o ++ [k])%list.
Proof.
  induction o as [|[k' v'] o IH]; simpl; [reflexivity|].
  rewrite (String.eqb_sym k k').
  destruct (String.eqb_spec k' k) as [->|Hne]; simpl; [reflexivity|].
  rewrite IH. destruct (existsb (String.eqb k) (map fst o)); reflexivity.
Qed.

Lemma obj_set_distinct (o : Object) k v :
  distinct (map fst o) = true -> distinct (map fst (obj_set o k v)) = true.
Proof.
  rewrite obj_set_keys. destruct (existsb (String.eqb k) (map fst o)) eqn:E; [trivial|].
  rewrite !distinct_NoDup. intros H.
  apply List.NoDup_app; [exact H|repeat constructor; simpl; tauto|].
  intros x Hx [<-|[]].
  assert (existsb (String.eqb k) (map fst o) = true); [|congruence].
  apply existsb_exists. exists k. split; [exact Hx|apply String.eqb_refl].
Qed.

Lemma obj_set_values_ok (o : Object) k v :
  json_ok v = true ->
  forallb (fun kv => json_ok (snd kv)) o = true ->
  forallb (fun kv => json_ok (snd kv)) (obj_set o k v) = true.
Proof.
  intros Hv. induction o as [|[k' v'] o IH]; simpl; [now rewrite Hv|].
  intros H. apply andb_true_iff in H as [H1 H2].
  destruct (String.eqb k' k); simpl; rewrite ?Hv, ?H1, ?H2, ?IH; auto.
Qed.

Lemma obj_set_json_ok o k v :
  json_ok (JObj o) = true -> json_ok v = true ->
  json_ok (JObj (obj_set o k v)) = true.
Proof.
  rewrite !json_ok_obj, !andb_true_iff. intros [H1 H2] Hv.
  split; [now apply obj_set_distinct|now apply obj_set_values_ok].
Qed.

Lemma object_of_members_ok ms :
  forallb (fun kv => json_ok (snd kv)) ms = true ->
  json_ok (JObj (object_of_members ms)) = true.
Proof.
  unfold object_of_members.
  assert (H : forall acc, json_ok (JObj acc) = true ->
            forallb (fun kv => json_ok (snd kv)) ms = true ->
            json_ok (JObj (fold_left (fun o kv => obj_set o (fst kv) (snd kv)) ms acc)) = true).
  { induction ms as [|[k v] ms IH]; simpl; intros acc Hacc Hms; [exact Hacc|].
    apply andb_true_iff in Hms as [Hv Hms].
    apply IH; [|exact Hms]. now apply obj_set_json_ok. }
  apply H. reflexivity.
Qed.

Lemma parse_elements_ok value fuel :
  yields_json value ->
  forall ts r, parse_elements value fuel ts = Ok r -> forallb json_ok (fst r) = true.
Proof.
  intros Hv. induction fuel as [|fuel IH]; intros ts r H; simpl in H; [discriminate|].
  destruct (value ts) as [[v ts1]| |] eqn:E; simpl in H; try discriminate.
  pose proof (Hv _ _ E) as Hok. simpl in Hok.
  destruct ts1 as [|[] ts1]; try discriminate.
  - injection H as <-. simpl. now rewrite Hok.
  - destruct (parse_elements value fuel ts1) as [[vs ts2]| |] eqn:E2; simpl in H; try discriminate.
    injection H as <-. simpl. rewrite Hok. exact (IH _ _ E2).
Qed.

Lemma parse_members_ok value fuel :
  yields_json value ->
  forall ts r, parse_members value fuel ts = Ok r ->
    forallb (fun kv => json_ok (snd kv)) (fst r) = true.
Proof.
  intros Hv. induction fuel as [|fuel IH]; intros ts r H; simpl in H; [discriminate|].
  destruct ts as [|[] [|[] ts]]; try discriminate.
  destruct (value ts) as [[v ts1]| |] eqn:E; simpl in H; try discriminate.
  pose proof (Hv _ _ E) as Hok. simpl in Hok.
  destruct ts1 as [|[] ts1]; try discriminate.
  - injection H as <-. simpl. now rewrite Hok.
  - destruct (parse_members value fuel ts1) as [[vs ts2]| |] eqn:E2; simpl in H; try discriminate.
    injection H as <-. simpl. rewrite Hok. exact (IH _ _ E2).
Qed.

Lemma parse_value_ok fuel : yields_json (parse_value fuel).
Proof.
  induction fuel as [|fuel IH]; intros ts r H; simpl in H; [discriminate|].
  destruct ts as [|t ts]; [discriminate|].
  destruct t; try discriminate; try (injection H as <-; reflexivity).
  - destruct ts as [|t' ts]; simpl in H.
    + destruct fuel; discriminate.
    + assert (Hgen : (r' <- parse_elements (parse_value fuel) fuel (t' :: ts) ;;
                      Ok (JArr (fst r'), snd r')) = Ok r -> json_ok (fst r) = true).
      { destruct (parse_elements (parse_value fuel) fuel (t' :: ts)) as [r'| |] eqn:E;
          simpl; try discriminate.
        intros [= <-]. simpl. exact (parse_elements_ok _ _ IH _ _ E). }
      destruct t'; try exact (Hgen H). injection H as <-; reflexivity.
  - destruct ts as [|t' ts]; simpl in H.
    + destruct fuel; discriminate.
    + assert (Hgen : (r' <- parse_members (parse_value fuel) fuel (t' :: ts) ;;
                      Ok (JObj (object_of_members (fst r')), snd r')) = Ok r ->
                     json_ok (fst r) = true).
      { destruct (parse_members (parse_value fuel) fuel (t' :: ts)) as [r'| |] eqn:E;
          simpl; try discriminate.
        intros [= <-]. simpl fst. apply object_of_members_ok.
        exact (parse_members_ok _ _ IH _ _ E). }
      destruct t'; try exact (Hgen H). injection H as <-; reflexivity.
Qed.

Lemma parse_json_ok text v : parse text = Ok v -> json_ok v = true.
Proof.
  unfold parse. destruct (lex_go LStart text) as [ts| |];
    cbv beta iota delta [rbind]; try discriminate.
  destruct (parse_value (S (length ts)) ts) as [[v' r]| |] eqn:E;
    try discriminate.
  cbv beta iota delta [snd fst].
  destruct r; try discriminate. intros [= <-].
  exact (parse_value_ok _ _ _ E).
Qed.

(** ** Sorting with a consistent comparator *)

Section SortFacts.
Context {A : Type}.
Variable cmp : A -> A -> Result (option Z).
Variable c : A -> A -> Z.
Hypothesis c_antisym : forall a b, 0 < c a b <-> c b a < 0.
Hypothesis c_trans : forall a b d, c a b <= 0 -> c b d <= 0 -> c a d <= 0.

Lemma sort_insert_spec x l :
  (forall y, In y l -> cmp x y = Ok (Some (c x y))) ->
  exists l1 l2,
    l = (l1 ++ l2)%list /\ sort_insert cmp x l = Ok (l1 ++ x :: l2)%list
    /\ Forall (fun y => 0 < c x y) l1
    /\ match l2 with [] => True | y :: _ => c x y <= 0 end.
Proof.
  induction l as [|y l IH]; intros H.
  - exists [], []. simpl. auto.
  - simpl. rewrite (H y) by (now left). simpl.
    destruct (Z.ltb_spec 0 (c x y)) as [Hpos|Hle].
    + destruct IH as (l1 & l2 & -> & E & H1 & H2).
      { intros y' Hy'. apply H. now right. }
      exists (y :: l1), l2. rewrite E. simpl. repeat split; auto.
    + exists [], (y :: l). simpl. auto.
Qed.

Lemma c_refl a : c a a = 0.
Proof.
  pose proof (c_antisym a a). lia.
Qed.

Lemma tie_blocks x y z : c z x = 0 -> 0 < c x y -> c z y <> 0.
Proof.
  intros Hzx Hxy Hzy.
  assert (c x z <= 0) by (pose proof (c_antisym x z); lia).
  assert (c x y <= 0) by (apply (c_trans x z y); lia).
  lia.
Qed.

Lemma sort_spec l :
  agrees_on cmp c l ->
  exists out,
    array_sort cmp l = Ok out
    /\ Permutation l out
    /\ StronglySorted (fun a b => c a b <= 0) out
    /\ forall z, List.filter (tie c z) out = List.filter (tie c z) l.
Proof.
  induction l as [|x l IH]; intros Hag.
  - exists []. simpl. repeat split; constructor.
  - destruct IH as (out & E & Hperm & Hsorted & Hstable).
    { intros a b Ha Hb. apply Hag; now right. }
    simpl. rewrite E. simpl.
    destruct (sort_insert_spec x out) as (l1 & l2 & -> & Eins & H1 & H2).
    { intros y Hy. apply Hag; [now left|right].
      apply Permutation_sym in Hperm. exact (Permutation_in _ Hperm Hy). }
    exists (l1 ++ x :: l2)%list. split; [exact Eins|]. split; [|split].
    + now apply Permutation_cons_app.
    + clear Eins Hstable Hperm Hag E.
      induction l1 as [|y l1 IHl1]; simpl in *.
      * constructor; [exact Hsorted|].
        destruct l2 as [|y l2]; constructor; [exact H2|].
        inversion Hsorted as [|? ? _ Hall]; subst.
        eapply List.Forall_impl; [|exact Hall]. intros d Hd.
        exact (c_trans _ _ _ H2 Hd).
      * inversion Hsorted as [|? ? Hs Hall]; subst.
        inversion H1 as [|? ? Hy H1']; subst.
        constructor; [exact (IHl1 Hs H1')|].
        apply Forall_app in Hall as [Ha1 Ha2].
        apply Forall_app. split; [exact Ha1|].
        constructor; [|exact Ha2].
        pose proof (c_antisym x y). lia.
    + intros z. rewrite <- Hstable. rewrite !List.filter_app. simpl.
      destruct (tie c z x) eqn:Ezx; [|reflexivity].
      apply Z.eqb_eq in Ezx.
      assert (List.filter (tie c z) l1 = []) as ->; [|reflexivity].
      clear -H1 Ezx c_antisym c_trans.
      induction H1 as [|y l1 Hy _ IHl]; simpl; [reflexivity|].
      destruct (tie c z y) eqn:Ezy; [|exact IHl].
      apply Z.eqb_eq in Ezy.
      exfalso. exact (tie_blocks x y z Ezx Hy Ezy).
Qed.
End SortFacts.

(** ** Reading the fields of a book *)

Lemma get_prop_field b k : loose_eq_null b = false -> get_prop b k = Ok (field b k).
Proof.
  unfold field. destruct b; simpl; try discriminate; intros _; try reflexivity.
  - destruct (String.eqb k "length"); [reflexivity|]. now destruct (N_of_numeral k).
  - destruct (String.eqb k "length"); [reflexivity|]. now destruct (N_of_numeral k).
Qed.

Lemma filterM_pure {A} (f : A -> Result bool) (g : A -> bool) l :
  Forall (fun x => f x = Ok (g x)) l -> filterM f l = Ok (List.filter g l).
Proof.
  induction 1 as [|x l Hx _ IH]; simpl; [reflexivity|].
  rewrite Hx, IH. simpl. reflexivity.
Qed.

(** ** The six sections partition the filtered list *)

Lemma field_get b k v :
  field b k = v -> v <> JUndefined -> get_prop b k = Ok v.
Proof.
  unfold field. destruct (get_prop b k); congruence.
Qed.

Lemma status_in_enum_get b :
  status_in_enum b = true ->
  exists s, get_prop b "status" = Ok (JStr s) /\ In s STATUSES.
Proof.
  unfold status_in_enum. destruct (field b "status") as [| | | |s| |] eqn:E;
    try discriminate.
  intros H. exists s. split; [apply field_get; [exact E|discriminate]|].
  apply existsb_exists in H as (x & Hx & Heq).
  apply String.eqb_eq in Heq. now subst.
Qed.

Lemma favorite_is_boolean_get b :
  favorite_is_boolean b = true ->
  exists f, get_prop b "favorite" = Ok (JBool f).
Proof.
  unfold favorite_is_boolean. destruct (field b "favorite") as [| |f| | | |] eqn:E;
    try discriminate.
  intros _. exists f. apply field_get; [exact E|discriminate].
Qed.

Lemma bucket_hits b :
  status_in_enum b = true -> favorite_is_boolean b = true ->
  exists hits,
    mapM (fun p => p b) bucket_predicates = Ok hits /\ count_true hits = 1%nat.
Proof.
  intros Hst Hfav.
  destruct (status_in_enum_get b Hst) as (s & Hs & Hin).
  destruct (favorite_is_boolean_get b Hfav) as (f & Hf).
  unfold bucket_predicates. simpl mapM.
  unfold is_top_pick, is_plain_finished, has_status. rewrite Hs, Hf. simpl.
  destruct f; simpl in Hin;
    (destruct Hin as [<-|[<-|[<-|[<-|[<-|[]]]]]]); simpl; eauto.
Qed.

Lemma one_bucket b l B :
  status_in_enum b = true -> favorite_is_boolean b = true ->
  renderAll_buckets l = Ok B ->
  exists B', renderAll_buckets (b :: l) = Ok B'
             /\ Permutation (b :: all_buckets B) (all_buckets B').
Proof.
  intros Hst Hfav HB.
  destruct (status_in_enum_get b Hst) as (s & Hs & Hin).
  destruct (favorite_is_boolean_get b Hfav) as (f & Hf).
  unfold renderAll_buckets in *.
  destruct (filterM is_top_pick l) as [l1| |] eqn:E1; try discriminate.
  destruct (filterM (has_status "reading") l) as [l2| |] eqn:E2; try discriminate.
  destruct (filterM (has_status "up-next") l) as [l3| |] eqn:E3; try discriminate.
  destruct (filterM (has_status "wishlist") l) as [l4| |] eqn:E4; try discriminate.
  destruct (filterM (has_status "on-hold") l) as [l5| |] eqn:E5; try discriminate.
  destruct (filterM is_plain_finished l) as [l6| |] eqn:E6; try discriminate.
  simpl in HB. injection HB as <-.
  simpl filterM. rewrite E1, E2, E3, E4, E5, E6.
  unfold is_top_pick, is_plain_finished, has_status. rewrite Hs, Hf.
  unfold all_buckets.
  destruct f; simpl in Hin;
    (destruct Hin as [<-|[<-|[<-|[<-|[<-|[]]]]]]); simpl;
    eexists; (split; [reflexivity|]); simpl;
    repeat first
      [ apply Permutation_refl
      | apply (Permutation_cons_app _ _ b); simpl
      | rewrite app_assoc ].
Qed.

Lemma has_status_field s b :
  loose_eq_null b = false -> has_status s b = Ok (status_is s b).
Proof.
  intros Hb. unfold has_status, status_is. now rewrite (get_prop_field b _ Hb).
Qed.

Lemma is_top_pick_field b :
  loose_eq_null b = false ->
  is_top_pick b = Ok (is_favorite b && status_is "finished" b).
Proof.
  intros Hb. unfold is_top_pick, has_status, is_favorite, status_is.
  rewrite !(get_prop_field b _ Hb). simpl.
  destruct (truthy _); reflexivity.
Qed.

Lemma is_plain_finished_field b :
  loose_eq_null b = false ->
  is_plain_finished b = Ok (status_is "finished" b && negb (is_favorite b)).
Proof.
  intros Hb. unfold is_plain_finished, has_status, is_favorite, status_is.
  rewrite !(get_prop_field b _ Hb). simpl.
  destruct (strict_eq_str _ _); reflexivity.
Qed.

Lemma status_in_enum_not_null b :
  status_in_enum b = true -> loose_eq_null b = false.
Proof. unfold status_in_enum, field. destruct b; simpl; congruence. Qed.

(** On a book that is an object, each predicate of [renderAll] is the
    test of its section. *)
Lemma predicates_are_tests b :
  loose_eq_null b = false ->
  mapM (fun p => p b) bucket_predicates
  = Ok (map (fun t => t b) section_tests).
Proof.
  intros Hb. unfold bucket_predicates, section_tests. cbn [mapM map].
  rewrite (is_top_pick_field b Hb), (is_plain_finished_field b Hb),
    !(has_status_field _ b Hb).
  reflexivity.
Qed.

Lemma one_test b :
  status_in_enum b = true -> favorite_is_boolean b = true ->
  count_true (map (fun t => t b) section_tests) = 1%nat.
Proof.
  intros Hst Hfav.
  pose proof (bucket_hits b Hst Hfav) as (hits & Hh & Hc).
  rewrite (predicates_are_tests b (status_in_enum_not_null b Hst)) in Hh.
  now injection Hh as <-.
Qed.

Lemma sections_are_filters l :
  Forall (fun b => loose_eq_null b = false) l ->
  renderAll_buckets l
  = Ok (mkBuckets
          (List.filter (fun b => is_favorite b && status_is "finished" b) l)
          (List.filter (status_is "reading") l)
          (List.filter (status_is "up-next") l)
          (List.filter (status_is "wishlist") l)
          (List.filter (status_is "on-hold") l)
          (List.filter (fun b => status_is "finished" b
                                 && negb (is_favorite b)) l)).
Proof.
  intros Hl.
  assert (Hpure : forall (f : JSValue -> Result bool) (g : JSValue -> bool),
             (forall b, loose_eq_null b = false -> f b = Ok (g b)) ->
             filterM f l = Ok (List.filter g l)).
  { intros f g Hfg. apply filterM_pure.
    eapply List.Forall_impl; [|exact Hl]. exact Hfg. }
  unfold renderAll_buckets.
  rewrite (Hpure _ _ is_top_pick_field), (Hpure _ _ is_plain_finished_field),
    !(Hpure _ _ (has_status_field _)).
  reflexivity.
Qed.

(** C1.  Every book of the filtered list whose status is one of the five
    statuses and whose favorite flag is a boolean satisfies exactly one of
    the six predicates of [renderAll], which on such a book are the six
    tests of the data model.  Each of the six lists that [renderAll]
    filters out holds the books that the test of its section accepts, in
    the order of the filtered list, and no others; so the six lists are
    together a rearrangement of the filtered list: each book lands in one
    section and one only. *)
Theorem bucket_partition (filtered : list JSValue)
    (Hbooks : Forall (fun b => status_in_enum b && favorite_is_boolean b = true)
                filtered) :
  Forall (fun b => mapM (fun p => p b) bucket_predicates
                   = Ok (map (fun t => t b) section_tests)
                   /\ count_true (map (fun t => t b) section_tests) = 1%nat)
    filtered
  /\ exists B, renderAll_buckets filtered = Ok B
               /\ sections B
                  = map (fun t => List.filter t filtered) section_tests
               /\ Permutation filtered (all_buckets B).
Proof.
  split.
  - eapply List.Forall_impl; [|exact Hbooks]. intros b Hb.
    apply andb_true_iff in Hb as [Hs Hf].
    split; [|now apply one_test].
    apply predicates_are_tests. now apply status_in_enum_not_null.
  - assert (E : exists B, renderAll_buckets filtered = Ok B
                          /\ Permutation filtered (all_buckets B)).
    { induction Hbooks as [|b l Hb _ (B & HB & HP)].
      + exists (mkBuckets [] [] [] [] [] []). split; [reflexivity|constructor].
      + apply andb_true_iff in Hb as [Hs Hf].
        destruct (one_bucket b l B Hs Hf HB) as (B' & HB' & HP').
        exists B'. split; [exact HB'|].
        eapply Permutation_trans; [|exact HP']. now constructor. }
    destruct E as (B & HB & HP). exists B. split; [exact HB|].
    split; [|exact HP].
    rewrite sections_are_filters in HB.
    + now injection HB as <-.
    + eapply List.Forall_impl; [|exact Hbooks]. intros b Hb.
      apply andb_true_iff in Hb as [Hs _]. now apply status_in_enum_not_null.
Qed.

(** ** The filter *)

Lemma filter_callback_spec cfg b :
  filterable cfg b = true ->
  filter_callback (query_of cfg) cfg b = Ok (spec_filter cfg b).
Proof.
  unfold filterable. rewrite andb_true_iff, negb_true_iff. intros [Hb Hq].
  unfold filter_callback, spec_filter, matches_query, exact_match, rating_match,
    text_key.
  rewrite !(get_prop_field b) by exact Hb.
  destruct (nonempty (query_of cfg)) eqn:Eq; simpl in Hq |- *.
  - apply andb_true_iff in Hq as [Ht Ha].
    destruct (field b "title") as [| | | |t| |]; try discriminate Ht.
    destruct (field b "author") as [| | | |a| |]; try discriminate Ha.
    simpl.
    destruct (includes (toLowerCase t) (query_of cfg)); simpl;
      [|destruct (includes (toLowerCase a) (query_of cfg)); simpl; [|reflexivity]].
    all: destruct (nonempty (genre cfg)); simpl;
      [destruct (strict_eq_str (field b "genre") (genre cfg)); simpl; [|reflexivity]|].
    all: destruct (nonempty (status cfg)); simpl;
      [destruct (strict_eq_str (field b "status") (status cfg)); simpl; [|reflexivity]|].
    all: destruct (nonempty (format cfg)); simpl;
      [destruct (strict_eq_str (field b "format") (format cfg)); simpl; [|reflexivity]|].
    all: unfold nonempty; destruct (String.eqb (rating cfg) EmptyString) eqn:E1;
      destruct (String.eqb (rating cfg) "none") eqn:E2; simpl;
      try (apply String.eqb_eq in E1; apply String.eqb_eq in E2; congruence).
    all: try reflexivity.
    all: try (destruct (loose_eq_null (field b "rating")); reflexivity).
    all: unfold strict_eq_num; destruct (field b "rating"), (parseInt (rating cfg));
      simpl; try reflexivity; destruct (_ =? _); reflexivity.
  - destruct (nonempty (genre cfg)); simpl;
      [destruct (strict_eq_str (field b "genre") (genre cfg)); simpl; [|reflexivity]|].
    all: destruct (nonempty (status cfg)); simpl;
      [destruct (strict_eq_str (field b "status") (status cfg)); simpl; [|reflexivity]|].
    all: destruct (nonempty (format cfg)); simpl;
      [destruct (strict_eq_str (field b "format") (format cfg)); simpl; [|reflexivity]|].
    all: unfold nonempty; destruct (String.eqb (rating cfg) EmptyString) eqn:E1;
      destruct (String.eqb (rating cfg) "none") eqn:E2; simpl;
      try (apply String.eqb_eq in E1; apply String.eqb_eq in E2; congruence).
    all: try reflexivity.
    all: try (destruct (loose_eq_null (field b "rating")); reflexivity).
    all: unfold strict_eq_num; destruct (field b "rating"), (parseInt (rating cfg));
      simpl; try reflexivity; destruct (_ =? _); reflexivity.
Qed.

Lemma filter_step_spec cfg books :
  Forall (fun b => filterable cfg b = true) books ->
  filterM (filter_callback (query_of cfg) cfg) books
  = Ok (List.filter (spec_filter cfg) books).
Proof.
  intros H. apply filterM_pure. eapply List.Forall_impl; [|exact H].
  intros b. apply filter_callback_spec.
Qed.

(** ** The sort keys are consistent orders *)

Section Order.
Context `{Collation}.

Lemma Zc_antisym a b :
  0 < Z_of_comparison (localeCompare a b)
  <-> Z_of_comparison (localeCompare b a) < 0.
Proof.
  rewrite (localeCompare_antisym a b).
  destruct (localeCompare b a); simpl; lia.
Qed.

Lemma Zc_le a b :
  Z_of_comparison (localeCompare a b) <= 0 <-> localeCompare a b <> Gt.
Proof. destruct (localeCompare a b); simpl; split; (congruence || lia). Qed.

Lemma Zc_trans a b d :
  Z_of_comparison (localeCompare a b) <= 0 ->
  Z_of_comparison (localeCompare b d) <= 0 ->
  Z_of_comparison (localeCompare a d) <= 0.
Proof. rewrite !Zc_le. apply localeCompare_trans. Qed.

Lemma sort_order_antisym sortBy a b :
  0 < sort_order sortBy a b <-> sort_order sortBy b a < 0.
Proof.
  unfold sort_order.
  repeat match goal with |- context [if ?c then _ else _] => destruct c end;
    try apply Zc_antisym; lia.
Qed.

Lemma sort_order_trans sortBy a b d :
  sort_order sortBy a b <= 0 -> sort_order sortBy b d <= 0 ->
  sort_order sortBy a d <= 0.
Proof.
  unfold sort_order.
  repeat match goal with |- context [if ?c then _ else _] => destruct c end;
    try apply Zc_trans; try lia.
  intros H1 H2. exact (Zc_trans _ _ _ H2 H1).
Qed.

Lemma sort_callback_order sortBy a b :
  sortable a = true -> sortable b = true ->
  sort_callback sortBy a b = Ok (Some (sort_order sortBy a b)).
Proof.
  unfold sortable. rewrite !andb_true_iff, !negb_true_iff.
  intros [[[[[Ha Hta] Haa] Hra] Hya] Hda] [[[[[Hb Htb] Hab] Hrb] Hyb] Hdb].
  unfold sort_callback, sort_order, text_key, number_key.
  rewrite !(get_prop_field a), !(get_prop_field b) by assumption.
  destruct (String.eqb sortBy "title").
  { destruct (field a "title"), (field b "title"); try discriminate. reflexivity. }
  destruct (String.eqb sortBy "author").
  { destruct (field a "author"), (field b "author"); try discriminate. reflexivity. }
  destruct (String.eqb sortBy "rating").
  { destruct (field a "rating") as [| | |n| | |], (field b "rating") as [| | |m| | |];
      try discriminate; simpl; unfold js_or; simpl;
      try destruct (Z.eqb_spec n 0); try destruct (Z.eqb_spec m 0); subst;
      simpl; repeat f_equal; lia. }
  destruct (String.eqb sortBy "yearPublished").
  { destruct (field a "yearPublished") as [| | |n| | |],
      (field b "yearPublished") as [| | |m| | |];
      try discriminate; simpl; unfold js_or; simpl;
      try destruct (Z.eqb_spec n 0); try destruct (Z.eqb_spec m 0); subst;
      simpl; repeat f_equal; lia. }
  destruct (field a "dateAdded") as [| | | |s| |], (field b "dateAdded") as [| | | |t| |];
    try discriminate; simpl; unfold js_or; simpl; try reflexivity.
  all: try (destruct (String.eqb_spec s EmptyString); subst; reflexivity).
  all: try (destruct (String.eqb_spec t EmptyString); subst; reflexivity).
  destruct (String.eqb_spec s EmptyString), (String.eqb_spec t EmptyString);
    subst; reflexivity.
Qed.

Lemma ties_order sortBy z y :
  sortable z = true -> sortable y = true ->
  ties sortBy z y = tie (sort_order sortBy) z y.
Proof.
  intros Hz Hy. unfold ties, tie. now rewrite sort_callback_order.
Qed.

Lemma sortable_sort sortBy l :
  Forall (fun b => sortable b = true) l ->
  exists out,
    array_sort (sort_callback sortBy) l = Ok out
    /\ Permutation l out
    /\ StronglySorted (fun a b => sort_order sortBy a b <= 0) out
    /\ forall z, sortable z = true ->
         List.filter (ties sortBy z) out = List.filter (ties sortBy z) l.
Proof.
  intros Hl. rewrite List.Forall_forall in Hl.
  destruct (sort_spec (sort_callback sortBy) (sort_order sortBy)
              (sort_order_antisym sortBy) (sort_order_trans sortBy) l)
    as (out & E & Hperm & Hsorted & Hstable).
  { intros a b Ha Hb. apply sort_callback_order; auto. }
  exists out. repeat split; try assumption.
  intros z Hz.
  rewrite (filter_ext_in (ties sortBy z) (tie (sort_order sortBy) z) out).
  - rewrite (filter_ext_in (ties sortBy z) (tie (sort_order sortBy) z) l).
    + apply Hstable.
    + intros y Hy. apply ties_order; auto.
  - intros y Hy. apply ties_order; [exact Hz|].
    apply Hl. apply Permutation_sym in Hperm. exact (Permutation_in _ Hperm Hy).
Qed.
End Order.

(** ** Filtering and sorting in [getFilteredBooks] *)






Lemma filter_filter_sub {A} (P Q : A -> bool) l :
  (forall x, P x = true -> Q x = true) ->
  List.filter P (List.filter Q l) = List.filter P l.
Proof.
  intros H. induction l as [|x l IH]; simpl; [reflexivity|].
  destruct (Q x) eqn:EQ; simpl; rewrite IH; [reflexivity|].
  destruct (P x) eqn:EP; [|reflexivity]. rewrite (H x EP) in EQ. discriminate.
Qed.

Lemma getFilteredBooks_unfold `{Collation} cfg books :
  Forall (fun b => filterable cfg b = true) books ->
  getFilteredBooks cfg books
  = array_sort (sort_callback (sort_key cfg)) (List.filter (spec_filter cfg) books).
Proof.
  intros Hb. unfold getFilteredBooks. fold (query_of cfg).
  now rewrite filter_step_spec.
Qed.

(** C7.  The filter step of [getFilteredBooks] keeps exactly the books
    that satisfy every active predicate: the lowered query occurs in the
    lowered title or author; genre, status and format are equal to the
    chosen ones; the rating matches, where [none] selects the books
    without a rating and a number the books with that very rating.  The
    result is the sort of those books.  With only the rating filter set to
    [none], the list of a book rated [null] and a book rated 3 gives the
    first book alone. *)
Theorem filter_is_conjunction `{Collation} (cfg : FilterConfig)
    (books : list JSValue)
    (Hbooks : Forall (fun b => filterable cfg b = true) books) :
  filterM (filter_callback (query_of cfg) cfg) books
    = Ok (List.filter (spec_filter cfg) books)
  /\ getFilteredBooks cfg books
     = array_sort (sort_callback (sort_key cfg))
         (List.filter (spec_filter cfg) books)
  /\ (Forall (fun b => sortable b = true) books ->
      exists out, getFilteredBooks cfg books = Ok out
        /\ forall b, In b out <-> In b books /\ spec_filter cfg b = true)
  /\ getFilteredBooks only_unrated [unrated_book; three_star_book]
     = Ok [unrated_book].
Proof.
  split; [now apply filter_step_spec|].
  split; [now apply getFilteredBooks_unfold|].
  split; [|reflexivity].
  intros Hs. rewrite getFilteredBooks_unfold by exact Hbooks.
  destruct (sortable_sort (sort_key cfg) (List.filter (spec_filter cfg) books))
    as (out & E & Hperm & _).
  { rewrite List.Forall_forall in Hs |- *. intros b Hb.
    apply filter_In in Hb as [Hb _]. auto. }
  exists out. split; [exact E|]. intros b. rewrite <- filter_In. split.
  - apply Permutation_in. now apply Permutation_sym.
  - now apply Permutation_in.
Qed.

Lemma filter_is_conjunction_witness :
  Forall (fun b => filterable only_unrated b = true) [unrated_book; three_star_book]
  /\ filterM (filter_callback (query_of only_unrated) only_unrated)
       [unrated_book; three_star_book]
     = Ok (List.filter (spec_filter only_unrated) [unrated_book; three_star_book]).
Proof.
  assert (H : Forall (fun b => filterable only_unrated b = true)
                [unrated_book; three_star_book])
    by (repeat constructor).
  split; [exact H|].
  exact (proj1 (@filter_is_conjunction code_unit_collation only_unrated _ H)).
Defined.






(** ** Failed imports, and [loadBooks] *)

Lemma parse_empty : JSON.parse EmptyString = Throw SyntaxError.
Proof. reflexivity. Qed.

Lemma import_source_text f :
  import_source f = Some (import_text f)
  \/ (import_source f = None /\ import_text f = EmptyString).
Proof.
  unfold import_source, import_text, nonempty.
  destruct (importFile f); [now left|].
  destruct (String.eqb_spec (trim (importTextarea f)) EmptyString) as [->|]; simpl; auto.
Qed.

(** C9.  When the submitted text is not valid JSON ([JSON.parse] throws),
    or parses to something that is not an array, [doImport] completes, the
    only change to the state is one more notification, and neither the
    collection nor [localStorage] changes. *)
Theorem import_failure_changes_nothing (redraw : State -> option Exn)
    (f : ImportForm) (st : State)
    (Hfail : (exists e, JSON.parse (import_text f) = Throw e)
             \/ (exists v, JSON.parse (import_text f) = Ok v /\ isArray v = false)) :
  exists msg,
    doImport redraw f st = Done tt (notify msg st)
    /\ In msg ["No data to import";
               "Import failed — invalid JSON";
               "Invalid format — expected an array of books"].
Proof.
  unfold doImport, try_, bind.
  destruct (import_source_text f) as [->|[-> Hempty]].
  - destruct Hfail as [[e He]|(v & Hv & Harr)].
    + rewrite He. simpl. eexists. split; [reflexivity|]. simpl. auto.
    + rewrite Hv. simpl. destruct v; try discriminate Harr;
        (eexists; split; [reflexivity|simpl; auto]).
  - simpl. eexists. split; [reflexivity|]. simpl. auto.
Qed.

Lemma import_failure_changes_nothing_witness :
  ((exists e, JSON.parse (import_text (mkImport None "{not json" false)) = Throw e)
   \/ (exists v, JSON.parse (import_text (mkImport None "{not json" false)) = Ok v
                 /\ isArray v = false))
  /\ exists msg,
       doImport (fun _ => None) (mkImport None "{not json" false) (mkState [] ∅ [])
       = Done tt (notify msg (mkState [] ∅ [])).
Proof.
  assert (H : (exists e, JSON.parse (import_text (mkImport None "{not json" false)) = Throw e)
   \/ (exists v, JSON.parse (import_text (mkImport None "{not json" false)) = Ok v
                 /\ isArray v = false)).
  { left. exists SyntaxError. reflexivity. }
  split; [exact H|].
  destruct (import_failure_changes_nothing (fun _ => None) _ (mkState [] ∅ []) H)
    as (msg & E & _).
  exists msg. exact E.
Defined.

(** loadBooks *)
Lemma loadBooks_cases (st : State) :
  match stored_books st with
  | None => loadBooks st = Done (JArr []) st
  | Some t =>
      if String.eqb t EmptyString then loadBooks st = Done (JArr []) st
      else match JSON.parse t with
           | Ok v => loadBooks st = Done v st
           | Throw _ => loadBooks st = Done (JArr []) st
           | Beyond => loadBooks st = Unmodelled
           end
  end.
Proof.
  unfold loadBooks, try_, bind, getItem, stored_books.
  destruct (localStorage st !! STORAGE_KEY) as [t|]; [|reflexivity].
  destruct (String.eqb t EmptyString); [reflexivity|].
  destruct (JSON.parse t); reflexivity.
Qed.

Lemma stored_with t : stored_books (with_stored_books t) = Some t.
Proof. apply lookup_singleton_eq. Qed.

(** C10, as amended.  [loadBooks] returns the empty array when the
    stored record is absent, empty, or fails to parse, and otherwise the
    parsed value as it is, without looking at its shape: the stored text
    [null] gives [null] and [5] gives 5.  It returns the empty array
    exactly when the record is absent, empty, fails to parse, or parses to
    the empty array. *)
Theorem loadBooks_returns_parsed_value (st : State) :
  (falls_back st -> loadBooks st = Done (JArr []) st)
  /\ (forall t v, stored_books st = Some t -> t <> EmptyString ->
        JSON.parse t = Ok v -> loadBooks st = Done v st)
  /\ (loadBooks st = Done (JArr []) st
      <-> falls_back st
          \/ exists t, stored_books st = Some t /\ JSON.parse t = Ok (JArr []))
  /\ (stored_books st = Some "null" -> loadBooks st = Done JNull st)
  /\ (stored_books st = Some "5" -> loadBooks st = Done (JNum 5) st).
Proof.
  pose proof (loadBooks_cases st) as H. unfold falls_back.
  destruct (stored_books st) as [t|] eqn:Es.
  - destruct (String.eqb_spec t EmptyString) as [->|Hne].
    + repeat split; try (intros; assumption); try discriminate.
      * intros t v [= <-] Hne. congruence.
      * intros _. left. right. left. reflexivity.
    + destruct (JSON.parse t) as [v|e|] eqn:Ep.
      * repeat split.
        -- intros [Hn|[[= He]|(t' & e & [= <-] & Hp)]]; congruence.
        -- intros t' v' [= <-] _ Hp. congruence.
        -- intros Hl. right. exists t. split; [reflexivity|]. congruence.
        -- intros [[Hn|[[= He]|(t' & e & [= <-] & Hp)]]|(t' & [= <-] & Hp)]; congruence.
        -- intros [= ->]. vm_compute in Ep. injection Ep as <-. exact H.
        -- intros [= ->]. vm_compute in Ep. injection Ep as <-. exact H.
      * repeat split.
        -- intros _. exact H.
        -- intros t' v' [= <-] _ Hp. congruence.
        -- intros _. left. right. right. eauto.
        -- intros _. exact H.
        -- intros [= ->]. discriminate Ep.
        -- intros [= ->]. discriminate Ep.
      * repeat split.
        -- intros [Hn|[[= He]|(t' & e & [= <-] & Hp)]]; congruence.
        -- intros t' v' [= <-] _ Hp. congruence.
        -- intros Hl. congruence.
        -- intros [[Hn|[[= He]|(t' & e & [= <-] & Hp)]]|(t' & [= <-] & Hp)]; congruence.
        -- intros [= ->]. discriminate Ep.
        -- intros [= ->]. discriminate Ep.
  - repeat split; try (intros; assumption); try discriminate.
    intros _. left. left. reflexivity.
Qed.

Lemma loadBooks_returns_parsed_value_witness :
  stored_books (with_stored_books "null") = Some "null"
  /\ loadBooks (with_stored_books "null") = Done JNull (with_stored_books "null").
Proof.
  assert (H : stored_books (with_stored_books "null") = Some "null")
    by apply stored_with.
  split; [exact H|].
  exact (proj1 (proj2 (proj2 (proj2
           (loadBooks_returns_parsed_value (with_stored_books "null"))))) H).
Defined.

(** The claim as worded fails on the record that [saveBooks] writes for an
    empty collection. *)
Lemma loadBooks_empty_array_without_fallback :
  ~ (loadBooks (with_stored_books "[]") = Done (JArr []) (with_stored_books "[]")
     <-> falls_back (with_stored_books "[]")).
Proof.
  intros [Hto _].
  assert (Hload : loadBooks (with_stored_books "[]")
                  = Done (JArr []) (with_stored_books "[]")).
  { pose proof (loadBooks_cases (with_stored_books "[]")) as H.
    rewrite stored_with in H. exact H. }
  destruct (Hto Hload) as [Hn|[He|(t & e & Ht & Hp)]];
    rewrite stored_with in *; try discriminate.
  injection Ht as <-. discriminate Hp.
Qed.

(** ** What each handler leaves behind *)

Lemma findIndex_found id l i :
  findIndex id l = Ok (Some i) ->
  exists o, nth_error l i = Some (JObj o)
            /\ nth i l JUndefined = JObj o
            /\ obj_get o "id" = Some (JStr id).
Proof.
  revert i. induction l as [|b l IH]; intros i H; simpl in H; [discriminate|].
  destruct (get_prop b "id") as [v| |] eqn:Eg; simpl in H; try discriminate.
  destruct (strict_eq_str v id) eqn:Ev.
  - injection H as <-. simpl.
    destruct v; try discriminate Ev. apply String.eqb_eq in Ev as ->.
    destruct b as [| | | |s|a|o]; try discriminate Eg.
    exists o. repeat split. simpl in Eg. destruct (obj_get o "id"); congruence.
  - destruct (findIndex id l) as [[j|]| |]; simpl in H; try discriminate.
    injection H as <-. destruct (IH j eq_refl) as (o & H1 & H2 & H3).
    exists o. simpl. auto.
Qed.

Section Runs.
Variable redraw : State -> option Exn.

Lemma saveBooks_refresh_toast l msg st :
  (set_books l ;;; saveBooks ;;; refresh redraw ;;; showToast msg) st
  = after_refresh redraw msg (saved l st).
Proof.
  unfold bind, set_books, saveBooks, get_books, setItem, refresh, showToast,
    after_refresh, saved, notify. simpl.
  destruct (redraw _); reflexivity.
Qed.

Lemma changeStatus_run id value st i o :
  findIndex id (books st) = Ok (Some i) ->
  nth i (books st) JUndefined = JObj o ->
  changeStatus redraw id value st
  = after_refresh redraw ("Moved to " ++ status_label value)
      (saved (set_nth (books st) i (JObj (obj_set o "status" (JStr value)))) st).
Proof.
  intros Hf Hn. unfold changeStatus.
  unfold bind at 1. unfold get_books.
  unfold bind at 1. unfold lift. rewrite Hf.
  unfold bind at 1. rewrite Hn. simpl set_prop. cbv iota beta.
  apply saveBooks_refresh_toast.
Qed.

Lemma changeStatus_absent id value st :
  findIndex id (books st) = Ok None ->
  changeStatus redraw id value st = Done tt st.
Proof.
  intros Hf. unfold changeStatus, bind, get_books, lift. now rewrite Hf.
Qed.

Lemma deleteBook_run id st i kept :
  findIndex id (books st) = Ok (Some i) ->
  filterM (keeps_other id) (books st) = Ok kept ->
  deleteBook redraw id st = after_refresh redraw "Book deleted" (saved kept st).
Proof.
  intros Hf Hk. unfold deleteBook.
  unfold bind at 1. unfold get_books.
  unfold bind at 1. unfold lift. rewrite Hf.
  unfold bind at 1. fold (keeps_other id). rewrite Hk.
  apply saveBooks_refresh_toast.
Qed.

Lemma handleFormSubmit_add f newId today st :
  formBookId f = EmptyString ->
  handleFormSubmit redraw f newId today st
  = after_refresh redraw "Book added"
      (saved (books st ++ [bookData f newId (JStr today)]) st).
Proof.
  intros Hid. unfold handleFormSubmit. rewrite Hid. simpl nonempty. cbv iota.
  unfold bind at 1. unfold get_books.
  unfold bind at 1. unfold ret.
  rewrite <- saveBooks_refresh_toast. reflexivity.
Qed.

Lemma handleFormSubmit_edit f newId today st i original :
  nonempty (formBookId f) = true ->
  findIndex (formBookId f) (books st) = Ok (Some i) ->
  nth_error (books st) i = Some original ->
  handleFormSubmit redraw f newId today st
  = after_refresh redraw "Book updated"
      (saved (set_nth (books st) i
                (bookData f (formBookId f)
                   (js_or (field original "dateAdded") (JStr today)))) st).
Proof.
  intros Hid Hf Hn.
  destruct (findIndex_found _ _ _ Hf) as (o & Hn' & _ & _).
  rewrite Hn in Hn'. injection Hn' as ->.
  unfold handleFormSubmit. rewrite Hid.
  cbv beta iota zeta delta
    [bind get_books lift find ret saveBooks setItem refresh showToast
     after_refresh saved notify set_books].
  rewrite Hf. simpl rbind. rewrite Hn. simpl get_prop.
  unfold field. simpl get_prop.
  cbv beta iota zeta delta [books localStorage toasts].
  destruct (redraw _); reflexivity.
Qed.

Lemma handleFormSubmit_edit_absent f newId today st :
  nonempty (formBookId f) = true ->
  findIndex (formBookId f) (books st) = Ok None ->
  handleFormSubmit redraw f newId today st
  = after_refresh redraw "Book updated" (saved (books st) st).
Proof.
  intros Hid Hf. unfold handleFormSubmit. rewrite Hid. cbv iota.
  cbv beta iota zeta delta
    [bind get_books lift find ret saveBooks setItem refresh showToast
     after_refresh saved notify set_books].
  rewrite Hf. simpl rbind.
  cbv beta iota zeta delta [books localStorage toasts].
  destruct st as [l ls ts]. destruct (redraw _); reflexivity.
Qed.
End Runs.

(** ** Import *)

Lemma import_source_parsed f v :
  JSON.parse (import_text f) = Ok v -> import_source f = Some (import_text f).
Proof.
  intros Hp. destruct (import_source_text f) as [H|[_ He]]; [exact H|].
  rewrite He in Hp. discriminate Hp.
Qed.

Section ImportRuns.
Variable redraw : State -> option Exn.

Lemma after_refresh_caught msg l st :
  exists m,
    try_ (set_books l ;;; saveBooks ;;; refresh redraw ;;; showToast msg)
         (fun _ => showToast import_failed) st
    = Done tt (notify m (saved l st))
    /\ (m = msg \/ m = import_failed).
Proof.
  unfold try_. rewrite saveBooks_refresh_toast. unfold after_refresh.
  destruct (redraw (saved l st)); eexists; split; try reflexivity; auto.
Qed.

Lemma doImport_replace f st items :
  JSON.parse (import_text f) = Ok (JArr items) ->
  importReplace f = true ->
  exists m,
    doImport redraw f st = Done tt (notify m (saved items st))
    /\ (m = import_done items \/ m = import_failed).
Proof.
  intros Hp Hr. unfold doImport. rewrite (import_source_parsed _ _ Hp).
  destruct (after_refresh_caught (import_done items) items st) as (m & E & Hm).
  exists m. split; [|exact Hm]. rewrite <- E.
  unfold try_, bind, lift. rewrite Hp, Hr. reflexivity.
Qed.

Lemma doImport_merge f st items merged :
  JSON.parse (import_text f) = Ok (JArr items) ->
  importReplace f = false ->
  merge (books st) items = Ok merged ->
  exists m,
    doImport redraw f st = Done tt (notify m (saved merged st))
    /\ (m = import_done items \/ m = import_failed).
Proof.
  intros Hp Hr Hm. unfold doImport. rewrite (import_source_parsed _ _ Hp).
  destruct (after_refresh_caught (import_done items) merged st) as (m & E & Hmsg).
  exists m. split; [|exact Hmsg]. rewrite <- E.
  unfold try_, bind, lift, get_books. rewrite Hp, Hr, Hm. reflexivity.
Qed.

Lemma doImport_merge_throws f st items e :
  JSON.parse (import_text f) = Ok (JArr items) ->
  importReplace f = false ->
  merge (books st) items = Throw e ->
  doImport redraw f st = Done tt (notify import_failed st).
Proof.
  intros Hp Hr Hm. unfold doImport. rewrite (import_source_parsed _ _ Hp).
  unfold try_, bind, lift, get_books. rewrite Hp, Hr, Hm. reflexivity.
Qed.
End ImportRuns.

Lemma get_prop_total b k : get_prop b k <> Beyond.
Proof.
  destruct b; simpl; try discriminate;
    destruct (String.eqb k "length"); try discriminate;
    destruct (N_of_numeral k); discriminate.
Qed.

Lemma mapM_get_prop_total l k : mapM (fun b => get_prop b k) l <> Beyond.
Proof.
  induction l as [|b l IH]; simpl; [discriminate|].
  pose proof (get_prop_total b k).
  destruct (get_prop b k); simpl; try congruence.
  destruct (mapM _ l); simpl; congruence.
Qed.

Lemma merge_total l items : merge l items <> Beyond.
Proof.
  unfold merge. destruct (mapM (fun b => get_prop b "id") l) as [ids| |] eqn:E; simpl.
  - assert (H : forall items, filterM (fun b => i <- get_prop b "id" ;; Ok (negb (set_has ids i))) items <> Beyond).
    { clear. induction items as [|b items IH]; simpl; [discriminate|].
      pose proof (get_prop_total b "id").
      destruct (get_prop b "id"); simpl; try congruence.
      destruct (filterM _ items); simpl; congruence. }
    specialize (H items). destruct (filterM _ items); simpl; congruence.
  - discriminate.
  - exfalso. exact (mapM_get_prop_total _ _ E).
Qed.

Lemma merge_spec l items merged :
  merge l items = Ok merged ->
  exists ids added,
    mapM (fun b => get_prop b "id") l = Ok ids
    /\ merged = (l ++ added)%list
    /\ incl added items
    /\ forall x, In x added ->
         exists i, get_prop x "id" = Ok i /\ set_has ids i = false.
Proof.
  unfold merge. destruct (mapM (fun b => get_prop b "id") l) as [ids| |]; simpl; try discriminate.
  destruct (filterM _ items) as [added| |] eqn:E; simpl; try discriminate.
  intros [= <-]. exists ids, added. repeat split.
  - clear -E. revert added E. induction items as [|b items IH]; simpl; intros added E.
    + injection E as <-. intros x [].
    + destruct (get_prop b "id"); simpl in E; try discriminate.
      destruct (filterM _ items) as [ys| |]; simpl in E; try discriminate.
      injection E as <-. specialize (IH ys eq_refl).
      destruct (negb _); intros x Hx.
      * destruct Hx as [<-|Hx]; [now left|right; auto].
      * right. auto.
  - clear -E. revert added E. induction items as [|b items IH]; simpl; intros added E.
    + injection E as <-. intros x [].
    + destruct (get_prop b "id") as [i| |] eqn:Eg; simpl in E; try discriminate.
      destruct (filterM _ items) as [ys| |]; simpl in E; try discriminate.
      injection E as <-. specialize (IH ys eq_refl).
      destruct (set_has ids i) eqn:Eh; simpl; intros x Hx; [auto|].
      destruct Hx as [<-|Hx]; [eauto|auto].
Qed.

Lemma mapM_in {A B} (f : A -> Result B) l ys x :
  mapM f l = Ok ys -> In x l -> exists y, f x = Ok y /\ In y ys.
Proof.
  revert ys. induction l as [|a l IH]; simpl; intros ys E Hx; [contradiction|].
  destruct (f a) as [y| |] eqn:Ea; simpl in E; try discriminate.
  destruct (mapM f l) as [ys'| |]; simpl in E; try discriminate.
  injection E as <-. destruct Hx as [<-|Hx].
  - exists y. split; [exact Ea|now left].
  - destruct (IH ys' eq_refl Hx) as (y' & H1 & H2). exists y'. split; [exact H1|now right].
Qed.

Lemma same_value_zero_refl i : is_primitive i = true -> same_value_zero i i = true.
Proof.
  destruct i; simpl; try discriminate; intros _; try reflexivity.
  - now destruct b.
  - apply Z.eqb_refl.
  - apply String.eqb_refl.
Qed.

Lemma stored_saved l st : stored_books (saved l st) = Some (JSON.stringify (JArr l)).
Proof. unfold stored_books, saved. simpl. apply lookup_insert_eq. Qed.

Lemma stored_notify m st : stored_books (notify m st) = stored_books st.
Proof. reflexivity. Qed.

(** C3.  An import that parses to an array always completes.  In merge
    mode the collection becomes the old collection followed by books of
    the imported array; none of the added books has a primitive id that an
    existing book has, so an imported book with an existing id is skipped
    and the existing entry stays as it was; when the merge itself does not
    throw, the merged collection is also what is stored.  In replace mode
    with the empty array the collection is empty and the stored record is
    the text of the empty array. *)
Theorem import_merge_skips_and_replace_empties (redraw : State -> option Exn)
    (f : ImportForm) (st : State) (items : list JSValue)
    (Hparse : JSON.parse (import_text f) = Ok (JArr items)) :
  exists st',
    doImport redraw f st = Done tt st'
    /\ (importReplace f = false ->
        exists added,
          books st' = (books st ++ added)%list
          /\ incl added items
          /\ (forall merged, merge (books st) items = Ok merged ->
                books st' = merged
                /\ stored_books st' = Some (JSON.stringify (JArr merged)))
          /\ forall x e i,
               In x added -> In e (books st) ->
               get_prop e "id" = Ok i -> is_primitive i = true ->
               get_prop x "id" <> Ok i)
    /\ (importReplace f = true -> items = [] ->
        books st' = [] /\ stored_books st' = Some "[]").
Proof.
  destruct (importReplace f) eqn:Hr.
  - destruct (doImport_replace redraw f st items Hparse Hr) as (m & E & _).
    exists (notify m (saved items st)). split; [exact E|]. split; [discriminate|].
    intros _ ->. split; [reflexivity|]. rewrite stored_notify. apply stored_saved.
  - destruct (merge (books st) items) as [merged|e|] eqn:Em.
    + destruct (doImport_merge redraw f st items merged Hparse Hr Em) as (m & E & _).
      exists (notify m (saved merged st)). split; [exact E|].
      split; [|discriminate]. intros _.
      destruct (merge_spec _ _ _ Em) as (ids & added & Hids & -> & Hincl & Hadded).
      exists added. split; [reflexivity|]. split; [exact Hincl|]. split.
      * intros merged' [= <-]. split; [reflexivity|].
        rewrite stored_notify. apply stored_saved.
      * intros x e i Hx He Hei Hprim Hxi.
        destruct (Hadded x Hx) as (i' & Hxi' & Hhas).
        rewrite Hxi in Hxi'. injection Hxi' as <-.
        destruct (mapM_in _ _ _ e Hids He) as (y & Hy & Hin).
        rewrite Hei in Hy. injection Hy as <-.
        assert (set_has ids i = true); [|congruence].
        unfold set_has. apply existsb_exists. exists i.
        split; [exact Hin|now apply same_value_zero_refl].
    + pose proof (doImport_merge_throws redraw f st items e Hparse Hr Em) as E.
      exists (notify import_failed st). split; [exact E|].
      split; [|discriminate]. intros _. exists [].
      split; [simpl; now rewrite app_nil_r|].
      split; [intros x []|]. split; [discriminate|].
      intros x e' i [].
    + exfalso. exact (merge_total _ _ Em).
Qed.

(** ** The creation date *)

Lemma obj_get_set_same (o : Object) k v : obj_get (obj_set o k v) k = Some v.
Proof.
  induction o as [|[k' v'] o IH]; simpl.
  - now rewrite String.eqb_refl.
  - destruct (String.eqb_spec k' k) as [->|Hne]; simpl.
    + now rewrite String.eqb_refl.
    + destruct (String.eqb_spec k' k); [contradiction|exact IH].
Qed.

Lemma obj_get_set_other (o : Object) k v k' :
  k' <> k -> obj_get (obj_set o k v) k' = obj_get o k'.
Proof.
  intros Hne. induction o as [|[k0 v0] o IH]; simpl.
  - destruct (String.eqb_spec k k'); [congruence|reflexivity].
  - destruct (String.eqb_spec k0 k) as [->|Hk]; simpl.
    + destruct (String.eqb_spec k k'); [congruence|reflexivity].
    + destruct (String.eqb_spec k0 k'); [reflexivity|exact IH].
Qed.

Lemma nth_error_set_nth_same l i x original :
  nth_error l i = Some original -> nth_error (set_nth l i x) i = Some x.
Proof.
  revert i. induction l as [|y l IH]; intros [|i] H; simpl in *; try discriminate; auto.
Qed.

Lemma nth_error_set_nth_other l i j x :
  j <> i -> nth_error (set_nth l i x) j = nth_error l j.
Proof.
  revert i j. induction l as [|y l IH]; intros [|i] [|j] H; simpl; auto; congruence.
Qed.

Lemma final_after_refresh redraw msg st :
  exists st', final (after_refresh redraw msg st) = Some st'
              /\ books st' = books st
              /\ localStorage st' = localStorage st.
Proof.
  unfold after_refresh. destruct (redraw st); eexists; simpl; eauto.
Qed.

(** C8, as amended.  For a book found under a non-empty id: an edit
    replaces it, at its position, by a book with the same id whose
    [dateAdded] is the original one when that is set (truthy) and the
    current date otherwise; a status change replaces it by a book that
    differs in [status] only.  No other book changes. *)
Theorem dateAdded_kept_when_set (redraw : State -> option Exn) (st : State)
    (id : string) (i : nat) (original : JSValue)
    (Hid : id <> EmptyString)
    (Hfound : findIndex id (books st) = Ok (Some i))
    (Horiginal : nth_error (books st) i = Some original) :
  (forall f newId today, formBookId f = id ->
     exists st' replacement,
       final (handleFormSubmit redraw f newId today st) = Some st'
       /\ nth_error (books st') i = Some replacement
       /\ (forall j, j <> i -> nth_error (books st') j = nth_error (books st) j)
       /\ field replacement "id" = JStr id
       /\ field replacement "dateAdded"
          = if truthy (field original "dateAdded")
            then field original "dateAdded" else JStr today)
  /\ (forall value,
     exists st' changed,
       final (changeStatus redraw id value st) = Some st'
       /\ nth_error (books st') i = Some changed
       /\ (forall j, j <> i -> nth_error (books st') j = nth_error (books st) j)
       /\ field changed "status" = JStr value
       /\ forall k, k <> "status" -> field changed k = field original k).
Proof.
  destruct (findIndex_found _ _ _ Hfound) as (o & Hn & Hnth & Hoid).
  rewrite Horiginal in Hn. injection Hn as ->.
  split.
  - intros f newId today Hf. subst id.
    assert (Hne : nonempty (formBookId f) = true).
    { unfold nonempty. now destruct (String.eqb_spec (formBookId f) EmptyString). }
    rewrite (handleFormSubmit_edit redraw f newId today st i (JObj o) Hne Hfound Horiginal).
    destruct (final_after_refresh redraw "Book updated"
                (saved (set_nth (books st) i
                          (bookData f (formBookId f)
                             (js_or (field (JObj o) "dateAdded") (JStr today)))) st))
      as (st' & Hfin & Hb & _).
    exists st'. eexists. split; [exact Hfin|]. rewrite Hb. simpl books.
    split; [exact (nth_error_set_nth_same _ _ _ _ Horiginal)|].
    split; [intros j Hj; now apply nth_error_set_nth_other|].
    split; reflexivity.
  - intros value.
    rewrite (changeStatus_run redraw id value st i o Hfound Hnth).
    destruct (final_after_refresh redraw ("Moved to " ++ status_label value)
                (saved (set_nth (books st) i
                          (JObj (obj_set o "status" (JStr value)))) st))
      as (st' & Hfin & Hb & _).
    exists st'. eexists. split; [exact Hfin|]. rewrite Hb. simpl books.
    split; [exact (nth_error_set_nth_same _ _ _ _ Horiginal)|].
    split; [intros j Hj; now apply nth_error_set_nth_other|].
    unfold field. simpl get_prop. split.
    + now rewrite obj_get_set_same.
    + intros k Hk. now rewrite obj_get_set_other.
Qed.

(** ** Unique ids *)

Lemma id_string_get b s : id_string b = Some s -> get_prop b "id" = Ok (JStr s).
Proof.
  unfold id_string. destruct (get_prop b "id") as [[]| |]; congruence.
Qed.

Lemma findIndex_ids id l ids :
  all_ids l = Some ids -> findIndex id l = Ok (index_of id ids).
Proof.
  revert ids. induction l as [|b l IH]; intros ids H; simpl in *.
  - injection H as <-. reflexivity.
  - destruct (id_string b) as [s|] eqn:Es; try discriminate.
    destruct (all_ids l) as [ids'|]; try discriminate. injection H as <-.
    rewrite (id_string_get _ _ Es). simpl.
    destruct (String.eqb s id); [reflexivity|]. now rewrite (IH ids' eq_refl).
Qed.

Lemma index_of_nth id ids i :
  index_of id ids = Some i -> nth_error ids i = Some id.
Proof.
  revert i. induction ids as [|x ids IH]; intros i H; simpl in H; [discriminate|].
  destruct (String.eqb_spec x id) as [->|Hne].
  - injection H as <-. reflexivity.
  - destruct (index_of id ids); simpl in H; try discriminate.
    injection H as <-. simpl. auto.
Qed.

Lemma all_ids_set_nth l ids i b s :
  all_ids l = Some ids -> nth_error ids i = Some s -> id_string b = Some s ->
  all_ids (set_nth l i b) = Some ids.
Proof.
  revert ids i. induction l as [|y l IH]; intros ids i H Hn Hb; simpl in *.
  - injection H as <-. destruct i; discriminate.
  - destruct (id_string y) as [t|] eqn:Et; try discriminate.
    destruct (all_ids l) as [ids'|] eqn:El; try discriminate. injection H as <-.
    destruct i as [|i]; simpl in *.
    + injection Hn as ->. now rewrite Hb, El.
    + now rewrite Et, (IH ids' i eq_refl Hn Hb).
Qed.

Lemma all_ids_app l1 l2 :
  all_ids (l1 ++ l2)
  = match all_ids l1, all_ids l2 with
    | Some a, Some b => Some (a ++ b)%list
    | _, _ => None
    end.
Proof.
  induction l1 as [|b l1 IH]; simpl.
  - now destruct (all_ids l2).
  - destruct (id_string b); [|reflexivity]. rewrite IH.
    destruct (all_ids l1), (all_ids l2); reflexivity.
Qed.

Lemma distinct_app a b :
  distinct (a ++ b) = true
  <-> distinct a = true /\ distinct b = true
      /\ forall x, In x a -> ~ In x b.
Proof.
  rewrite !distinct_NoDup. split.
  - intros H. split; [exact (NoDup_app_remove_r _ _ H)|].
    split; [exact (NoDup_app_remove_l _ _ H)|].
    induction a as [|y a IH]; simpl in *; [tauto|].
    inversion H as [|? ? Hy Ha]; subst. intros x [<-|Hx] Hb.
    + apply Hy. apply in_or_app. now right.
    + exact (IH Ha x Hx Hb).
  - intros (Ha & Hb & Hd). now apply List.NoDup_app.
Qed.

Lemma distinct_filter (P : string -> bool) ids :
  distinct ids = true -> distinct (List.filter P ids) = true.
Proof.
  rewrite !distinct_NoDup. apply List.NoDup_filter.
Qed.

Lemma filterM_keeps_other id l ids :
  all_ids l = Some ids ->
  exists kept,
    filterM (keeps_other id) l = Ok kept
    /\ all_ids kept = Some (List.filter (fun i => negb (String.eqb i id)) ids).
Proof.
  revert ids. induction l as [|b l IH]; intros ids H; simpl in *.
  - injection H as <-. exists []. auto.
  - destruct (id_string b) as [s|] eqn:Es; try discriminate.
    destruct (all_ids l) as [ids'|] eqn:El; try discriminate. injection H as <-.
    destruct (IH ids' eq_refl) as (kept & Ek & Hk).
    unfold keeps_other at 1. rewrite (id_string_get _ _ Es). simpl. rewrite Ek. simpl.
    destruct (String.eqb s id); simpl; eexists; split; try reflexivity; auto.
    simpl. now rewrite Es, Hk.
Qed.

Lemma id_fresh_not_in id l ids :
  all_ids l = Some ids -> id_fresh id l = true -> ~ In id ids.
Proof.
  revert ids. induction l as [|b l IH]; intros ids H Hf; simpl in *.
  - injection H as <-. tauto.
  - destruct (id_string b) as [s|] eqn:Es; try discriminate.
    destruct (all_ids l) as [ids'|] eqn:El; try discriminate. injection H as <-.
    unfold id_fresh in Hf. simpl in Hf. rewrite Es in Hf.
    apply negb_true_iff, orb_false_iff in Hf as [Hs Hl].
    intros [->|Hin].
    + rewrite String.eqb_refl in Hs. discriminate.
    + apply (IH ids' eq_refl); [|exact Hin]. unfold id_fresh. now rewrite Hl.
Qed.

Lemma mapM_ids l ids :
  all_ids l = Some ids -> mapM (fun b => get_prop b "id") l = Ok (map JStr ids).
Proof.
  revert ids. induction l as [|b l IH]; intros ids H; simpl in *.
  - injection H as <-. reflexivity.
  - destruct (id_string b) as [s|] eqn:Es; try discriminate.
    destruct (all_ids l) as [ids'|] eqn:El; try discriminate. injection H as <-.
    now rewrite (id_string_get _ _ Es), (IH ids' eq_refl).
Qed.

Lemma set_has_ids ids s :
  set_has (map JStr ids) (JStr s) = existsb (fun i => String.eqb i s) ids.
Proof. unfold set_has. induction ids; simpl; [reflexivity|]. now rewrite IHids. Qed.

Lemma merge_ids l items ids jds :
  all_ids l = Some ids -> all_ids items = Some jds ->
  exists merged,
    merge l items = Ok merged
    /\ all_ids merged
       = Some (ids ++ List.filter
                        (fun j => negb (existsb (fun i => String.eqb i j) ids))
                        jds)%list.
Proof.
  intros Hl Hi. unfold merge. rewrite (mapM_ids _ _ Hl). simpl.
  assert (H : exists added,
             filterM (fun b => i <- get_prop b "id" ;;
                               Ok (negb (set_has (map JStr ids) i))) items = Ok added
             /\ all_ids added
                = Some (List.filter
                          (fun j => negb (existsb (fun i => String.eqb i j) ids)) jds)).
  { clear Hl. revert jds Hi. induction items as [|b items IH]; intros jds Hi; simpl in *.
    - injection Hi as <-. exists []. auto.
    - destruct (id_string b) as [s|] eqn:Es; try discriminate.
      destruct (all_ids items) as [jds'|] eqn:El; try discriminate. injection Hi as <-.
      destruct (IH jds' eq_refl) as (added & Ea & Ha).
      rewrite (id_string_get _ _ Es). simpl. rewrite Ea. simpl.
      rewrite set_has_ids.
      destruct (existsb (fun i => String.eqb i s) ids); simpl;
        eexists; split; try reflexivity; auto.
      simpl. now rewrite Es, Ha. }
  destruct H as (added & Ea & Ha). rewrite Ea. simpl.
  eexists. split; [reflexivity|]. now rewrite all_ids_app, Hl, Ha.
Qed.

Section Unique.
Variable redraw : State -> option Exn.

Lemma deleteBook_absent id st :
  findIndex id (books st) = Ok None -> deleteBook redraw id st = Done tt st.
Proof.
  intros Hf. unfold deleteBook, bind, get_books, lift. now rewrite Hf.
Qed.

Lemma unique_after_refresh msg l st :
  unique_ids l = true ->
  exists st', final (after_refresh redraw msg (saved l st)) = Some st'
              /\ unique_ids (books st') = true.
Proof.
  intros H. destruct (final_after_refresh redraw msg (saved l st)) as (st' & Hf & Hb & _).
  exists st'. split; [exact Hf|]. now rewrite Hb.
Qed.

Lemma add_keeps_unique st f newId today :
  unique_ids (books st) = true ->
  formBookId f = EmptyString -> id_fresh newId (books st) = true ->
  exists st', final (handleFormSubmit redraw f newId today st) = Some st'
              /\ unique_ids (books st') = true.
Proof.
  intros Hu Hf Hfresh. rewrite handleFormSubmit_add by exact Hf.
  apply unique_after_refresh. unfold unique_ids in *.
  destruct (all_ids (books st)) as [ids|] eqn:Ei; [|discriminate].
  rewrite all_ids_app, Ei. simpl.
  apply distinct_app. split; [exact Hu|]. split; [reflexivity|].
  intros x Hx [<-|[]]. exact (id_fresh_not_in _ _ _ Ei Hfresh Hx).
Qed.

Lemma edit_keeps_unique st f newId today :
  unique_ids (books st) = true ->
  nonempty (formBookId f) = true ->
  exists st', final (handleFormSubmit redraw f newId today st) = Some st'
              /\ unique_ids (books st') = true.
Proof.
  intros Hu Hne. pose proof Hu as Hu'. unfold unique_ids in Hu'.
  destruct (all_ids (books st)) as [ids|] eqn:Ei; [|discriminate].
  pose proof (findIndex_ids (formBookId f) _ _ Ei) as Hfi.
  destruct (index_of (formBookId f) ids) as [i|] eqn:Eidx.
  - destruct (findIndex_found _ _ _ Hfi) as (o & Hn & _ & _).
    rewrite (handleFormSubmit_edit redraw f newId today st i (JObj o) Hne Hfi Hn).
    apply unique_after_refresh. unfold unique_ids.
    rewrite (all_ids_set_nth _ ids i _ (formBookId f) Ei (index_of_nth _ _ _ Eidx));
      [exact Hu'|reflexivity].
  - rewrite (handleFormSubmit_edit_absent redraw f newId today st Hne Hfi).
    now apply unique_after_refresh.
Qed.

Lemma delete_keeps_unique st id :
  unique_ids (books st) = true ->
  exists st', final (deleteBook redraw id st) = Some st'
              /\ unique_ids (books st') = true.
Proof.
  intros Hu. pose proof Hu as Hu'. unfold unique_ids in Hu'.
  destruct (all_ids (books st)) as [ids|] eqn:Ei; [|discriminate].
  pose proof (findIndex_ids id _ _ Ei) as Hfi.
  destruct (index_of id ids) as [i|] eqn:Eidx.
  - destruct (filterM_keeps_other id _ _ Ei) as (kept & Ek & Hk).
    rewrite (deleteBook_run redraw id st i kept Hfi Ek).
    apply unique_after_refresh. unfold unique_ids. rewrite Hk.
    now apply distinct_filter.
  - rewrite (deleteBook_absent id st Hfi). exists st. split; [reflexivity|exact Hu].
Qed.

Lemma status_keeps_unique st id value :
  unique_ids (books st) = true ->
  exists st', final (changeStatus redraw id value st) = Some st'
              /\ unique_ids (books st') = true.
Proof.
  intros Hu. pose proof Hu as Hu'. unfold unique_ids in Hu'.
  destruct (all_ids (books st)) as [ids|] eqn:Ei; [|discriminate].
  pose proof (findIndex_ids id _ _ Ei) as Hfi.
  destruct (index_of id ids) as [i|] eqn:Eidx.
  - destruct (findIndex_found _ _ _ Hfi) as (o & Hn & Hnth & Hoid).
    rewrite (changeStatus_run redraw id value st i o Hfi Hnth).
    apply unique_after_refresh. unfold unique_ids.
    rewrite (all_ids_set_nth _ ids i _ id Ei (index_of_nth _ _ _ Eidx)); [exact Hu'|].
    unfold id_string. simpl get_prop.
    rewrite obj_get_set_other by discriminate. now rewrite Hoid.
  - rewrite (changeStatus_absent redraw id value st Hfi).
    exists st. split; [reflexivity|exact Hu].
Qed.

Lemma import_unique st f items :
  unique_ids (books st) = true ->
  JSON.parse (import_text f) = Ok (JArr items) ->
  exists st',
    doImport redraw f st = Done tt st'
    /\ (importReplace f = true -> unique_ids (books st') = unique_ids items)
    /\ (importReplace f = false -> unique_ids items = true ->
        unique_ids (books st') = true).
Proof.
  intros Hu Hp. destruct (importReplace f) eqn:Hr.
  - destruct (doImport_replace redraw f st items Hp Hr) as (m & E & _).
    eexists. split; [exact E|]. split; [reflexivity|discriminate].
  - destruct (merge (books st) items) as [merged|e|] eqn:Em.
    + destruct (doImport_merge redraw f st items merged Hp Hr Em) as (m & E & _).
      eexists. split; [exact E|]. split; [discriminate|]. intros _ Hi.
      simpl books. unfold unique_ids in *.
      destruct (all_ids (books st)) as [ids|] eqn:Ei; [|discriminate].
      destruct (all_ids items) as [jds|] eqn:Ej; [|discriminate].
      destruct (merge_ids _ _ _ _ Ei Ej) as (merged' & Em' & Hm).
      rewrite Em in Em'. injection Em' as <-. rewrite Hm.
      apply distinct_app. split; [exact Hu|].
      split; [now apply distinct_filter|].
      intros x Hx Hin. apply filter_In in Hin as [_ Hnot].
      apply negb_true_iff in Hnot.
      assert (existsb (fun i => String.eqb i x) ids = true); [|congruence].
      apply existsb_exists. exists x. split; [exact Hx|apply String.eqb_refl].
    + pose proof (doImport_merge_throws redraw f st items e Hp Hr Em) as E.
      eexists. split; [exact E|]. split; [discriminate|]. intros _ _. exact Hu.
    + exfalso. exact (merge_total _ _ Em).
Qed.

(** C5, as amended.  From a collection in which every book has a string
    id and no two share one: adding keeps it so when the generated id is
    not in the collection yet; editing, deleting and changing a status
    keep it so; after an import in replace mode the ids are unique exactly
    when those of the imported array are; an import in merge mode keeps
    them unique when those of the imported array are. *)
Theorem unique_ids_preserved (st : State)
    (Hunique : unique_ids (books st) = true) :
  (forall f newId today,
      formBookId f = EmptyString -> id_fresh newId (books st) = true ->
      exists st', final (handleFormSubmit redraw f newId today st) = Some st'
                  /\ unique_ids (books st') = true)
  /\ (forall f newId today,
      nonempty (formBookId f) = true ->
      exists st', final (handleFormSubmit redraw f newId today st) = Some st'
                  /\ unique_ids (books st') = true)
  /\ (forall id,
      exists st', final (deleteBook redraw id st) = Some st'
                  /\ unique_ids (books st') = true)
  /\ (forall id value,
      exists st', final (changeStatus redraw id value st) = Some st'
                  /\ unique_ids (books st') = true)
  /\ (forall f items,
      JSON.parse (import_text f) = Ok (JArr items) ->
      exists st',
        doImport redraw f st = Done tt st'
        /\ (importReplace f = true ->
            unique_ids (books st') = unique_ids items)
        /\ (importReplace f = false -> unique_ids items = true ->
            unique_ids (books st') = true)).
Proof.
  split; [intros; now apply add_keeps_unique|].
  split; [intros; now apply edit_keeps_unique|].
  split; [intros; now apply delete_keeps_unique|].
  split; [intros; now apply status_keeps_unique|].
  intros. now apply import_unique.
Qed.
End Unique.

(** ** The cover cache *)

Lemma loadCoverCache_cases st :
  match JSON.parse (match stored_covers st with Some t => t | None => "null" end) with
  | Ok v => loadCoverCache st = Done (js_or v (JObj [])) st
  | Throw _ => loadCoverCache st = Done (JObj []) st
  | Beyond => loadCoverCache st = Unmodelled
  end.
Proof.
  unfold loadCoverCache, try_, bind, getItem, lift, parse_item, stored_covers, ret.
  destruct (JSON.parse _); reflexivity.
Qed.

Lemma loadCoverCache_json st v st' :
  loadCoverCache st = Done v st' -> st' = st /\ json_ok v = true.
Proof.
  pose proof (loadCoverCache_cases st) as H.
  destruct (JSON.parse _) as [w| |] eqn:Ep; rewrite H; intros [= <- <-];
    (split; [reflexivity|]); [|reflexivity].
  unfold js_or. destruct (truthy w); [|reflexivity].
  exact (parse_json_ok _ _ Ep).
Qed.

Lemma loadCoverCache_saved cache st :
  json_ok cache = true -> truthy cache = true ->
  loadCoverCache (with_covers cache st) = Done cache (with_covers cache st).
Proof.
  intros Hok Ht. pose proof (loadCoverCache_cases (with_covers cache st)) as H.
  assert (Es : stored_covers (with_covers cache st) = Some (JSON.stringify cache))
    by apply lookup_insert_eq.
  rewrite Es in H. rewrite (parse_stringify _ Hok) in H.
  rewrite H. unfold js_or. now rewrite Ht.
Qed.

Lemma saveCoverCache_run cache st :
  saveCoverCache cache st = Done tt (with_covers cache st).
Proof. reflexivity. Qed.

Lemma openLibraryCover_result data v :
  openLibraryCover data = Ok v -> null_or_string v = true.
Proof.
  unfold openLibraryCover.
  destruct (get_prop data "docs") as [docs| |]; simpl; try discriminate.
  destruct (truthy docs); [|intros [= <-]; reflexivity].
  destruct (get_prop docs "length") as [len| |]; simpl; try discriminate.
  destruct (gt_zero len) as [[]| |]; simpl; try discriminate;
    [|intros [= <-]; reflexivity].
  destruct (get_index docs 0) as [d0| |]; simpl; try discriminate.
  destruct (get_prop d0 "cover_edition_key") as [key| |]; simpl; try discriminate.
  destruct (truthy key); [|intros [= <-]; reflexivity].
  destruct (to_string key); simpl; try discriminate. intros [= <-]. reflexivity.
Qed.

Lemma googleBooksCover_result data v :
  googleBooksCover data = Ok v -> null_or_string v = true.
Proof.
  unfold googleBooksCover.
  destruct (get_prop data "items") as [items| |]; simpl; try discriminate.
  destruct (truthy items); [|intros [= <-]; reflexivity].
  destruct (get_prop items "length") as [len| |]; simpl; try discriminate.
  destruct (gt_zero len) as [[]| |]; simpl; try discriminate;
    [|intros [= <-]; reflexivity].
  destruct (get_index items 0) as [i0| |]; simpl; try discriminate.
  destruct (get_prop i0 "volumeInfo") as [vi| |]; simpl; try discriminate.
  destruct (if loose_eq_null vi then _ else _) as [links| |]; simpl; try discriminate.
  destruct (truthy links); [|intros [= <-]; reflexivity].
  destruct (get_prop links "thumbnail") as [th| |]; simpl; try discriminate.
  destruct (if truthy th then _ else _) as [link| |]; simpl; try discriminate.
  destruct link; try discriminate. intros [= <-]. reflexivity.
Qed.

Lemma attempt_result net url extract log r :
  (forall data v, extract data = Ok v -> null_or_string v = true) ->
  attempt net url extract log = Ok r -> null_or_string (fst r) = true.
Proof.
  intros Hex. unfold attempt, fetch_json.
  destruct url as [u| |]; try discriminate; [|intros [= <-]; reflexivity].
  destruct (net u) as [data| |]; simpl; try discriminate;
    [|intros [= <-]; reflexivity].
  destruct (extract data) as [v| |] eqn:E; try discriminate;
    intros [= <-]; simpl; [|reflexivity].
  exact (Hex _ _ E).
Qed.

Lemma null_or_string_json v : null_or_string v = true -> json_ok v = true.
Proof. destruct v; simpl; congruence. Qed.

Lemma strategies_result net book r :
  strategies net book = Ok r -> null_or_string (fst r) = true.
Proof.
  unfold strategies.
  destruct (attempt net (url1 book) openLibraryCover []) as [r1| |] eqn:E1;
    simpl; try discriminate.
  pose proof (attempt_result _ _ _ _ _ openLibraryCover_result E1) as H1.
  destruct (truthy (fst r1)); simpl.
  - destruct (truthy (fst r1)); [intros [= <-]; exact H1|].
    apply attempt_result, googleBooksCover_result.
  - destruct (attempt net (url2 book) openLibraryCover (snd r1)) as [r2| |] eqn:E2;
      simpl; try discriminate.
    pose proof (attempt_result _ _ _ _ _ openLibraryCover_result E2) as H2.
    destruct (truthy (fst r2)); [intros [= <-]; exact H2|].
    apply attempt_result, googleBooksCover_result.
Qed.

Lemma cover_key_parts book key :
  cover_key book = Ok key ->
  exists title author,
    (t <- get_prop book "title" ;; to_string t) = Ok title
    /\ (a <- get_prop book "author" ;; to_string a) = Ok author
    /\ key = title ++ "|||" ++ author.
Proof.
  unfold cover_key.
  destruct (t <- get_prop book "title" ;; to_string t) as [title| |]; simpl; try discriminate.
  destruct (a <- get_prop book "author" ;; to_string a) as [author| |]; simpl; try discriminate.
  intros [= <-]. eauto.
Qed.

Lemma fetch_hit net book st cache key v :
  loadCoverCache st = Done cache st -> cover_key book = Ok key ->
  js_in key cache = Ok true -> get_prop cache key = Ok v ->
  fetchCoverForBook net book st = Done (v, []) st.
Proof.
  intros Hl Hk Hin Hv.
  destruct (cover_key_parts _ _ Hk) as (title & author & Ht & Ha & ->).
  unfold fetchCoverForBook.
  unfold bind at 1. rewrite Hl.
  unfold bind at 1. unfold lift at 1. rewrite Ht.
  unfold bind at 1. unfold lift at 1. rewrite Ha.
  unfold bind at 1. unfold lift at 1. rewrite Hin.
  unfold bind, lift, ret. now rewrite Hv.
Qed.

Lemma fetch_miss net book st cache key :
  loadCoverCache st = Done cache st -> cover_key book = Ok key ->
  js_in key cache = Ok false ->
  fetchCoverForBook net book st
  = match strategies net book with
    | Ok r => Done r (with_covers (put_entry cache key (fst r)) st)
    | Throw e => Uncaught e st
    | Beyond => Unmodelled
    end.
Proof.
  intros Hl Hk Hin.
  destruct (cover_key_parts _ _ Hk) as (title & author & Ht & Ha & ->).
  unfold fetchCoverForBook.
  unfold bind at 1. rewrite Hl.
  unfold bind at 1. unfold lift at 1. rewrite Ht.
  unfold bind at 1. unfold lift at 1. rewrite Ha.
  unfold bind at 1. unfold lift at 1. rewrite Hin.
  unfold strategies.
  unfold bind at 1. unfold lift at 1.
  destruct (attempt net (url1 book) openLibraryCover []) as [r1| |]; simpl rbind;
    try reflexivity.
  unfold bind at 1.
  destruct (truthy (fst r1)) eqn:T1.
  - unfold ret at 1. simpl rbind. rewrite T1.
    unfold bind at 1. unfold ret at 1.
    unfold bind, saveCoverCache, setItem, ret, with_covers. reflexivity.
  - unfold lift at 1.
    destruct (attempt net (url2 book) openLibraryCover (snd r1)) as [r2| |];
      simpl rbind; try reflexivity.
    unfold bind at 1.
    destruct (truthy (fst r2)) eqn:T2.
    + unfold ret at 1. unfold bind, saveCoverCache, setItem, ret, with_covers.
      reflexivity.
    + unfold lift at 1.
      destruct (attempt net (url3 book) googleBooksCover (snd r2)) as [r3| |];
        try reflexivity.
Qed.


Lemma obj_has_set o k v : obj_has (obj_set o k v) k = true.
Proof. unfold obj_has. now rewrite obj_get_set_same. Qed.

(** ** Calls that overlap *)

Lemma call_hit book st cache key v :
  loadCoverCache st = Done cache st -> cover_key book = Ok key ->
  js_in key cache = Ok true -> get_prop cache key = Ok v ->
  fetchCoverForBook_call book st = Done (Settled v) st.
Proof.
  intros Hl Hk Hin Hv.
  destruct (cover_key_parts _ _ Hk) as (title & author & Ht & Ha & ->).
  unfold fetchCoverForBook_call.
  unfold bind at 1. rewrite Hl.
  unfold bind at 1. unfold lift at 1. rewrite Ht.
  unfold bind at 1. unfold lift at 1. rewrite Ha.
  unfold bind at 1. unfold lift at 1. rewrite Hin.
  unfold bind, lift, ret. now rewrite Hv.
Qed.

Lemma call_miss book st cache key :
  loadCoverCache st = Done cache st -> cover_key book = Ok key ->
  js_in key cache = Ok false ->
  fetchCoverForBook_call book st = Done (Suspended cache key) st.
Proof.
  intros Hl Hk Hin.
  destruct (cover_key_parts _ _ Hk) as (title & author & Ht & Ha & ->).
  unfold fetchCoverForBook_call.
  unfold bind at 1. rewrite Hl.
  unfold bind at 1. unfold lift at 1. rewrite Ht.
  unfold bind at 1. unfold lift at 1. rewrite Ha.
  unfold bind at 1. unfold lift at 1. rewrite Hin.
  reflexivity.
Qed.

Lemma loadCoverCache_state st :
  match loadCoverCache st with
  | Done cache st' => st' = st /\ json_ok cache = true
  | Uncaught _ _ => False
  | Unmodelled => True
  end.
Proof.
  pose proof (loadCoverCache_cases st) as H.
  destruct (JSON.parse _) as [w| |] eqn:Ep; rewrite H; auto.
  split; [reflexivity|]. unfold js_or. destruct (truthy w); [|reflexivity].
  exact (parse_json_ok _ _ Ep).
Qed.

(** What a call does before its first [await]. *)
Lemma call_cases book st :
  match fetchCoverForBook_call book st with
  | Done (Settled v) st' =>
      st' = st
      /\ exists cache key,
           loadCoverCache st = Done cache st /\ cover_key book = Ok key
           /\ js_in key cache = Ok true /\ get_prop cache key = Ok v
  | Done (Suspended cache key) st' =>
      st' = st
      /\ loadCoverCache st = Done cache st /\ cover_key book = Ok key
      /\ js_in key cache = Ok false
  | Uncaught _ st' => st' = st
  | Unmodelled => True
  end.
Proof.
  unfold fetchCoverForBook_call, cover_key.
  pose proof (loadCoverCache_state st) as Hl.
  unfold bind at 1.
  destruct (loadCoverCache st) as [cache st'| |]; [|contradiction|exact I].
  destruct Hl as [-> _].
  unfold bind at 1. unfold lift at 1.
  destruct (t <- get_prop book "title" ;; to_string t) as [title| |];
    [|reflexivity|exact I].
  unfold bind at 1. unfold lift at 1.
  destruct (a <- get_prop book "author" ;; to_string a) as [author| |];
    [|reflexivity|exact I].
  cbv zeta. unfold bind at 1. unfold lift at 1.
  destruct (js_in (title ++ "|||" ++ author) cache) as [[]| |] eqn:Hin;
    [| |reflexivity|exact I].
  - unfold bind, lift, ret.
    destruct (get_prop cache (title ++ "|||" ++ author)) as [v| |] eqn:Hv;
      [|reflexivity|exact I].
    split; [reflexivity|]. exists cache, (title ++ "|||" ++ author). auto.
  - unfold ret. auto.
Qed.

(** [fetchCoverForBook] is the call followed at once by its return. *)
Lemma fetch_uninterrupted net book st :
  fetchCoverForBook net book st
  = match fetchCoverForBook_call book st with
    | Done (Settled v) st' => Done (v, []) st'
    | Done (Suspended cache key) st' =>
        match strategies net book with
        | Ok r =>
            (fetchCoverForBook_resume cache key (fst r) ;;; ret r) st'
        | Throw e => Uncaught e st'
        | Beyond => Unmodelled
        end
    | Uncaught e st' => Uncaught e st'
    | Unmodelled => Unmodelled
    end.
Proof.
  unfold fetchCoverForBook_call, fetchCoverForBook, fetchCoverForBook_resume,
    strategies, bind, lift, ret.
  destruct (loadCoverCache st) as [cache st'| |]; try reflexivity.
  destruct (t <- get_prop book "title" ;; to_string t) as [title| |];
    try reflexivity.
  destruct (a <- get_prop book "author" ;; to_string a) as [author| |];
    try reflexivity.
  destruct (js_in (title ++ "|||" ++ author) cache) as [[]| |];
    try reflexivity.
  - destruct (get_prop cache (title ++ "|||" ++ author)); reflexivity.
  - destruct (attempt net (url1 book) openLibraryCover []) as [r1| |];
      cbv beta iota delta [rbind]; try reflexivity.
    destruct (truthy (fst r1)) eqn:T1.
    + rewrite T1. reflexivity.
    + destruct (attempt net (url2 book) openLibraryCover (snd r1)) as [r2| |];
        try reflexivity.
      destruct (truthy (fst r2)); [reflexivity|].
      destruct (attempt net (url3 book) googleBooksCover (snd r2));
        reflexivity.
Qed.

Lemma same_text_eq a b : same_text a b = true -> a = b.
Proof.
  destruct a, b; simpl; try discriminate; [|reflexivity].
  intros H. apply String.eqb_eq in H. now subst.
Qed.

Lemma loadCoverCache_same_record st st' cache :
  stored_covers st' = stored_covers st ->
  loadCoverCache st = Done cache st -> loadCoverCache st' = Done cache st'.
Proof.
  intros Hs. pose proof (loadCoverCache_cases st) as H.
  pose proof (loadCoverCache_cases st') as H'. rewrite Hs in H'.
  destruct (JSON.parse _); rewrite H, H'; congruence.
Qed.

Lemma Forall_without {A} (P : A -> Prop) i l :
  Forall P l -> Forall P (without i l).
Proof.
  intros H. unfold without. apply Forall_app. split.
  - now apply Forall_take.
  - now apply Forall_drop.
Qed.

Lemma resume_run cache key url st :
  fetchCoverForBook_resume cache key url st
  = Done url (with_covers (put_entry cache key url) st).
Proof. reflexivity. Qed.

Lemma step_sound ev p p' :
  Forall sound (snd p) -> step ev p = Some p' -> Forall sound (snd p').
Proof.
  destruct p as [st flights]. cbn [fst snd]. intros Hs.
  destruct ev as [net book|i|st1]; unfold step.
  - pose proof (call_cases book st) as Hc.
    destruct (fetchCoverForBook_call book st) as [[v|cache key] st'|e st'|];
      try discriminate; try (intros [= <-]; exact Hs).
    destruct Hc as (-> & Hl & _).
    destruct (strategies net book) as [r| |] eqn:Es; try discriminate.
    intros [= <-]. simpl. apply Forall_app. split; [exact Hs|].
    constructor; [|constructor]. split; simpl.
    + exact (proj2 (loadCoverCache_json _ _ _ Hl)).
    + exact (strategies_result _ _ _ Es).
  - destruct (nth_error flights i) as [fl|]; [|discriminate].
    rewrite resume_run. intros [= <-]. simpl. now apply Forall_without.
  - destruct (same_text _ _); [|discriminate]. now intros [= <-].
Qed.


(** An entry that the record has, and that every call in flight has in
    the cache it holds, stays in the record whatever happens next. *)
Lemma step_keeps_entry key v ev p p' :
  record_holds (fst p) key v -> Forall sound (snd p) ->
  Forall (began_after key v) (snd p) ->
  step ev p = Some p' ->
  record_holds (fst p') key v /\ Forall (began_after key v) (snd p').
Proof.
  destruct p as [st flights]. cbn [fst snd]. intros (o & Hl & Hget) Hs Ha.
  destruct ev as [net book|i|st1]; unfold step.
  - pose proof (call_cases book st) as Hc.
    destruct (fetchCoverForBook_call book st) as [[w|cache k] st'|e st'|];
      try discriminate.
    + destruct Hc as [-> _]. intros [= <-]. simpl. split; [|exact Ha].
      exists o. auto.
    + destruct Hc as (-> & Hl' & _ & Hin).
      destruct (strategies net book) as [r| |]; try discriminate.
      intros [= <-]. simpl. split; [exists o; auto|].
      apply Forall_app. split; [exact Ha|]. constructor; [|constructor].
      rewrite Hl in Hl'. injection Hl' as <-. split; simpl.
      * intros ->. simpl in Hin. unfold obj_has in Hin. rewrite Hget in Hin.
        discriminate.
      * exists o. auto.
    + subst st'. intros [= <-]. simpl. split; [exists o; auto|exact Ha].
  - destruct (nth_error flights i) as [fl|] eqn:En; [|discriminate].
    rewrite resume_run. intros [= <-]. simpl.
    split; [|now apply Forall_without].
    apply nth_error_In in En.
    rewrite List.Forall_forall in Hs, Ha.
    destruct (Hs fl En) as [Hok Hans].
    destruct (Ha fl En) as (Hne & o' & Eo & Hget').
    rewrite Eo in *. simpl put_entry.
    exists (obj_set o' (flightKey fl) (answer fl)). split.
    + apply loadCoverCache_saved; [|reflexivity].
      apply obj_set_json_ok; [exact Hok|]. now apply null_or_string_json.
    + rewrite obj_get_set_other by congruence. exact Hget'.
  - destruct (same_text _ _) eqn:Es; [|discriminate]. intros [= <-]. simpl.
    split; [|exact Ha]. exists o. split; [|exact Hget].
    apply same_text_eq in Es.
    exact (loadCoverCache_same_record st st1 _ Es Hl).
Qed.

Lemma run_keeps_entry key v evs p p' :
  record_holds (fst p) key v -> Forall sound (snd p) ->
  Forall (began_after key v) (snd p) ->
  run evs p = Some p' ->
  record_holds (fst p') key v.
Proof.
  revert p. induction evs as [|ev evs IH]; simpl; intros p Hr Hs Ha.
  - now intros [= <-].
  - destruct (step ev p) as [p1|] eqn:E; [|discriminate].
    destruct (step_keeps_entry key v ev p p1 Hr Hs Ha E) as [Hr1 Ha1].
    apply IH; [exact Hr1|exact (step_sound _ _ _ Hs E)|exact Ha1].
Qed.

Lemma answered_from_record net book st key v :
  record_holds st key v -> cover_key book = Ok key ->
  fetchCoverForBook net book st = Done (v, []) st.
Proof.
  intros (o & Hl & Hget) Hk.
  apply (fetch_hit net book st (JObj o) key v Hl Hk); simpl.
  - unfold obj_has. now rewrite Hget.
  - now rewrite Hget.
Qed.

(** A call that returns while no other call is in flight leaves its
    entry in the record. *)
Lemma return_alone st fl o p :
  sound fl -> snapshot fl = JObj o ->
  step (Return 0) (st, [fl]) = Some p ->
  snd p = [] /\ record_holds (fst p) (flightKey fl) (answer fl).
Proof.
  intros [Hok Hans] Eo. unfold step. cbn [nth_error]. rewrite resume_run.
  intros [= <-]. simpl.
  split; [reflexivity|]. rewrite Eo in *. simpl put_entry.
  exists (obj_set o (flightKey fl) (answer fl)). split.
  - apply loadCoverCache_saved; [|reflexivity].
    apply obj_set_json_ok; [exact Hok|]. now apply null_or_string_json.
  - apply obj_get_set_same.
Qed.



(** ** Export, then import *)

Lemma trim_end_closed t d :
  is_space d = false -> trim_end (t ++ str1 d) = t ++ str1 d.
Proof.
  intros Hd. induction t as [|a t IH]; simpl.
  - now rewrite Hd.
  - rewrite IH. destruct t; reflexivity.
Qed.

Lemma wrap_bracketed gap stepback parts :
  exists t, JSON.wrap "[" "]" gap stepback parts = String "[" (t ++ str1 "]").
Proof.
  unfold JSON.wrap. destruct parts as [|p ps].
  - exists EmptyString. reflexivity.
  - destruct gap.
    + eexists. reflexivity.
    + eexists. rewrite <- !append_assoc. reflexivity.
Qed.

Lemma trim_stringify_pretty l :
  trim (JSON.stringify_pretty (JArr l)) = JSON.stringify_pretty (JArr l)
  /\ nonempty (JSON.stringify_pretty (JArr l)) = true.
Proof.
  unfold JSON.stringify_pretty.
  change (ser "  " EmptyString (JArr l))
    with (Some (JSON.wrap "[" "]" "  " EmptyString
                  (map (fun x => match ser "  " (EmptyString ++ "  ") x with
                                 | Some t => t
                                 | None => "null"
                                 end) l))).
  destruct (wrap_bracketed "  " EmptyString
              (map (fun x => match ser "  " (EmptyString ++ "  ") x with
                             | Some t => t
                             | None => "null"
                             end) l)) as [t Et].
  rewrite Et. split; [|reflexivity].
  unfold trim. simpl trim_start.
  change (String "[" (t ++ str1 "]")) with ((String "[" t) ++ str1 "]").
  now apply trim_end_closed.
Qed.

(** C4.  For every collection of JSON data, the text that [exportBooks]
    hands out parses to that collection, and imported in replace mode (as
    the chosen file, or pasted into the text area), into whatever
    collection the page holds by then, it makes the exported collection
    the collection again: same books, same fields, same order; and it is
    stored as such. *)
Theorem export_then_import_replace (redraw : State -> option Exn) (st : State)
    (Hjson : forallb json_ok (books st) = true) :
  exists json st1,
    exportBooks st = Done json st1
    /\ books st1 = books st
    /\ JSON.parse json = Ok (JArr (books st))
    /\ forall f target,
         importReplace f = true ->
         (importFile f = Some json
          \/ (importFile f = None /\ importTextarea f = json)) ->
         exists st2,
           doImport redraw f target = Done tt st2
           /\ books st2 = books st
           /\ stored_books st2 = Some (JSON.stringify (JArr (books st))).
Proof.
  exists (JSON.stringify_pretty (JArr (books st))),
    (notify "Exported successfully" st).
  assert (Hparse : JSON.parse (JSON.stringify_pretty (JArr (books st)))
                   = Ok (JArr (books st))).
  { apply parse_stringify_pretty. rewrite json_ok_arr. exact Hjson. }
  split; [reflexivity|]. split; [reflexivity|]. split; [exact Hparse|].
  intros f target Hr Hsrc.
  assert (Hp : JSON.parse (import_text f) = Ok (JArr (books st))).
  { assert (Et : import_text f = JSON.stringify_pretty (JArr (books st))).
    { unfold import_text. destruct Hsrc as [->|[-> ->]]; [reflexivity|].
      apply trim_stringify_pretty. }
    rewrite Et. exact Hparse. }
  destruct (doImport_replace redraw f target _ Hp Hr) as (m & E & _).
  eexists. split; [exact E|].
  split; [reflexivity|]. rewrite stored_notify. apply stored_saved.
Qed.

(** ** The properties on sample data *)

Lemma bucket_partition_witness :
  Forall (fun b => status_in_enum b && favorite_is_boolean b = true) [b1; b2]
  /\ exists B, renderAll_buckets [b1; b2] = Ok B
               /\ favorites B = [b1] /\ completed B = [b2].
Proof.
  assert (H : Forall (fun b => status_in_enum b && favorite_is_boolean b = true)
                [b1; b2]) by (repeat constructor).
  split; [exact H|].
  destruct (bucket_partition [b1; b2] H) as (_ & B & HB & _ & _).
  exists B. split; [exact HB|].
  vm_compute in HB. injection HB as <-. split; reflexivity.
Defined.


Lemma import_merge_skips_and_replace_empties_witness :
  JSON.parse (import_text merge_file) = Ok (JArr [b1_again; b3])
  /\ exists st',
       doImport never_throws merge_file shelf_state = Done tt st'
       /\ books st' = [b1; b2; b3].
Proof.
  assert (H : JSON.parse (import_text merge_file) = Ok (JArr [b1_again; b3]))
    by (vm_compute; reflexivity).
  split; [exact H|].
  destruct (import_merge_skips_and_replace_empties never_throws merge_file
              shelf_state _ H) as (st' & E & Hmerge & _).
  exists st'. split; [exact E|].
  destruct (Hmerge eq_refl) as (added & _ & _ & Hm & _).
  exact (proj1 (Hm [b1; b2; b3] eq_refl)).
Defined.

Lemma export_then_import_replace_witness :
  forallb json_ok (books library_state) = true
  /\ exists json st1 st2,
       exportBooks library_state = Done json st1
       /\ doImport never_throws (mkImport (Some json) EmptyString true)
            shelf_state
          = Done tt st2
       /\ books shelf_state = [b1; b2]
       /\ books st2 = library.
Proof.
  assert (H : forallb json_ok (books library_state) = true) by reflexivity.
  split; [exact H|].
  destruct (export_then_import_replace never_throws library_state H)
    as (json & st1 & E & _ & _ & Himport).
  destruct (Himport (mkImport (Some json) EmptyString true) shelf_state
              eq_refl (or_introl eq_refl)) as (st2 & E2 & Hb & _).
  exists json, st1, st2. auto.
Defined.


(** Importing a file in which an id occurs twice, into an empty
    collection, leaves two books with that id. *)
Lemma import_of_repeated_ids_breaks_uniqueness :
  unique_ids (books empty_state) = true
  /\ exists st',
       doImport never_throws twice_b3 empty_state = Done tt st'
       /\ books st' = [b3; b3]
       /\ unique_ids (books st') = false.
Proof.
  split; [reflexivity|].
  eexists. split; [vm_compute; reflexivity|]. split; reflexivity.
Qed.

Lemma unique_ids_preserved_witness :
  unique_ids (books shelf_state) = true
  /\ exists st',
       final (deleteBook never_throws "b1" shelf_state) = Some st'
       /\ unique_ids (books st') = true.
Proof.
  assert (H : unique_ids (books shelf_state) = true) by reflexivity.
  split; [exact H|].
  exact (proj1 (proj2 (proj2 (unique_ids_preserved never_throws shelf_state H))) "b1").
Defined.


(** Editing a book that has no creation date gives it one. *)
Lemma edit_of_undated_book_sets_date :
  exists st' replacement,
    handleFormSubmit never_throws (edit_form "b7") "b99" "2026-11-02"
      undated_state = Done tt st'
    /\ nth_error (books st') 0 = Some replacement
    /\ field undated "dateAdded" = JUndefined
    /\ field replacement "dateAdded" = JStr "2026-11-02"
    /\ field replacement "dateAdded" <> field undated "dateAdded".
Proof.
  eexists. eexists. split; [vm_compute; reflexivity|].
  split; [reflexivity|]. split; [reflexivity|]. split; [reflexivity|].
  discriminate.
Qed.

Lemma dateAdded_kept_when_set_witness :
  "b10" <> EmptyString
  /\ findIndex "b10" (books library_state) = Ok (Some 0%nat)
  /\ nth_error (books library_state) 0 = Some dune
  /\ exists st' replacement,
       final (handleFormSubmit never_throws (edit_form "b10") "b99"
                "2026-11-02" library_state) = Some st'
       /\ nth_error (books st') 0 = Some replacement
       /\ field replacement "dateAdded" = JStr "2026-01-05".
Proof.
  assert (H1 : "b10" <> EmptyString) by discriminate.
  assert (H2 : findIndex "b10" (books library_state) = Ok (Some 0%nat))
    by reflexivity.
  assert (H3 : nth_error (books library_state) 0 = Some dune) by reflexivity.
  split; [exact H1|]. split; [exact H2|]. split; [exact H3|].
  destruct (proj1 (dateAdded_kept_when_set never_throws library_state "b10" 0
                     dune H1 H2 H3) (edit_form "b10") "b99" "2026-11-02" eq_refl)
    as (st' & replacement & Hf & Hn & _ & _ & Hd).
  exists st', replacement. split; [exact Hf|]. split; [exact Hn|]. exact Hd.
Defined.

(** * Further properties

    ** The filter controls *)

Lemma is_space_lower_char c : is_space (lower_char c) = is_space c.
Proof. destruct c as [[] [] [] [] [] [] [] []]; reflexivity. Qed.

Lemma trim_start_toLowerCase s :
  trim_start (toLowerCase s) = toLowerCase (trim_start s).
Proof.
  induction s as [|c s IH]; simpl; [reflexivity|].
  rewrite is_space_lower_char. destruct (is_space c); [exact IH|reflexivity].
Qed.

Lemma trim_end_toLowerCase s :
  trim_end (toLowerCase s) = toLowerCase (trim_end s).
Proof.
  induction s as [|c s IH]; simpl; [reflexivity|].
  fold (toLowerCase s). rewrite IH, is_space_lower_char.
  destruct (trim_end s); simpl; [|reflexivity].
  destruct (is_space c); reflexivity.
Qed.

Lemma trim_toLowerCase s : trim (toLowerCase s) = toLowerCase (trim s).
Proof. unfold trim. now rewrite trim_start_toLowerCase, trim_end_toLowerCase. Qed.

Lemma nonempty_toLowerCase s : nonempty (toLowerCase s) = nonempty s.
Proof. destruct s; reflexivity. Qed.

(** The search box counts as a filter for [isFilterActive] exactly when
    [getFilteredBooks] has a query to match. *)
Lemma query_active cfg :
  nonempty (query_of cfg) = nonempty (trim (searchInput cfg)).
Proof.
  unfold query_of. now rewrite trim_toLowerCase, nonempty_toLowerCase.
Qed.

Lemma isFilterActive_false cfg :
  isFilterActive cfg = false ->
  nonempty (query_of cfg) = false /\ genre cfg = EmptyString
  /\ status cfg = EmptyString /\ format cfg = EmptyString
  /\ rating cfg = EmptyString.
Proof.
  unfold isFilterActive. rewrite !orb_false_iff, query_active.
  unfold nonempty. rewrite !negb_false_iff, !String.eqb_eq. tauto.
Qed.

Lemma idle_filter_step cfg books :
  isFilterActive cfg = false ->
  filterM (filter_callback (query_of cfg) cfg) books = Ok books.
Proof.
  intros Hidle.
  destruct (isFilterActive_false cfg Hidle) as (Hq & Hg & Hs & Hf & Hr).
  induction books as [|b l IH]; simpl; [reflexivity|].
  rewrite IH. unfold filter_callback.
  rewrite Hq, Hg, Hs, Hf, Hr. reflexivity.
Qed.

Lemma idle_getFilteredBooks `{Collation} cfg books :
  isFilterActive cfg = false ->
  getFilteredBooks cfg books = array_sort (sort_callback (sort_key cfg)) books.
Proof.
  intros Hidle. unfold getFilteredBooks. fold (query_of cfg).
  now rewrite idle_filter_step.
Qed.

(** X1.  With no filter active, [getFilteredBooks] keeps every element of
    the collection and reads no property of any of them, so that elements
    that are no books at all stay in as well; what it returns is the sort of
    the whole collection; and [toggleSection] hides no section, empty or
    not. *)
Theorem inactive_filter_keeps_every_book `{Collation} (cfg : FilterConfig)
    (books : list JSValue) (Hidle : isFilterActive cfg = false) :
  filterM (filter_callback (query_of cfg) cfg) books = Ok books
  /\ getFilteredBooks cfg books
     = array_sort (sort_callback (sort_key cfg)) books
  /\ forall count, toggleSection count cfg = false.
Proof.
  split; [now apply idle_filter_step|]. split; [now apply idle_getFilteredBooks|].
  intros count. unfold toggleSection. rewrite Hidle. apply andb_false_r.
Qed.

(** X2.  [clearAllFilters] leaves no filter active and the default sort key,
    whatever was set before: the Clear button is hidden, every element of
    the collection passes the filter, and no section is hidden. *)
Theorem clearAllFilters_shows_everything (cfg : FilterConfig)
    (books : list JSValue) :
  let cleared := clearAllFilters cfg in
  isFilterActive cleared = false
  /\ updateClearFiltersButton cleared = false
  /\ sort_key cleared = "dateAdded"
  /\ filterM (filter_callback (query_of cleared) cleared) books = Ok books
  /\ forall count, toggleSection count cleared = false.
Proof.
  intros cleared.
  assert (Hidle : isFilterActive cleared = false) by reflexivity.
  split; [exact Hidle|]. split; [reflexivity|]. split; [reflexivity|].
  split.
  - induction books as [|b l IH]; simpl; [reflexivity|]. now rewrite IH.
  - intros count. unfold toggleSection. rewrite Hidle. apply andb_false_r.
Qed.

(** ** The header statistics and the sections *)

Lemma filter_length_perm {A} (p : A -> bool) l l' :
  Permutation l l' -> length (List.filter p l) = length (List.filter p l').
Proof.
  induction 1; simpl; try congruence.
  - destruct (p x); simpl; congruence.
  - destruct (p x), (p y); reflexivity.
Qed.

Lemma filter_length_split {A} (p q r : A -> bool) l :
  (forall x, p x = q x || r x) -> (forall x, q x && r x = false) ->
  length (List.filter p l)
  = (length (List.filter q l) + length (List.filter r l))%nat.
Proof.
  intros Hp Hqr. induction l as [|x l IH]; simpl; [reflexivity|].
  rewrite (Hp x). specialize (Hqr x).
  destruct (q x), (r x); simpl in *; try discriminate; lia.
Qed.

Lemma not_null_of_sortable b : sortable b = true -> loose_eq_null b = false.
Proof.
  unfold sortable. rewrite !andb_true_iff, negb_true_iff. tauto.
Qed.

(** X3.  With no filter active, on books typed as the data model has them,
    the statistics of the header agree with the sections below it: the
    number under Read is the size of Top Picks and Finished together, the
    number under Reading is the size of Currently Reading, and the number
    under Books is the number of books listed. *)
Theorem stats_agree_with_sections `{Collation} (cfg : FilterConfig)
    (books : list JSValue)
    (Hbooks : Forall (fun b => sortable b = true) books)
    (Hidle : isFilterActive cfg = false) :
  exists filtered B S,
    getFilteredBooks cfg books = Ok filtered
    /\ renderAll_buckets filtered = Ok B
    /\ updateStats books = Ok S
    /\ statBooks S = length filtered
    /\ statRead S = (length (favorites B) + length (completed B))%nat
    /\ statReading S = length (reading B).
Proof.
  pose proof (idle_getFilteredBooks cfg books Hidle) as Eg.
  destruct (sortable_sort (sort_key cfg) books Hbooks)
    as (filtered & Es & Hperm & _ & _).
  assert (Hnn : forall l, Permutation books l ->
                          Forall (fun b => loose_eq_null b = false) l).
  { intros l Hp. rewrite List.Forall_forall in Hbooks |- *. intros b Hb.
    apply not_null_of_sortable, Hbooks.
    apply Permutation_sym in Hp. exact (Permutation_in _ Hp Hb). }
  assert (Hpure : forall l, Permutation books l ->
    forall (f : JSValue -> Result bool) (g : JSValue -> bool),
      (forall b, loose_eq_null b = false -> f b = Ok (g b)) ->
      filterM f l = Ok (List.filter g l)).
  { intros l Hp f g Hfg. apply filterM_pure.
    eapply List.Forall_impl; [|exact (Hnn l Hp)]. exact Hfg. }
  exists filtered. eexists. eexists.
  split; [now rewrite Eg|].
  unfold renderAll_buckets, updateStats.
  rewrite (Hpure filtered Hperm _ _ is_top_pick_field).
  rewrite !(Hpure filtered Hperm _ _ (has_status_field _)).
  rewrite (Hpure filtered Hperm _ _ is_plain_finished_field).
  rewrite !(Hpure books (Permutation_refl _) _ _ (has_status_field _)).
  simpl. split; [reflexivity|]. split; [reflexivity|]. simpl.
  split; [exact (Permutation_length Hperm)|]. split.
  - rewrite (filter_length_perm _ _ _ Hperm).
    apply filter_length_split.
    + intros b. destruct (is_favorite b), (status_is "finished" b);
        reflexivity.
    + intros b. destruct (is_favorite b), (status_is "finished" b);
        reflexivity.
  - apply filter_length_perm. exact Hperm.
Qed.

(** ** The list view *)

Section Reversed.
Context {A : Type}.
Variable c : A -> A -> Z.
Hypothesis c_antisym : forall a b, 0 < c a b <-> c b a < 0.
Hypothesis c_trans : forall a b d, c a b <= 0 -> c b d <= 0 -> c a d <= 0.

Lemma order_flip a b : 0 <= c a b <-> c b a <= 0.
Proof.
  pose proof (c_antisym a b). pose proof (c_antisym b a). lia.
Qed.

Lemma reversed_antisym a b : 0 < - c a b <-> - c b a < 0.
Proof.
  pose proof (c_antisym a b). pose proof (c_antisym b a). lia.
Qed.

Lemma reversed_trans a b d :
  - c a b <= 0 -> - c b d <= 0 -> - c a d <= 0.
Proof.
  intros H1 H2.
  assert (c b a <= 0) by (apply order_flip; lia).
  assert (c d b <= 0) by (apply order_flip; lia).
  assert (c d a <= 0) by (eapply c_trans; eassumption).
  assert (0 <= c a d) by (apply order_flip; assumption).
  lia.
Qed.
End Reversed.

Section ListOrder.
Context `{Collation}.

Lemma list_order_antisym s a b :
  0 < list_order s a b <-> list_order s b a < 0.
Proof.
  unfold list_order.
  destruct (String.eqb (list_column s) "rating"),
    (String.eqb (direction s) "desc");
    try lia; try apply Zc_antisym.
  apply (reversed_antisym
           (fun a b => Z_of_comparison
                         (localeCompare (text_key (list_column s) a)
                                        (text_key (list_column s) b)))).
  intros x y. apply Zc_antisym.
Qed.

Lemma list_order_trans s a b d :
  list_order s a b <= 0 -> list_order s b d <= 0 -> list_order s a d <= 0.
Proof.
  unfold list_order.
  destruct (String.eqb (list_column s) "rating"),
    (String.eqb (direction s) "desc");
    try lia; try apply Zc_trans.
  apply (reversed_trans
           (fun a b => Z_of_comparison
                         (localeCompare (text_key (list_column s) a)
                                        (text_key (list_column s) b)))).
  - intros x y. apply Zc_antisym.
  - intros x y z. apply Zc_trans.
Qed.

Lemma compare_text_order k a b :
  loose_eq_null a = false -> loose_eq_null b = false ->
  unset_or_string (field a k) = true -> unset_or_string (field b k) = true ->
  compare_text k a b
  = Ok (Some (Z_of_comparison (localeCompare (text_key k a) (text_key k b)))).
Proof.
  intros Ha Hb Hka Hkb. unfold compare_text, text_key.
  rewrite (get_prop_field a _ Ha), (get_prop_field b _ Hb). simpl.
  destruct (field a k) as [| | | |x| |], (field b k) as [| | | |y| |];
    try discriminate; unfold js_or; simpl;
    try destruct (String.eqb_spec x EmptyString);
    try destruct (String.eqb_spec y EmptyString); subst; reflexivity.
Qed.

Lemma compare_rating_order a b :
  loose_eq_null a = false -> loose_eq_null b = false ->
  unset_or_number (field a "rating") = true ->
  unset_or_number (field b "rating") = true ->
  (x <- get_prop a "rating" ;; y <- get_prop b "rating" ;;
   js_sub (js_or x (JNum 0)) (js_or y (JNum 0)))
  = Ok (Some (number_key "rating" a - number_key "rating" b)).
Proof.
  intros Ha Hb Hka Hkb. unfold number_key.
  rewrite (get_prop_field a _ Ha), (get_prop_field b _ Hb). simpl.
  destruct (field a "rating") as [| | |n| | |],
    (field b "rating") as [| | |m| | |];
    try discriminate; unfold js_or; simpl;
    try destruct (Z.eqb_spec n 0); try destruct (Z.eqb_spec m 0); subst;
    simpl; repeat f_equal; lia.
Qed.

Lemma list_sort_callback_order s a b :
  listable a = true -> listable b = true ->
  list_sort_callback s a b = Ok (Some (list_order s a b)).
Proof.
  unfold listable. rewrite !andb_true_iff, !negb_true_iff.
  intros [[[[[[Ha Hta] Haa] Hga] Hsa] Hfa] Hra]
         [[[[[[Hb Htb] Hab] Hgb] Hsb] Hfb] Hrb].
  unfold list_sort_callback, list_order, list_column. simpl existsb.
  destruct (String.eqb_spec (column s) "title") as [->|_].
  { simpl. rewrite compare_text_order by assumption. simpl.
    now destruct (String.eqb (direction s) "desc"). }
  destruct (String.eqb_spec (column s) "author") as [->|_].
  { simpl. rewrite compare_text_order by assumption. simpl.
    now destruct (String.eqb (direction s) "desc"). }
  destruct (String.eqb_spec (column s) "genre") as [->|_].
  { simpl. rewrite compare_text_order by assumption. simpl.
    now destruct (String.eqb (direction s) "desc"). }
  destruct (String.eqb_spec (column s) "rating") as [->|_].
  { simpl. rewrite compare_rating_order by assumption. simpl.
    now destruct (String.eqb (direction s) "desc"). }
  destruct (String.eqb_spec (column s) "status") as [->|_].
  { simpl. rewrite compare_text_order by assumption. simpl.
    now destruct (String.eqb (direction s) "desc"). }
  destruct (String.eqb_spec (column s) "format") as [->|_].
  { simpl. rewrite compare_text_order by assumption. simpl.
    now destruct (String.eqb (direction s) "desc"). }
  simpl. rewrite compare_text_order by assumption. simpl.
  now destruct (String.eqb (direction s) "desc").
Qed.

(** X4.  The list view, for any sort state, on rows whose columns are unset
    or of their type: [renderList] lists a rearrangement of the section,
    ordered by the chosen column in the chosen direction (a missing value
    counts as the empty text or as zero and never makes the comparison
    throw), and rows that tie keep the order of the section, in the
    descending direction as well. *)
Theorem list_view_sorted_by_column (s : ListSortState)
    (bookList : list JSValue)
    (Hrows : Forall (fun b => listable b = true) bookList) :
  exists sorted,
    renderList_sorted s bookList = Ok sorted
    /\ Permutation bookList sorted
    /\ StronglySorted (fun a b => list_order s a b <= 0) sorted
    /\ forall z, List.filter (tie (list_order s) z) sorted
                 = List.filter (tie (list_order s) z) bookList.
Proof.
  rewrite List.Forall_forall in Hrows.
  apply (sort_spec (list_sort_callback s) (list_order s)
           (list_order_antisym s) (list_order_trans s)).
  intros a b Ha Hb. apply list_sort_callback_order; auto.
Qed.

End ListOrder.

Lemma headerClick_direction col s :
  direction (headerClick col s) = "asc"
  \/ direction (headerClick col s) = "desc".
Proof.
  unfold headerClick. destruct (String.eqb (column s) col); simpl; auto.
  destruct (String.eqb (direction s) "asc"); auto.
Qed.

Lemma clicks_direction cols :
  direction (clicks cols listSortState0) = "asc"
  \/ direction (clicks cols listSortState0) = "desc".
Proof.
  induction cols as [|col l _] using rev_ind; [now left|].
  unfold clicks. rewrite fold_left_app. simpl.
  apply headerClick_direction.
Qed.

(** X5.  The headers of the list view, in any state that clicks on headers
    lead to from the initial one: a click on the header of the active column
    keeps the column and reverses the order that the list is sorted by, a
    second click restores the state, and a click on another header selects
    that column in ascending direction. *)
Theorem header_click_reverses_order `{Collation} (cols : list string)
    (col : string) :
  let s := clicks cols listSortState0 in
  column (headerClick (column s) s) = column s
  /\ (forall a b, list_order (headerClick (column s) s) a b
                  = - list_order s a b)
  /\ headerClick (column s) (headerClick (column s) s) = s
  /\ (col <> column s -> headerClick col s = mkListSort col "asc").
Proof.
  intros s. pose proof (clicks_direction cols) as Hd. fold s in Hd.
  destruct s as [c d]. simpl in *.
  unfold headerClick. simpl. rewrite String.eqb_refl. simpl.
  split; [reflexivity|]. split; [|split].
  - intros a b. unfold list_order, list_column. simpl.
    destruct Hd as [-> | ->]; simpl;
      destruct (String.eqb _ "rating"); lia.
  - rewrite String.eqb_refl. destruct Hd as [-> | ->]; reflexivity.
  - intros Hne. destruct (String.eqb_spec c col); [congruence|reflexivity].
Qed.

(** ** Sorting the grid by a text that is missing *)

Lemma array_sort_throws {A} (cmp : A -> A -> Result (option Z)) e l :
  (forall a b, In a l -> In b l -> cmp a b = Throw e) ->
  (2 <= length l)%nat ->
  array_sort cmp l = Throw e.
Proof.
  induction l as [|x l IH]; intros Hc Hlen; simpl in Hlen; [lia|].
  destruct l as [|y l]; [simpl in Hlen; lia|].
  destruct l as [|z l].
  - simpl. rewrite (Hc x y); simpl; auto.
  - change (array_sort cmp (x :: y :: z :: l))
      with (r <- array_sort cmp (y :: z :: l) ;; sort_insert cmp x r).
    rewrite IH; [reflexivity| |simpl; lia].
    intros a b Ha Hb. apply Hc; now right.
Qed.

Lemma locale_compare_needs_string `{Collation} k a b :
  is_string (field a k) = false ->
  (x <- get_prop a k ;; y <- get_prop b k ;; locale_compare x y)
  = Throw TypeError.
Proof.
  intros Ha. unfold field in Ha.
  destruct (get_prop a k) as [x| |] eqn:Ea; simpl.
  - destruct (get_prop b k) as [y| |] eqn:Eb; simpl.
    + destruct x; try discriminate; reflexivity.
    + destruct b; try discriminate; simpl in Eb;
        repeat match type of Eb with
               | context [if ?c then _ else _] => destruct c
               | context [match ?c with _ => _ end] => destruct c
               end; congruence.
    + exfalso. exact (get_prop_total _ _ Eb).
  - destruct a; try discriminate; simpl in Ea;
      repeat match type of Ea with
             | context [if ?c then _ else _] => destruct c
             | context [match ?c with _ => _ end] => destruct c
             end; congruence.
  - exfalso. exact (get_prop_total _ _ Ea).
Qed.

(** X6.  Sorting the grid by title or by author needs the text: when at
    least two books pass the filter and none of them has a string in that
    field, as after an import of books without it, [getFilteredBooks] throws
    a TypeError, whichever pair the sort compares first. *)
Theorem grid_sort_by_missing_text_throws `{Collation} (cfg : FilterConfig)
    (books kept : list JSValue)
    (Hkey : sort_key cfg = "title" \/ sort_key cfg = "author")
    (Hkept : filterM (filter_callback (query_of cfg) cfg) books = Ok kept)
    (Htwo : (2 <= length kept)%nat)
    (Hmissing : Forall (fun b => is_string (field b (sort_key cfg)) = false)
                  kept) :
  getFilteredBooks cfg books = Throw TypeError.
Proof.
  unfold getFilteredBooks. fold (query_of cfg). rewrite Hkept. simpl.
  apply array_sort_throws; [|exact Htwo].
  rewrite List.Forall_forall in Hmissing.
  intros a b Ha _. specialize (Hmissing a Ha).
  unfold sort_callback.
  destruct Hkey as [Hk|Hk]; rewrite Hk in *; simpl;
    now apply locale_compare_needs_string.
Qed.

(** ** Cover lookups *)

Lemma cover_key_urls book key :
  cover_key book = Ok key ->
  exists u1 u2 u3,
    url1 book = Ok u1 /\ url2 book = Ok u2 /\ url3 book = Ok u3.
Proof.
  intros Hk. destruct (cover_key_parts _ _ Hk) as (title & author & Ht & Ha & _).
  unfold url1, url2, url3, encode.
  destruct (get_prop book "title") as [t| |]; try discriminate.
  destruct (get_prop book "author") as [a| |]; try discriminate.
  simpl in *. rewrite Ht, Ha. simpl.
  do 3 eexists. repeat split; reflexivity.
Qed.

Lemma attempt_log net u extract log r :
  attempt net (Ok u) extract log = Ok r -> snd r = (log ++ [u])%list.
Proof.
  unfold attempt, fetch_json.
  destruct (data <- net u ;; extract data); try discriminate;
    intros [= <-]; reflexivity.
Qed.

Lemma attempt_never_throws net url extract log e :
  attempt net url extract log <> Throw e.
Proof.
  unfold attempt, fetch_json. destruct url as [u| |]; try discriminate.
  destruct (data <- net u ;; extract data); discriminate.
Qed.

Lemma attempt_offline net u extract log :
  (forall url, exists e, net url = Throw e) ->
  attempt net (Ok u) extract log = Ok (JNull, (log ++ [u])%list).
Proof.
  intros Hoff. unfold attempt, fetch_json.
  destruct (Hoff u) as [e ->]. reflexivity.
Qed.

Lemma strategies_never_throw net book e : strategies net book <> Throw e.
Proof.
  unfold strategies.
  destruct (attempt net (url1 book) openLibraryCover []) as [r1| |] eqn:E1;
    cbv beta iota delta [rbind]; try discriminate.
  - destruct (truthy (fst r1)) eqn:T1.
    + rewrite T1. discriminate.
    + destruct (attempt net (url2 book) openLibraryCover (snd r1))
        as [r2| |] eqn:E2; try discriminate.
      * destruct (truthy (fst r2)); [discriminate|apply attempt_never_throws].
      * exfalso. exact (attempt_never_throws _ _ _ _ _ E2).
  - exfalso. exact (attempt_never_throws _ _ _ _ _ E1).
Qed.

Lemma attempt_found net u extract log :
  attempt net (Ok u) extract log
  = (c <- found_at net u extract ;; Ok (c, (log ++ [u])%list)).
Proof.
  unfold attempt, found_at, fetch_json.
  destruct (data <- net u ;; extract data); reflexivity.
Qed.

Lemma strategies_requests net book u1 u2 u3 r :
  url1 book = Ok u1 -> url2 book = Ok u2 -> url3 book = Ok u3 ->
  strategies net book = Ok r ->
  exists c1,
    found_at net u1 openLibraryCover = Ok c1
    /\ if truthy c1 then r = (c1, [u1])
       else exists c2,
           found_at net u2 openLibraryCover = Ok c2
           /\ if truthy c2 then r = (c2, [u1; u2])
              else exists c3,
                  found_at net u3 googleBooksCover = Ok c3
                  /\ r = (c3, [u1; u2; u3]).
Proof.
  intros H1 H2 H3 H. unfold strategies in H. rewrite H1, H2, H3 in H.
  rewrite attempt_found in H.
  destruct (found_at net u1 openLibraryCover) as [c1| |];
    try discriminate H.
  exists c1. split; [reflexivity|].
  cbv beta iota delta [rbind fst snd] in H. simpl app in H.
  destruct (truthy c1) eqn:T1.
  - cbv beta iota in H. rewrite T1 in H. congruence.
  - rewrite attempt_found in H.
    destruct (found_at net u2 openLibraryCover) as [c2| |];
      try discriminate H.
    exists c2. split; [reflexivity|].
    cbv beta iota delta [rbind fst snd] in H. simpl app in H.
    destruct (truthy c2) eqn:T2; [congruence|].
    rewrite attempt_found in H.
    destruct (found_at net u3 googleBooksCover) as [c3| |];
      try discriminate H.
    exists c3. split; [reflexivity|].
    cbv beta iota delta [rbind] in H. simpl app in H. congruence.
Qed.

(** X7.  A call that misses the cache: the requests go out in a fixed order,
    title and author at Open Library, title alone at Open Library, then
    Google Books, and the call stops at the first whose answer yields a
    cover: it makes the second request only when the first found none, and
    the third only when the first two found none.  What it returns is the
    cover of the last request it made, a URL or [null]; nothing else running
    while it waits, that is what it stores under the key of the book; and no
    failure of a request or of the reading of an answer makes it throw. *)
Theorem cover_lookup_requests (net : Network) (book : JSValue) (st : State)
    (cache : JSValue) (key : string)
    (Hcache : loadCoverCache st = Done cache st)
    (Hkey : cover_key book = Ok key)
    (Hmiss : js_in key cache = Ok false) :
  exists u1 u2 u3,
    url1 book = Ok u1 /\ url2 book = Ok u2 /\ url3 book = Ok u3
    /\ (forall e st1, fetchCoverForBook net book st <> Uncaught e st1)
    /\ forall r st1,
         fetchCoverForBook net book st = Done r st1 ->
         null_or_string (fst r) = true
         /\ st1 = with_covers (put_entry cache key (fst r)) st
         /\ exists c1,
             found_at net u1 openLibraryCover = Ok c1
             /\ if truthy c1 then r = (c1, [u1])
                else exists c2,
                    found_at net u2 openLibraryCover = Ok c2
                    /\ if truthy c2 then r = (c2, [u1; u2])
                       else exists c3,
                           found_at net u3 googleBooksCover = Ok c3
                           /\ r = (c3, [u1; u2; u3]).
Proof.
  destruct (cover_key_urls _ _ Hkey) as (u1 & u2 & u3 & H1 & H2 & H3).
  exists u1, u2, u3. split; [exact H1|]. split; [exact H2|].
  split; [exact H3|].
  rewrite (fetch_miss net book st cache key Hcache Hkey Hmiss).
  destruct (strategies net book) as [r'| |] eqn:Es.
  - split; [discriminate|]. intros r st1 [= <- <-].
    split; [exact (strategies_result _ _ _ Es)|]. split; [reflexivity|].
    exact (strategies_requests _ _ _ _ _ _ H1 H2 H3 Es).
  - exfalso. exact (strategies_never_throw _ _ _ Es).
  - split; discriminate.
Qed.

Lemma strategies_offline net book u1 u2 u3 :
  url1 book = Ok u1 -> url2 book = Ok u2 -> url3 book = Ok u3 ->
  (forall url, exists e, net url = Throw e) ->
  strategies net book = Ok (JNull, [u1; u2; u3]).
Proof.
  intros H1 H2 H3 Hoff. unfold strategies. rewrite H1, H2, H3.
  rewrite (attempt_offline _ _ _ _ Hoff). cbv beta iota delta [rbind fst snd truthy].
  rewrite (attempt_offline _ _ _ _ Hoff). cbv beta iota delta [rbind fst snd truthy].
  rewrite (attempt_offline _ _ _ _ Hoff). reflexivity.
Qed.

(** X8.  A call made while every request fails, on a cover record that is a
    map without the key of the book: the call waits for three requests,
    which find nothing.  When it returns, as the only call in flight, it
    stores [null] for the book, whatever the state of the page is by then;
    and from then on, whatever calls are made and return and whatever else
    runs, a call for the book answers [null] without a request, even when
    the network is back. *)
Theorem offline_lookup_caches_not_found (offline online : Network)
    (book : JSValue) (st : State) (o : Object) (key : string)
    (Hcache : loadCoverCache st = Done (JObj o) st)
    (Hkey : cover_key book = Ok key)
    (Hmiss : obj_get o key = None)
    (Hoff : forall url, exists e, offline url = Throw e) :
  exists u1 u2 u3,
    url1 book = Ok u1 /\ url2 book = Ok u2 /\ url3 book = Ok u3
    /\ let fl := mkFlight (JObj o) key JNull [u1; u2; u3] in
       step (Call offline book) (st, []) = Some (st, [fl])
       /\ forall st' events st2 flights,
            run (Return 0 :: events) (st', [fl]) = Some (st2, flights) ->
            fetchCoverForBook online book st2 = Done (JNull, []) st2.
Proof.
  destruct (cover_key_urls _ _ Hkey) as (u1 & u2 & u3 & H1 & H2 & H3).
  exists u1, u2, u3.
  split; [exact H1|]. split; [exact H2|]. split; [exact H3|].
  intros fl. split.
  - unfold step.
    rewrite (call_miss book st (JObj o) key Hcache Hkey)
      by (simpl; unfold obj_has; now rewrite Hmiss).
    now rewrite (strategies_offline _ _ _ _ _ H1 H2 H3 Hoff).
  - intros st' events st2 flights Hrun.
    assert (Hs : sound fl).
    { split; [exact (proj2 (loadCoverCache_json _ _ _ Hcache))|reflexivity]. }
    change (run (Return 0 :: events) (st', [fl]))
      with (match step (Return 0) (st', [fl]) with
            | Some p' => run events p'
            | None => None
            end) in Hrun.
    destruct (step (Return 0) (st', [fl])) as [[st1 fls]|] eqn:E;
      [|discriminate].
    destruct (return_alone st' fl o _ Hs eq_refl E) as [Hnil Hr].
    simpl in Hnil, Hr. subst fls.
    apply (answered_from_record online book st2 key); [|exact Hkey].
    apply (run_keeps_entry _ _ events (st1, []) (st2, flights)); auto.
Qed.

(** ** The cover of a card *)

Lemma card_cover_from_cache book st o key c :
  get_prop book "coverImage" = Ok c -> truthy c = false ->
  loadCoverCache st = Done (JObj o) st ->
  cover_key book = Ok key ->
  createBookCard_cover book st
  = Done (match obj_get o key with
          | Some v => if truthy v then CoverImage v else CoverPlaceholder false
          | None => CoverPlaceholder true
          end) st.
Proof.
  intros Hc Hf Hl Hk.
  destruct (cover_key_parts _ _ Hk) as (title & author & Ht & Ha & Ek).
  unfold createBookCard_cover.
  unfold bind at 1. unfold lift at 1. rewrite Hc, Hf.
  unfold bind at 1. rewrite Hl.
  unfold bind at 1. unfold lift at 1. rewrite Ht.
  unfold bind at 1. unfold lift at 1. rewrite Ha.
  cbv zeta. rewrite <- Ek.
  unfold bind at 1. unfold lift at 1.
  cbv beta iota delta [js_in obj_has get_prop].
  destruct (obj_get o key) as [v|] eqn:Hget.
  - unfold bind, lift, ret. cbv beta iota delta [andb negb].
    destruct (truthy v); reflexivity.
  - reflexivity.
Qed.

(** X9.  The card of a book without a cover of its own, on a cover record
    that is a map: the card carries the mark that [lazyLoadCovers] looks for
    exactly as long as the record has no entry for the book.  Once a call
    for the book has returned, as the only call in flight, the card shows
    the cover that was found, or the bare placeholder when none was, and is
    not marked again, whatever calls are made and return and whatever else
    runs in between. *)
Theorem card_marked_until_looked_up (book : JSValue) (st : State)
    (o : Object) (key : string) (c : JSValue)
    (Hcover : get_prop book "coverImage" = Ok c)
    (Hnone : truthy c = false)
    (Hcache : loadCoverCache st = Done (JObj o) st)
    (Hkey : cover_key book = Ok key) :
  (createBookCard_cover book st = Done (CoverPlaceholder true) st
   <-> obj_get o key = None)
  /\ forall net r,
       obj_get o key = None -> strategies net book = Ok r ->
       let fl := mkFlight (JObj o) key (fst r) (snd r) in
       step (Call net book) (st, []) = Some (st, [fl])
       /\ forall st' events st2 flights,
            run (Return 0 :: events) (st', [fl]) = Some (st2, flights) ->
            createBookCard_cover book st2
            = Done (if truthy (fst r) then CoverImage (fst r)
                    else CoverPlaceholder false) st2.
Proof.
  split.
  - rewrite (card_cover_from_cache book st o key c Hcover Hnone Hcache Hkey).
    destruct (obj_get o key) as [v|]; [|tauto].
    split; [|discriminate]. destruct (truthy v); discriminate.
  - intros net r Hmiss Es fl. split.
    + unfold step.
      rewrite (call_miss book st (JObj o) key Hcache Hkey)
        by (simpl; unfold obj_has; now rewrite Hmiss).
      now rewrite Es.
    + intros st' events st2 flights Hrun.
      assert (Hs : sound fl).
      { split; [exact (proj2 (loadCoverCache_json _ _ _ Hcache))|].
        exact (strategies_result _ _ _ Es). }
      change (run (Return 0 :: events) (st', [fl]))
        with (match step (Return 0) (st', [fl]) with
              | Some p' => run events p'
              | None => None
              end) in Hrun.
      destruct (step (Return 0) (st', [fl])) as [[st1 fls]|] eqn:E;
        [|discriminate].
      destruct (return_alone st' fl o _ Hs eq_refl E) as [Hnil Hr].
      simpl in Hnil, Hr. subst fls.
      assert (Hr2 : record_holds st2 key (fst r)).
      { apply (run_keeps_entry _ _ events (st1, []) (st2, flights)); auto. }
      destruct Hr2 as (o2 & Hl2 & Hget2).
      rewrite (card_cover_from_cache book st2 o2 key c Hcover Hnone Hl2 Hkey).
      now rewrite Hget2.
Qed.

(** ** What is stored and what is in memory *)

Lemma forallb_nth_error {A} (p : A -> bool) l i x :
  forallb p l = true -> nth_error l i = Some x -> p x = true.
Proof.
  intros Hl Hn. rewrite forallb_forall in Hl. apply Hl.
  exact (nth_error_In _ _ Hn).
Qed.

Lemma forallb_set_nth (p : JSValue -> bool) l i x :
  forallb p l = true -> p x = true -> forallb p (set_nth l i x) = true.
Proof.
  revert i. induction l as [|y l IH]; intros [|i] Hl Hx; simpl in *;
    try reflexivity; apply andb_true_iff in Hl as [Hy Hl];
    rewrite ?Hx, ?Hy, ?Hl, ?IH; auto.
Qed.

Lemma filterM_forallb {A} (f : A -> Result bool) (p : A -> bool) l kept :
  filterM f l = Ok kept -> forallb p l = true -> forallb p kept = true.
Proof.
  revert kept. induction l as [|x l IH]; simpl; intros kept E Hl.
  - now injection E as <-.
  - apply andb_true_iff in Hl as [Hx Hl].
    destruct (f x) as [b| |]; simpl in E; try discriminate.
    destruct (filterM f l) as [ys| |]; simpl in E; try discriminate.
    injection E as <-. specialize (IH ys eq_refl Hl).
    destruct b; simpl; rewrite ?Hx; auto.
Qed.

Lemma json_ok_member o k v :
  json_ok (JObj o) = true -> obj_get o k = Some v -> json_ok v = true.
Proof.
  rewrite json_ok_obj, andb_true_iff. intros [_ H].
  induction o as [|[k' v'] o IH]; simpl in *; [discriminate|].
  apply andb_true_iff in H as [Hv Ho].
  destruct (String.eqb k' k); [intros [= <-]; exact Hv|auto].
Qed.

Lemma json_ok_tags s : json_ok (JArr (tags_of s)) = true.
Proof.
  rewrite json_ok_arr. unfold tags_of.
  induction (List.filter nonempty (map trim (split_comma s))); simpl; auto.
Qed.

Lemma json_ok_parseInt_or_null s : json_ok (parseInt_or_null s) = true.
Proof.
  unfold parseInt_or_null. destruct (parseInt s) as [n|]; [|reflexivity].
  destruct (n =? 0); reflexivity.
Qed.

(** A book written by the form is JSON data. *)
Lemma json_ok_bookData f id d :
  json_ok d = true -> json_ok (bookData f id d) = true.
Proof.
  intros Hd. unfold bookData. rewrite json_ok_obj.
  apply andb_true_iff. split; [reflexivity|].
  cbn [forallb snd].
  rewrite !json_ok_parseInt_or_null, json_ok_tags, Hd. reflexivity.
Qed.

Lemma json_ok_string_nth s i :
  string_nth s i = JUndefined \/ json_ok (string_nth s i) = true.
Proof.
  revert i. induction s as [|c s IH]; intros [|i]; simpl; auto.
Qed.

Lemma json_ok_nth l i :
  forallb json_ok l = true ->
  nth i l JUndefined = JUndefined \/ json_ok (nth i l JUndefined) = true.
Proof.
  revert i. induction l as [|x l IH]; intros [|i] H; simpl in *; auto;
    apply andb_true_iff in H as [Hx Hl]; auto.
Qed.

(** Reading a property of JSON data gives JSON data, or [undefined]. *)
Lemma json_ok_field b k :
  json_ok b = true -> field b k = JUndefined \/ json_ok (field b k) = true.
Proof.
  intros Hb. unfold field. destruct b as [| | | |s|l|o]; simpl; auto.
  - destruct (String.eqb k "length"); [now right|].
    destruct (N_of_numeral k); [apply json_ok_string_nth|now left].
  - destruct (String.eqb k "length"); [now right|].
    destruct (N_of_numeral k); [|now left].
    apply json_ok_nth. now rewrite <- json_ok_arr.
  - destruct (obj_get o k) as [v|] eqn:Eg; [|now left].
    right. exact (json_ok_member _ _ _ Hb Eg).
Qed.

Lemma json_ok_dateAdded original today :
  json_ok original = true ->
  json_ok (js_or (field original "dateAdded") (JStr today)) = true.
Proof.
  intros Ho. unfold js_or.
  destruct (json_ok_field original "dateAdded" Ho) as [-> | H]; [reflexivity|].
  destruct (truthy _); [exact H|reflexivity].
Qed.

Lemma persisted_saved l st :
  forallb json_ok l = true -> persisted (saved l st).
Proof. intros Hl. split; [exact Hl|apply stored_saved]. Qed.

Lemma persisted_notify m st : persisted st -> persisted (notify m st).
Proof. intros [H1 H2]. split; [exact H1|]. now rewrite stored_notify. Qed.

Lemma covers_saved l st : stored_covers (saved l st) = stored_covers st.
Proof. unfold stored_covers, saved. simpl. now apply lookup_insert_ne. Qed.

Lemma covers_notify m st : stored_covers (notify m st) = stored_covers st.
Proof. reflexivity. Qed.

(** *** Numbers within range *)

Lemma safe_numbers_member o k v :
  safe_numbers (JObj o) = true -> obj_get o k = Some v ->
  safe_numbers v = true.
Proof.
  simpl. induction o as [|[k' v'] o IH]; simpl; [discriminate|].
  intros H. apply andb_true_iff in H as [Hv Ho].
  destruct (String.eqb k' k); [intros [= <-]; exact Hv|auto].
Qed.

Lemma safe_numbers_obj_set o k v :
  safe_numbers (JObj o) = true -> safe_numbers v = true ->
  safe_numbers (JObj (obj_set o k v)) = true.
Proof.
  simpl. intros Ho Hv. induction o as [|[k' v'] o IH]; simpl in *;
    [now rewrite Hv|].
  apply andb_true_iff in Ho as [H1 H2].
  destruct (String.eqb k' k); simpl; rewrite ?Hv, ?H1, ?H2, ?IH; auto.
Qed.

Lemma safe_numbers_tags s : safe_numbers (JArr (tags_of s)) = true.
Proof.
  simpl. unfold tags_of.
  induction (List.filter nonempty (map trim (split_comma s))); simpl; auto.
Qed.

Lemma safe_numbers_parseInt_or_null s :
  safe_text s = true -> safe_numbers (parseInt_or_null s) = true.
Proof.
  unfold safe_text, parseInt_or_null.
  destruct (parseInt s) as [n|]; [|reflexivity].
  destruct (n =? 0); [reflexivity|]. simpl. auto.
Qed.

(** A book written from a form whose numbers are in range has its
    numbers in range. *)
Lemma safe_numbers_bookData f id d :
  safe_form f = true -> safe_numbers d = true ->
  safe_numbers (bookData f id d) = true.
Proof.
  unfold safe_form. rewrite !andb_true_iff. intros [[[Hy Hp] Hc] Hr] Hd.
  unfold bookData. cbn [safe_numbers forallb snd].
  rewrite !safe_numbers_parseInt_or_null by assumption.
  pose proof (safe_numbers_tags (formTags f)) as Ht. cbn [safe_numbers] in Ht.
  rewrite Ht, Hd. reflexivity.
Qed.

Lemma safe_numbers_dateAdded o today :
  safe_numbers (JObj o) = true ->
  safe_numbers (js_or (field (JObj o) "dateAdded") (JStr today)) = true.
Proof.
  intros Ho. unfold js_or, field. cbn [get_prop].
  destruct (obj_get o "dateAdded") as [v|] eqn:Eg; [|reflexivity].
  destruct (truthy v); [|reflexivity].
  exact (safe_numbers_member _ _ _ Ho Eg).
Qed.

Lemma in_range_saved l st :
  forallb safe_numbers l = true -> in_range (saved l st).
Proof. intros Hl. exact Hl. Qed.

Lemma in_range_notify m st : in_range st -> in_range (notify m st).
Proof. intros H. exact H. Qed.

Lemma in_step_refl st : persisted st -> in_step st st.
Proof. intros H. split; [exact H|reflexivity]. Qed.

Lemma in_step_notify m st : persisted st -> in_step st (notify m st).
Proof. intros H. split; [now apply persisted_notify|reflexivity]. Qed.

Lemma in_step_after_refresh redraw msg l st st' :
  forallb json_ok l = true -> forallb safe_numbers l = true ->
  after_refresh redraw msg (saved l st) = Done tt st' ->
  in_step st st' /\ in_range st'.
Proof.
  intros Hl Hn. pose proof (persisted_saved l st Hl) as Hp.
  unfold after_refresh. destruct (redraw (saved l st)); [discriminate|].
  intros [= <-]. split; [split|].
  - now apply persisted_notify.
  - now rewrite covers_notify, covers_saved.
  - exact Hn.
Qed.

Lemma findIndex_total id l : findIndex id l <> Beyond.
Proof.
  induction l as [|b l IH]; simpl; [discriminate|].
  pose proof (get_prop_total b "id").
  destruct (get_prop b "id") as [i| |]; simpl; try congruence.
  destruct (strict_eq_str i id); [discriminate|].
  destruct (findIndex id l); simpl; congruence.
Qed.

Lemma keeps_other_total id l : filterM (keeps_other id) l <> Beyond.
Proof.
  induction l as [|b l IH]; simpl; [discriminate|].
  unfold keeps_other at 1.
  pose proof (get_prop_total b "id").
  destruct (get_prop b "id") as [i| |]; simpl; try congruence.
  destruct (filterM (keeps_other id) l); simpl; congruence.
Qed.

Section InStep.
Variable redraw : State -> option Exn.

Lemma submit_in_step f newId today st st' :
  persisted st -> in_range st -> safe_form f = true ->
  handleFormSubmit redraw f newId today st = Done tt st' ->
  in_step st st' /\ in_range st'.
Proof.
  intros Hst Hnum Hf. pose proof Hst as [Hok _]. unfold in_range in Hnum.
  destruct (nonempty (formBookId f)) eqn:Hid.
  - destruct (findIndex (formBookId f) (books st)) as [[i|]|e|] eqn:Hfi.
    + destruct (findIndex_found _ _ _ Hfi) as (o & Hn & _ & _).
      rewrite (handleFormSubmit_edit redraw f newId today st i (JObj o)
                 Hid Hfi Hn).
      pose proof (forallb_nth_error _ _ _ _ Hok Hn) as Ho.
      pose proof (forallb_nth_error _ _ _ _ Hnum Hn) as Hno.
      apply in_step_after_refresh.
      * apply forallb_set_nth; [exact Hok|]. apply json_ok_bookData.
        now apply json_ok_dateAdded.
      * apply forallb_set_nth; [exact Hnum|].
        apply safe_numbers_bookData; [exact Hf|].
        now apply safe_numbers_dateAdded.
    + rewrite (handleFormSubmit_edit_absent redraw f newId today st Hid Hfi).
      now apply in_step_after_refresh.
    + unfold handleFormSubmit. rewrite Hid.
      unfold bind, get_books, lift, find. rewrite Hfi. discriminate.
    + exfalso. exact (findIndex_total _ _ Hfi).
  - apply negb_false_iff, String.eqb_eq in Hid.
    rewrite (handleFormSubmit_add redraw f newId today st Hid).
    apply in_step_after_refresh.
    + rewrite forallb_app, Hok. cbn [forallb andb].
      rewrite json_ok_bookData; reflexivity.
    + rewrite forallb_app, Hnum. cbn [forallb andb].
      rewrite safe_numbers_bookData; auto.
Qed.

Lemma delete_in_step id st st' :
  persisted st -> in_range st ->
  deleteBook redraw id st = Done tt st' ->
  in_step st st' /\ in_range st'.
Proof.
  intros Hst Hnum. pose proof Hst as [Hok _].
  destruct (findIndex id (books st)) as [[i|]|e|] eqn:Hf.
  - destruct (filterM (keeps_other id) (books st)) as [kept|e|] eqn:Hk.
    + rewrite (deleteBook_run redraw id st i kept Hf Hk).
      apply in_step_after_refresh.
      * exact (filterM_forallb _ _ _ _ Hk Hok).
      * exact (filterM_forallb _ _ _ _ Hk Hnum).
    + unfold deleteBook, bind, get_books, lift. rewrite Hf.
      fold (keeps_other id). rewrite Hk. discriminate.
    + exfalso. exact (keeps_other_total _ _ Hk).
  - unfold deleteBook, bind, get_books, lift. rewrite Hf. intros [= <-].
    split; [now apply in_step_refl|exact Hnum].
  - unfold deleteBook, bind, get_books, lift. rewrite Hf. discriminate.
  - exfalso. exact (findIndex_total _ _ Hf).
Qed.

Lemma status_in_step id value st st' :
  persisted st -> in_range st ->
  changeStatus redraw id value st = Done tt st' ->
  in_step st st' /\ in_range st'.
Proof.
  intros Hst Hnum. pose proof Hst as [Hok _].
  destruct (findIndex id (books st)) as [[i|]|e|] eqn:Hf.
  - destruct (findIndex_found _ _ _ Hf) as (o & Hn & Hnth & _).
    rewrite (changeStatus_run redraw id value st i o Hf Hnth).
    apply in_step_after_refresh.
    + apply forallb_set_nth; [exact Hok|]. apply obj_set_json_ok; [|reflexivity].
      exact (forallb_nth_error _ _ _ _ Hok Hn).
    + apply forallb_set_nth; [exact Hnum|].
      apply safe_numbers_obj_set; [|reflexivity].
      exact (forallb_nth_error _ _ _ _ Hnum Hn).
  - rewrite (changeStatus_absent redraw id value st Hf). intros [= <-].
    split; [now apply in_step_refl|exact Hnum].
  - unfold changeStatus, bind, get_books, lift. rewrite Hf. discriminate.
  - exfalso. exact (findIndex_total _ _ Hf).
Qed.

Lemma import_done_not_failed items : import_done items <> import_failed.
Proof.
  unfold import_done, import_failed. intros H.
  apply (f_equal (fun s => String.get 7 s)) in H. discriminate H.
Qed.

Lemma import_in_step f items st st' :
  persisted st -> in_range st ->
  JSON.parse (import_text f) = Ok (JArr items) ->
  forallb safe_numbers items = true ->
  doImport redraw f st = Done tt st' ->
  toasts st' = (toasts st ++ [import_done items])%list ->
  in_step st st' /\ in_range st'.
Proof.
  intros Hst Hnum Hp Hitems. pose proof Hst as [Hok _].
  pose proof (parse_json_ok _ _ Hp) as Hjson. rewrite json_ok_arr in Hjson.
  assert (Hkept : forall m l,
             forallb json_ok l = true -> forallb safe_numbers l = true ->
             in_step st (notify m (saved l st))
             /\ in_range (notify m (saved l st))).
  { intros m l Hl Hn. split; [split|exact Hn].
    - now apply persisted_notify, persisted_saved.
    - now rewrite covers_notify, covers_saved. }
  destruct (importReplace f) eqn:Hr.
  - destruct (doImport_replace redraw f st items Hp Hr) as (m & E & _).
    rewrite E. intros [= <-] _. now apply Hkept.
  - destruct (merge (books st) items) as [merged|e|] eqn:Em.
    + destruct (doImport_merge redraw f st items merged Hp Hr Em)
        as (m & E & _).
      rewrite E. intros [= <-] _.
      destruct (merge_spec _ _ _ Em) as (ids & added & _ & -> & Hincl & _).
      apply Hkept.
      * rewrite forallb_app, Hok. simpl.
        rewrite forallb_forall in Hjson |- *. auto.
      * rewrite forallb_app. unfold in_range in Hnum. rewrite Hnum. simpl.
        rewrite forallb_forall in Hitems |- *. auto.
    + rewrite (doImport_merge_throws redraw f st items e Hp Hr Em).
      intros [= <-]. simpl. intros H. apply app_inv_head in H.
      apply (f_equal (fun l => List.hd EmptyString l)) in H. cbn [hd] in H.
      exfalso. exact (import_done_not_failed _ (eq_sym H)).
    + exfalso. exact (merge_total _ _ Em).
Qed.

(** X10.  The stored record follows the collection.  From a state in which
    [localStorage] holds the text of the collection in memory and every
    number of the collection is a safe integer, each mutation that runs to
    its end leaves such a state again: adding or editing a book from a form
    whose numbers are safe integers, deleting a book, changing a status, and
    an import of books whose numbers are safe integers that ends with its
    notice of success.  None of them touches the record of the covers. *)
Theorem mutations_keep_record_in_step (st : State) (Hst : persisted st)
    (Hnum : in_range st) :
  (forall f newId today st',
      safe_form f = true ->
      handleFormSubmit redraw f newId today st = Done tt st' ->
      persisted st' /\ in_range st'
      /\ stored_covers st' = stored_covers st)
  /\ (forall id st',
      deleteBook redraw id st = Done tt st' ->
      persisted st' /\ in_range st'
      /\ stored_covers st' = stored_covers st)
  /\ (forall id value st',
      changeStatus redraw id value st = Done tt st' ->
      persisted st' /\ in_range st'
      /\ stored_covers st' = stored_covers st)
  /\ (forall f items st',
      JSON.parse (import_text f) = Ok (JArr items) ->
      forallb safe_numbers items = true ->
      doImport redraw f st = Done tt st' ->
      toasts st' = (toasts st ++ [import_done items])%list ->
      persisted st' /\ in_range st'
      /\ stored_covers st' = stored_covers st).
Proof.
  split; [|split; [|split]].
  - intros f newId today st' Hf E.
    destruct (submit_in_step f newId today st st' Hst Hnum Hf E)
      as [[H1 H2] H3]. auto.
  - intros id st' E.
    destruct (delete_in_step id st st' Hst Hnum E) as [[H1 H2] H3]. auto.
  - intros id value st' E.
    destruct (status_in_step id value st st' Hst Hnum E) as [[H1 H2] H3].
    auto.
  - intros f items st' Hp Hitems E Ht.
    destruct (import_in_step f items st st' Hst Hnum Hp Hitems E Ht)
      as [[H1 H2] H3]. auto.
Qed.

End InStep.

(** ** Start-up *)

Lemma stringify_array_nonempty l :
  String.eqb (JSON.stringify (JArr l)) EmptyString = false.
Proof.
  unfold JSON.stringify.
  change (ser EmptyString EmptyString (JArr l))
    with (Some (JSON.wrap "[" "]" EmptyString EmptyString
                  (map (fun x => match ser EmptyString (EmptyString ++ EmptyString) x with
                                 | Some t => t
                                 | None => "null"
                                 end) l))).
  destruct (wrap_bracketed EmptyString EmptyString
              (map (fun x => match ser EmptyString (EmptyString ++ EmptyString) x with
                             | Some t => t
                             | None => "null"
                             end) l)) as [t ->].
  reflexivity.
Qed.

Lemma loadBooks_persisted st :
  persisted st -> loadBooks (reloaded st) = Done (JArr (books st)) (reloaded st).
Proof.
  intros [Hok Hs]. pose proof (loadBooks_cases (reloaded st)) as H.
  change (stored_books (reloaded st)) with (stored_books st) in H.
  rewrite Hs, stringify_array_nonempty in H.
  rewrite parse_stringify in H; [exact H|]. now rewrite json_ok_arr.
Qed.

Section StartupRuns.
Variable SEED_DATA : option (list JSValue).
Variable redraw : State -> option Exn.

Lemma init_run st l :
  loadBooks st = Done (JArr l) st ->
  init SEED_DATA redraw st
  = match l, SEED_DATA with
    | [], Some seed =>
        refresh redraw (notify welcome (saved seed st))
    | _, _ => refresh redraw (mkState l (localStorage st) (toasts st))
    end.
Proof.
  intros Hl. unfold init. unfold bind at 1. rewrite Hl.
  unfold bind at 1. unfold set_books at 1.
  unfold bind at 1. unfold lift at 1. simpl get_prop.
  destruct l as [|b l].
  - destruct SEED_DATA as [seed|]; reflexivity.
  - assert (E : strict_eq_num (JNum (Z.of_nat (length (b :: l)))) (Some 0) = false)
      by reflexivity.
    rewrite E. destruct SEED_DATA; reflexivity.
Qed.

Lemma final_refresh st :
  final (refresh redraw st) = Some st.
Proof. unfold refresh. destruct (redraw st); reflexivity. Qed.

(** X11.  [init], on a stored record that [loadBooks] reads as an array.  A
    record with books in it becomes the collection and nothing is written.
    When the array is empty, which is what [loadBooks] makes of a record
    that is absent, empty or unreadable, and what a record is after the last
    book was deleted, the seed data become the collection, are stored, and a
    welcome is shown; without seed data the collection stays empty.  Either
    way [init] goes on to draw the page. *)
Theorem init_loads_or_seeds (st : State) (l : list JSValue)
    (Hload : loadBooks st = Done (JArr l) st) :
  exists st',
    final (init SEED_DATA redraw st) = Some st'
    /\ match l, SEED_DATA with
       | [], Some seed =>
           books st' = seed
           /\ stored_books st' = Some (JSON.stringify (JArr seed))
           /\ toasts st' = (toasts st ++ [welcome])%list
       | _, _ =>
           books st' = l
           /\ localStorage st' = localStorage st
           /\ toasts st' = toasts st
       end.
Proof.
  rewrite (init_run st l Hload).
  destruct l as [|b l]; [destruct SEED_DATA as [seed|]|];
    rewrite final_refresh; eexists; (split; [reflexivity|]); simpl; auto.
  split; [reflexivity|]. split; [apply stored_saved|reflexivity].
Qed.

(** X12.  Reloading the page.  When the stored record is the text of the
    collection, [init] on the reloaded page brings back that very
    collection, same books in the same order, and writes nothing, provided
    the collection is not empty; an empty collection comes back as the seed
    data when there are seed data. *)
Theorem reload_restores_collection (st : State) (Hst : persisted st) :
  exists st',
    final (init SEED_DATA redraw (reloaded st)) = Some st'
    /\ books st' = match books st, SEED_DATA with
                   | [], Some seed => seed
                   | _, _ => books st
                   end
    /\ (books st <> [] ->
        localStorage st' = localStorage st /\ toasts st' = []).
Proof.
  rewrite (init_run _ _ (loadBooks_persisted st Hst)).
  destruct (books st) as [|b l]; [destruct SEED_DATA as [seed|]|];
    rewrite final_refresh; eexists; (split; [reflexivity|]); simpl;
    (split; [reflexivity|]); try congruence.
  intros _. split; reflexivity.
Qed.

End StartupRuns.

(** ** Escaping attribute values *)

Lemma replace_all_app c by_ a b :
  replace_all c by_ (a ++ b) = replace_all c by_ a ++ replace_all c by_ b.
Proof.
  induction a as [|x a IH]; simpl; [reflexivity|].
  now rewrite IH, append_assoc.
Qed.

Lemma escape_chain_unit x :
  replace_all ">" "&gt;"
    (replace_all "<" "&lt;"
       (replace_all "'" "&#39;"
          (replace_all dquote "&quot;"
             (if Ascii.eqb x "&" then "&amp;" else str1 x))))
  = escape_unit x.
Proof.
  unfold escape_unit.
  destruct (Ascii.eqb_spec x "&") as [->|_]; [reflexivity|].
  simpl.
  destruct (Ascii.eqb_spec x dquote) as [->|_]; [reflexivity|].
  simpl. unfold dquote. simpl.
  destruct (Ascii.eqb_spec x "'") as [->|_]; [reflexivity|].
  simpl.
  destruct (Ascii.eqb_spec x "<") as [->|_]; [reflexivity|].
  simpl.
  destruct (Ascii.eqb_spec x ">") as [->|_]; reflexivity.
Qed.

(** The five replacements of [escapeAttr], one after the other, amount to
    one pass over the characters. *)
Lemma escape_chain s :
  replace_all ">" "&gt;"
    (replace_all "<" "&lt;"
       (replace_all "'" "&#39;"
          (replace_all dquote "&quot;" (replace_all "&" "&amp;" s))))
  = String.concat EmptyString
      (map escape_unit (list_ascii_of_string s)).
Proof.
  induction s as [|x s IH]; [reflexivity|].
  cbn [replace_all list_ascii_of_string map String.concat].
  rewrite !replace_all_app, IH, escape_chain_unit.
  destruct (map escape_unit (list_ascii_of_string s)) eqn:E; simpl.
  - now rewrite append_nil_r.
  - reflexivity.
Qed.

Lemma escapeAttr_string s :
  escapeAttr (JStr s)
  = Ok (String.concat EmptyString (map escape_unit (list_ascii_of_string s))).
Proof.
  unfold escapeAttr. destruct s as [|x s]; [reflexivity|].
  cbn [truthy negb String.eqb]. now rewrite escape_chain.
Qed.

Lemma concat_cons_units x l :
  String.concat EmptyString (escape_unit x :: l)
  = escape_unit x ++ String.concat EmptyString l.
Proof. destruct l; simpl; [now rewrite append_nil_r|reflexivity]. Qed.

Lemma string_forall_app p a b :
  string_forall p (a ++ b) = string_forall p a && string_forall p b.
Proof.
  induction a as [|x a IH]; simpl; [reflexivity|].
  now rewrite IH, andb_assoc.
Qed.

Lemma escape_unit_safe x : string_forall attr_safe (escape_unit x) = true.
Proof.
  unfold escape_unit.
  destruct (Ascii.eqb_spec x "&") as [->|_]; [reflexivity|].
  destruct (Ascii.eqb x dquote) eqn:E1; [reflexivity|].
  destruct (Ascii.eqb x "'") eqn:E2; [reflexivity|].
  destruct (Ascii.eqb x "<") eqn:E3; [reflexivity|].
  destruct (Ascii.eqb x ">") eqn:E4; [reflexivity|].
  simpl. unfold attr_safe. now rewrite E1, E2, E3, E4.
Qed.

Lemma escape_unit_plain x : attr_plain x = true -> escape_unit x = str1 x.
Proof.
  unfold attr_plain, attr_safe, escape_unit.
  destruct (Ascii.eqb x "&"), (Ascii.eqb x dquote), (Ascii.eqb x "'"),
    (Ascii.eqb x "<"), (Ascii.eqb x ">"); simpl; congruence.
Qed.

(** X13.  [escapeAttr] on a text: the result holds no quote, no apostrophe
    and no angle bracket, so that it stays inside the attribute it is
    written into; a text without any of the five special characters comes
    back as it is.  A value that is no text is the empty text when falsy and
    a TypeError otherwise. *)
Theorem escapeAttr_output_is_safe (s : string) :
  exists t,
    escapeAttr (JStr s) = Ok t
    /\ string_forall attr_safe t = true
    /\ (string_forall attr_plain s = true -> t = s)
    /\ forall v, is_string v = false ->
         escapeAttr v = if truthy v then Throw TypeError else Ok EmptyString.
Proof.
  rewrite escapeAttr_string. eexists. split; [reflexivity|]. split; [|split].
  - induction s as [|x s IH]; [reflexivity|].
    cbn [list_ascii_of_string map]. rewrite concat_cons_units.
    now rewrite string_forall_app, escape_unit_safe, IH.
  - induction s as [|x s IH]; [reflexivity|].
    cbn [list_ascii_of_string map string_forall]. rewrite concat_cons_units.
    intros H. apply andb_true_iff in H as [Hx Hs].
    rewrite (escape_unit_plain x Hx), (IH Hs). reflexivity.
  - intros v Hv. unfold escapeAttr.
    destruct v; try discriminate; simpl; try reflexivity.
    + now destruct b.
    + now destruct (n =? 0).
Qed.

Lemma escape_unit_cases x :
  (attr_plain x = true /\ escape_unit x = str1 x)
  \/ exists c t, escape_unit x = String "&" (String c t)
                 /\ ((x = "&"%char /\ c = "a"%char)
                     \/ (x = dquote /\ c = "q"%char)
                     \/ (x = "'"%char /\ c = "#"%char)
                     \/ (x = "<"%char /\ c = "l"%char)
                     \/ (x = ">"%char /\ c = "g"%char))
                 /\ t = match escape_unit x with
                        | String _ (String _ t) => t
                        | _ => EmptyString
                        end.
Proof.
  unfold attr_plain, attr_safe, escape_unit.
  destruct (Ascii.eqb_spec x "&") as [->|_].
  { right. do 2 eexists. split; [reflexivity|]. split; [|reflexivity]. tauto. }
  destruct (Ascii.eqb_spec x dquote) as [->|_].
  { right. do 2 eexists. split; [reflexivity|]. split; [|reflexivity]. tauto. }
  destruct (Ascii.eqb_spec x "'") as [->|_].
  { right. do 2 eexists. split; [reflexivity|]. split; [|reflexivity]. tauto. }
  destruct (Ascii.eqb_spec x "<") as [->|_].
  { right. do 2 eexists. split; [reflexivity|]. split; [|reflexivity]. tauto. }
  destruct (Ascii.eqb_spec x ">") as [->|_].
  { right. do 2 eexists. split; [reflexivity|]. split; [|reflexivity]. tauto. }
  left. split; reflexivity.
Qed.

Lemma plain_not_amp x : attr_plain x = true -> x <> "&"%char.
Proof. intros H ->. discriminate H. Qed.

Lemma escape_unit_prefix x y r1 r2 :
  escape_unit x ++ r1 = escape_unit y ++ r2 -> x = y /\ r1 = r2.
Proof.
  destruct (escape_unit_cases x) as [[Hx Ex]|(c & t & Ex & Hc & _)],
    (escape_unit_cases y) as [[Hy Ey]|(d & u & Ey & Hd & _)];
    rewrite Ex, Ey; simpl; intros E.
  - injection E as -> ->. auto.
  - injection E as -> _. now apply plain_not_amp in Hx.
  - injection E as <- _. now apply plain_not_amp in Hy.
  - injection E as Hcd H. subst d.
    assert (x = y) as ->.
    { destruct Hc as [[-> ->]|[[-> ->]|[[-> ->]|[[-> ->]|[-> ->]]]]],
        Hd as [[-> Hd]|[[-> Hd]|[[-> Hd]|[[-> Hd]|[-> Hd]]]]];
        try reflexivity; discriminate Hd. }
    split; [reflexivity|].
    rewrite Ey in Ex. injection Ex as ->.
    clear -H. induction t as [|a t IH]; simpl in H; [exact H|].
    injection H as H. auto.
Qed.

(** X14.  [escapeAttr] loses nothing: two texts that escape to the same text
    are the same text. *)
Theorem escapeAttr_is_injective (s1 s2 : string)
    (Hsame : escapeAttr (JStr s1) = escapeAttr (JStr s2)) :
  s1 = s2.
Proof.
  rewrite !escapeAttr_string in Hsame. injection Hsame as H.
  revert s2 H. induction s1 as [|x s1 IH]; intros [|y s2] H.
  - reflexivity.
  - cbn [list_ascii_of_string map] in H. rewrite concat_cons_units in H.
    destruct (escape_unit_cases y) as [[_ E]|(c & t & E & _)];
      rewrite E in H; discriminate H.
  - cbn [list_ascii_of_string map] in H. rewrite concat_cons_units in H.
    destruct (escape_unit_cases x) as [[_ E]|(c & t & E & _)];
      rewrite E in H; discriminate H.
  - cbn [list_ascii_of_string map] in H. rewrite !concat_cons_units in H.
    apply escape_unit_prefix in H as [-> H]. now rewrite (IH _ H).
Qed.

(** ** Stars *)

(** X15.  [starsHtml] on a number: five stars, of which the first ones are
    filled, as many as the rating says; a rating below 1 fills none and a
    rating above 5 fills five, without adding or dropping a star, so that a
    rating out of range is drawn like the nearest rating in range. *)
Theorem stars_filled_up_to_rating (n : Z) :
  star_flags (JNum n)
  = Ok (repeat true (stars_filled n) ++ repeat false (5 - stars_filled n))%list
  /\ starsHtml (JNum n) = starsHtml (JNum (Z.of_nat (stars_filled n))).
Proof.
  assert (E : forall n, star_flags (JNum n)
    = Ok (repeat true (stars_filled n) ++ repeat false (5 - stars_filled n))%list).
  { clear n. intros n. unfold star_flags, le_number, stars_filled. simpl.
    destruct (Z.leb_spec 1 n), (Z.leb_spec 2 n), (Z.leb_spec 3 n),
      (Z.leb_spec 4 n), (Z.leb_spec 5 n); try lia.
    - replace (Z.to_nat (Z.max 0 (Z.min 5 n))) with 5%nat by lia. reflexivity.
    - replace (Z.to_nat (Z.max 0 (Z.min 5 n))) with 4%nat by lia. reflexivity.
    - replace (Z.to_nat (Z.max 0 (Z.min 5 n))) with 3%nat by lia. reflexivity.
    - replace (Z.to_nat (Z.max 0 (Z.min 5 n))) with 2%nat by lia. reflexivity.
    - replace (Z.to_nat (Z.max 0 (Z.min 5 n))) with 1%nat by lia. reflexivity.
    - replace (Z.to_nat (Z.max 0 (Z.min 5 n))) with 0%nat by lia. reflexivity. }
  split; [apply E|].
  unfold starsHtml. rewrite !E.
  replace (stars_filled (Z.of_nat (stars_filled n))) with (stars_filled n)
    by (unfold stars_filled; lia).
  reflexivity.
Qed.

(** ** The edit form *)

(** *** Trimming *)

Lemma trim_start_head s :
  trim_start s = EmptyString
  \/ exists c u, trim_start s = String c u /\ is_space c = false.
Proof.
  induction s as [|c s IH]; simpl; [now left|].
  destruct (is_space c) eqn:E; [exact IH|right; eauto].
Qed.

Lemma trim_end_idempotent s : trim_end (trim_end s) = trim_end s.
Proof.
  induction s as [|c s IH]; simpl; [reflexivity|].
  destruct (trim_end s) as [|d t] eqn:E.
  - destruct (is_space c) eqn:Ec; simpl; [reflexivity|now rewrite Ec].
  - change (trim_end (String c (String d t)))
      with (match trim_end (String d t) with
            | EmptyString => if is_space c then EmptyString else str1 c
            | x => String c x
            end).
    now rewrite IH.
Qed.

Lemma trim_end_head c u :
  is_space c = false ->
  exists t, trim_end (String c u) = String c t.
Proof.
  intros Hc. simpl. destruct (trim_end u); [rewrite Hc|]; eauto.
Qed.

Lemma trim_idempotent s : trim (trim s) = trim s.
Proof.
  unfold trim.
  destruct (trim_start_head s) as [->|(c & u & -> & Hc)]; [reflexivity|].
  destruct (trim_end_head c u Hc) as [t Et]. rewrite Et.
  simpl trim_start. rewrite Hc, <- Et. apply trim_end_idempotent.
Qed.

Lemma trim_space_first s : trim (String " " s) = trim s.
Proof. reflexivity. Qed.

Lemma string_forall_trim_start p s :
  string_forall p s = true -> string_forall p (trim_start s) = true.
Proof.
  induction s as [|c s IH]; simpl; [auto|].
  intros H. apply andb_true_iff in H as [Hc Hs].
  destruct (is_space c); [auto|]. simpl. now rewrite Hc, Hs.
Qed.

Lemma string_forall_trim_end p s :
  string_forall p s = true -> string_forall p (trim_end s) = true.
Proof.
  induction s as [|c s IH]; simpl; [auto|].
  intros H. apply andb_true_iff in H as [Hc Hs]. specialize (IH Hs).
  destruct (trim_end s).
  - destruct (is_space c); simpl; [reflexivity|now rewrite Hc].
  - cbn [string_forall] in *. now rewrite Hc, IH.
Qed.

Lemma string_forall_trim p s :
  string_forall p s = true -> string_forall p (trim s) = true.
Proof.
  intros H. unfold trim. now apply string_forall_trim_end, string_forall_trim_start.
Qed.

(** *** Splitting at commas *)

Lemma split_comma_cons s : exists x l, split_comma s = x :: l.
Proof.
  induction s as [|c s (x & l & IH)]; simpl; [eauto|].
  destruct (Ascii.eqb c ","); [eauto|]. rewrite IH. eauto.
Qed.

Lemma split_comma_pieces s :
  Forall (fun x => string_forall no_comma x = true) (split_comma s).
Proof.
  induction s as [|c s IH]; simpl; [repeat constructor|].
  destruct (Ascii.eqb c ",") eqn:E; [constructor; [reflexivity|exact IH]|].
  destruct (split_comma s) as [|x l]; [repeat constructor; simpl|].
  - unfold no_comma. now rewrite E.
  - inversion IH as [|? ? Hx Hl]; subst. constructor; [|exact Hl].
    simpl. unfold no_comma at 1. now rewrite E, Hx.
Qed.

Lemma split_comma_piece a b :
  string_forall no_comma a = true ->
  split_comma (a ++ String "," b) = a :: split_comma b.
Proof.
  induction a as [|c a IH]; simpl; [reflexivity|].
  intros H. apply andb_true_iff in H as [Hc Ha].
  unfold no_comma in Hc. apply negb_true_iff in Hc. rewrite Hc.
  now rewrite (IH Ha).
Qed.

Lemma split_comma_whole a :
  string_forall no_comma a = true -> split_comma a = [a].
Proof.
  induction a as [|c a IH]; simpl; [reflexivity|].
  intros H. apply andb_true_iff in H as [Hc Ha].
  unfold no_comma in Hc. apply negb_true_iff in Hc. rewrite Hc.
  now rewrite (IH Ha).
Qed.

Lemma texts_strings l : texts (map JStr l) = l.
Proof. induction l as [|x l IH]; simpl; [reflexivity|now rewrite IH]. Qed.

(** A tag as the form stores it: not empty, trimmed, without a comma. *)
Lemma tags_of_texts s :
  tags_of s = map JStr (texts (tags_of s))
  /\ Forall (fun t => nonempty t = true /\ trim t = t
                      /\ string_forall no_comma t = true)
       (texts (tags_of s)).
Proof.
  unfold tags_of. rewrite texts_strings. split; [reflexivity|].
  pose proof (split_comma_pieces s) as H.
  induction H as [|x l Hx _ IH]; simpl; [constructor|].
  destruct (nonempty (trim x)) eqn:E; [|exact IH].
  constructor; [|exact IH]. split; [exact E|].
  split; [apply trim_idempotent|now apply string_forall_trim].
Qed.

Lemma split_join_tags t ts :
  Forall (fun t => string_forall no_comma t = true) (t :: ts) ->
  split_comma (join ", " (t :: ts)) = t :: map (String " ") ts.
Proof.
  revert t. induction ts as [|u ts IH]; intros t H.
  - inversion H; subst. now apply split_comma_whole.
  - inversion H as [|? ? Ht Hts]; subst.
    change (join ", " (t :: u :: ts))
      with (t ++ String "," (String " " (join ", " (u :: ts)))).
    rewrite split_comma_piece by exact Ht.
    change (split_comma (String " " (join ", " (u :: ts))))
      with (match split_comma (join ", " (u :: ts)) with
            | [] => [str1 " "]
            | x :: l => String " " x :: l
            end).
    now rewrite (IH u Hts).
Qed.

Lemma array_join_strings sep ts :
  array_join sep (map JStr ts) = Ok (join sep ts).
Proof.
  unfold array_join.
  assert (E : mapM (fun x => match x with
                             | JUndefined | JNull => Ok EmptyString
                             | _ => to_string x
                             end) (map JStr ts) = Ok ts).
  { induction ts as [|t ts IH]; simpl; [reflexivity|]. now rewrite IH. }
  now rewrite E.
Qed.

Lemma tags_of_join ts :
  Forall (fun t => nonempty t = true /\ trim t = t
                   /\ string_forall no_comma t = true) ts ->
  tags_of (join ", " ts) = map JStr ts.
Proof.
  intros H. unfold tags_of. f_equal.
  destruct ts as [|t ts]; [reflexivity|].
  rewrite split_join_tags.
  2:{ eapply List.Forall_impl; [|exact H]. intros x Hx. apply Hx. }
  inversion H as [|? ? (Hn & Ht & _) Hts]; subst.
  cbn [map List.filter]. rewrite Ht, Hn. f_equal.
  clear -Hts. induction Hts as [|u ts (Hn & Ht & _) _ IH]; [reflexivity|].
  cbn [map List.filter]. rewrite trim_space_first, Ht, Hn. now rewrite IH.
Qed.

Lemma tags_control entered :
  exists shown,
    array_join ", " (tags_of entered) = Ok shown
    /\ tags_of shown = tags_of entered.
Proof.
  destruct (tags_of_texts entered) as [E H].
  exists (join ", " (texts (tags_of entered))). split.
  - rewrite E at 1. apply array_join_strings.
  - rewrite (tags_of_join _ H). now rewrite <- E.
Qed.

(** X16.  The tags of a book written by the form: each is a text that is not
    empty, is trimmed and holds no comma.  Shown in the edit form and read
    back, [openEditForm] joins them with a comma and a blank,
    [handleFormSubmit] splits the text at the commas, and the tags that come
    out are the tags that went in, for whatever text the tags were first
    entered as. *)
Theorem tags_survive_the_form (entered : string) :
  Forall (fun t => nonempty t = true /\ trim t = t
                   /\ string_forall no_comma t = true)
    (texts (tags_of entered))
  /\ exists shown,
       array_join ", " (tags_of entered) = Ok shown
       /\ tags_of shown = tags_of entered.
Proof.
  split; [apply tags_of_texts|apply tags_control].
Qed.

(** *** Numbers *)

Lemma of_uint_acc_value u p :
  Npos (Pos.of_uint_acc u p) = uint_value u (Npos p).
Proof.
  revert p. induction u; intros p; simpl; try reflexivity; rewrite IHu;
    f_equal; lia.
Qed.

Lemma of_uint_value u : N.of_uint u = uint_value u 0.
Proof.
  unfold N.of_uint.
  induction u; simpl; try reflexivity; try exact IHu;
    now rewrite of_uint_acc_value.
Qed.

Lemma digits_prefix_value u a :
  digits_prefix 10 (NilEmpty.string_of_uint u) (Some a)
  = Some (uint_value u a).
Proof.
  revert a. induction u; intros a; simpl; try reflexivity; rewrite IHu;
    do 2 f_equal; lia.
Qed.

Lemma digits_prefix_start u :
  u <> Decimal.Nil ->
  digits_prefix 10 (NilEmpty.string_of_uint u) None = Some (uint_value u 0).
Proof.
  destruct u; intros H; try congruence; simpl; rewrite digits_prefix_value;
    reflexivity.
Qed.

Lemma digits_render_N n : digits_prefix 10 (render_N n) None = Some n.
Proof.
  unfold render_N. rewrite digits_prefix_start.
  - now rewrite <- of_uint_value, DecimalN.Unsigned.of_to.
  - destruct n as [|p]; [discriminate|]. simpl.
    apply DecimalPos.Unsigned.to_uint_nonnil.
Qed.

Lemma render_N_shape n :
  exists c t, render_N n = String c t /\ is_digit c = true
              /\ match t with
                 | String d _ => is_digit d = true
                 | EmptyString => True
                 end.
Proof.
  pose proof (string_of_uint_digits (N.to_uint n)) as H.
  destruct (render_N_nonempty n) as (c & t & E).
  fold (render_N n) in H. rewrite E in H. simpl in H.
  apply andb_true_iff in H as [Hc Ht].
  exists c, t. split; [exact E|]. split; [exact Hc|].
  destruct t as [|d t]; [exact I|]. simpl in Ht.
  now apply andb_true_iff in Ht as [Hd _].
Qed.

Lemma parseInt_digits s c t :
  s = String c t -> is_digit c = true ->
  match t with String d _ => is_digit d = true | EmptyString => True end ->
  parseInt s
  = match digits_prefix 10 s None with
    | Some n => Some (Z.of_N n)
    | None => None
    end.
Proof.
  intros -> Hc Ht. unfold parseInt.
  assert (Hs : is_space c = false).
  { destruct c as [[] [] [] [] [] [] [] []]; try discriminate Hc; reflexivity. }
  simpl trim_start. rewrite Hs.
  destruct c as [[] [] [] [] [] [] [] []]; try discriminate Hc;
    try reflexivity.
  destruct t as [|d t]; [reflexivity|].
  destruct d as [[] [] [] [] [] [] [] []]; try discriminate Ht; reflexivity.
Qed.

Lemma parseInt_render_N n : parseInt (render_N n) = Some (Z.of_N n).
Proof.
  destruct (render_N_shape n) as (c & t & E & Hc & Ht).
  rewrite (parseInt_digits _ c t E Hc Ht). now rewrite digits_render_N.
Qed.

Lemma parseInt_render_Z n : parseInt (render_Z n) = Some n.
Proof.
  destruct n as [|p|p]; unfold render_Z.
  - apply (parseInt_render_N 0).
  - change (Z.to_N (Z.pos p)) with (N.pos p). apply (parseInt_render_N (N.pos p)).
  - pose proof (parseInt_render_N (N.pos p)) as H.
    destruct (render_N_shape (N.pos p)) as (c & t & E & Hc & Ht).
    rewrite (parseInt_digits _ c t E Hc Ht) in H.
    unfold parseInt. simpl trim_start. rewrite E. rewrite E in H.
    assert (Hx : match String c t with
                 | String "0" (String "x" s') => (16%N, s')
                 | String "0" (String "X" s') => (16%N, s')
                 | _ => (10%N, String c t)
                 end = (10%N, String c t)).
    { destruct c as [[] [] [] [] [] [] [] []]; try discriminate Hc;
        try reflexivity.
      destruct t as [|d t]; [reflexivity|].
      destruct d as [[] [] [] [] [] [] [] []]; try discriminate Ht; reflexivity. }
    rewrite Hx.
    destruct (digits_prefix 10 (String c t) None) as [m|]; [|discriminate].
    injection H as H. f_equal. lia.
Qed.

(** A number of the form, shown in its control and read back. *)
Lemma number_control s :
  exists shown,
    to_string (js_or (parseInt_or_null s) (JStr EmptyString)) = Ok shown
    /\ parseInt_or_null shown = parseInt_or_null s.
Proof.
  unfold parseInt_or_null at 1 3.
  destruct (parseInt s) as [n|]; [|exists EmptyString; split; reflexivity].
  destruct (Z.eqb_spec n 0) as [->|Hn]; [exists EmptyString; split; reflexivity|].
  exists (render_Z n). unfold js_or. simpl truthy.
  destruct (Z.eqb_spec n 0); [contradiction|]. split; [reflexivity|].
  unfold parseInt_or_null. rewrite parseInt_render_Z.
  destruct (Z.eqb_spec n 0); [contradiction|reflexivity].
Qed.

Lemma text_control s :
  to_string (js_or (JStr s) (JStr EmptyString)) = Ok s.
Proof.
  unfold js_or. simpl. destruct (String.eqb_spec s EmptyString); subst; reflexivity.
Qed.
Lemma status_control s :
  s <> EmptyString -> to_string (js_or (JStr s) (JStr "up-next")) = Ok s.
Proof.
  intros H. unfold js_or. simpl.
  destruct (String.eqb_spec s EmptyString); [contradiction|reflexivity].
Qed.

(** *** Opening the form and submitting it *)

Lemma openEditForm_bookData f id d :
  formStatus f <> EmptyString ->
  exists f',
    openEditForm (bookData f id d) = Ok f'
    /\ formBookId f' = id
    /\ bookData f' id d = bookData f id d.
Proof.
  intros Hs.
  destruct (number_control (formYear f)) as (year & Ey & Hy).
  destruct (number_control (formPages f)) as (pages & Ep & Hp).
  destruct (number_control (formCurrentPage f)) as (page & Ec & Hc).
  destruct (number_control (formRating f)) as (rating & Er & Hr).
  destruct (tags_control (formTags f)) as (tags & Et & Ht).
  unfold openEditForm, assigned, bookData.
  cbn [get_prop obj_get String.eqb Ascii.eqb Bool.eqb rbind to_string].
  repeat (rewrite ?text_control, ?Ey, ?Ep, ?Ec, ?Er, ?(status_control _ Hs);
          cbn [rbind js_or truthy]).
  rewrite Et. cbn [rbind].
  eexists. split; [reflexivity|]. split; [reflexivity|].
  cbn [formTitle formAuthor formGenre formYear formPages formCover formFormat
       formStatus formDatePurchased formDateStarted formDateCompleted
       formCurrentPage formRating formFavorite formTags formRecommendedBy
       formNotes formDescription].
  rewrite !trim_idempotent, Hy, Hp, Hc, Hr, Ht.
  now destruct (formFavorite f).
Qed.

Lemma set_nth_same l i x : nth_error l i = Some x -> set_nth l i x = l.
Proof.
  revert i. induction l as [|y l IH]; intros [|i] H; simpl in *;
    try discriminate.
  - now injection H as ->.
  - now rewrite (IH i H).
Qed.

Lemma dateAdded_of_bookData f id d :
  field (bookData f id d) "dateAdded" = d.
Proof. reflexivity. Qed.

(** X17.  Opening the edit form on a book that the form wrote, from controls
    whose numbers are safe integers, and submitting it without touching a
    control: every field is shown as a text that reads back as the value it
    had, so that the book is replaced by itself and the collection is as it
    was; when the handler runs to its end, the collection has been stored
    again.  The status has to be set, since an empty status is shown as Up
    Next, and the creation date as well. *)
Theorem untouched_edit_changes_nothing (redraw : State -> option Exn)
    (st : State) (i : nat) (f0 : BookForm) (id : string) (d : JSValue)
    (newId today : string)
    (Hid : id <> EmptyString)
    (Hstatus : formStatus f0 <> EmptyString)
    (Hdate : truthy d = true)
    (Hsafe : safe_form f0 = true)
    (Hfound : findIndex id (books st) = Ok (Some i))
    (Hbook : nth_error (books st) i = Some (bookData f0 id d)) :
  exists f st',
    openEditForm (bookData f0 id d) = Ok f
    /\ final (handleFormSubmit redraw f newId today st) = Some st'
    /\ books st' = books st
    /\ (handleFormSubmit redraw f newId today st = Done tt st' ->
        stored_books st' = Some (JSON.stringify (JArr (books st)))).
Proof.
  destruct (openEditForm_bookData f0 id d Hstatus) as (f & Ef & Hfid & Hsame).
  assert (Hne : nonempty (formBookId f) = true).
  { rewrite Hfid. unfold nonempty. apply negb_true_iff.
    now apply String.eqb_neq. }
  rewrite <- Hfid in Hfound.
  pose proof (handleFormSubmit_edit redraw f newId today st i _ Hne Hfound Hbook)
    as Erun.
  rewrite dateAdded_of_bookData in Erun. unfold js_or in Erun.
  rewrite Hdate, Hfid, Hsame, (set_nth_same _ _ _ Hbook) in Erun.
  exists f. unfold after_refresh in Erun.
  destruct (redraw (saved (books st) st)); eexists;
    (split; [exact Ef|]); rewrite Erun;
    (split; [reflexivity|]); (split; [reflexivity|]);
    intros _; rewrite ?stored_notify; apply stored_saved.
Qed.

(** ** Deleting *)

Lemma keeps_other_field id b :
  loose_eq_null b = false -> keeps_other id b = Ok (other_id id b).
Proof.
  intros Hb. unfold keeps_other, other_id. now rewrite (get_prop_field b _ Hb).
Qed.

Lemma findIndex_none id l :
  Forall (fun b => loose_eq_null b = false) l ->
  findIndex id (List.filter (other_id id) l) = Ok None.
Proof.
  induction 1 as [|b l Hb _ IH]; simpl; [reflexivity|].
  destruct (other_id id b) eqn:E; [|exact IH].
  simpl. rewrite (get_prop_field b _ Hb). simpl.
  unfold other_id in E. apply negb_true_iff in E. rewrite E, IH. reflexivity.
Qed.

Lemma findIndex_hit id l i :
  Forall (fun b => loose_eq_null b = false) l ->
  findIndex id l = Ok (Some i) ->
  (length (List.filter (other_id id) l) < length l)%nat.
Proof.
  intros Hl. revert i. induction Hl as [|b l Hb _ IH]; simpl; intros i H;
    [discriminate|].
  rewrite (get_prop_field b _ Hb) in H. simpl in H.
  unfold other_id at 1.
  destruct (strict_eq_str (field b "id") id); simpl.
  - pose proof (List.filter_length_le (other_id id) l). lia.
  - destruct (findIndex id l) as [[j|]| |]; simpl in H; try discriminate.
    specialize (IH j eq_refl). lia.
Qed.

(** X18.  Deleting the book shown in the detail dialog, from a collection
    without [null] entries: every book with that id goes, the other books
    stay as they are and in their order, the collection gets shorter and is
    stored; no book answers to the id afterwards, so that deleting it once
    more changes nothing. *)
Theorem delete_removes_the_id (redraw : State -> option Exn) (st : State)
    (id : string) (i : nat)
    (Hbooks : Forall (fun b => loose_eq_null b = false) (books st))
    (Hfound : findIndex id (books st) = Ok (Some i)) :
  exists st',
    final (deleteBook redraw id st) = Some st'
    /\ books st' = List.filter (other_id id) (books st)
    /\ (length (books st') < length (books st))%nat
    /\ stored_books st' = Some (JSON.stringify (JArr (books st')))
    /\ findIndex id (books st') = Ok None
    /\ deleteBook redraw id st' = Done tt st'.
Proof.
  assert (Hk : filterM (keeps_other id) (books st)
               = Ok (List.filter (other_id id) (books st))).
  { apply filterM_pure. eapply List.Forall_impl; [|exact Hbooks].
    intros b. apply keeps_other_field. }
  rewrite (deleteBook_run redraw id st i _ Hfound Hk).
  pose proof (findIndex_none id _ Hbooks) as Hnone.
  pose proof (findIndex_hit id _ i Hbooks Hfound) as Hlen.
  unfold after_refresh.
  destruct (redraw (saved (List.filter (other_id id) (books st)) st));
    eexists; (split; [reflexivity|]); (split; [reflexivity|]);
    (split; [exact Hlen|]);
    (split; [rewrite ?stored_notify; apply stored_saved|]);
    (split; [exact Hnone|]);
    unfold deleteBook, bind, get_books, lift; simpl books; now rewrite Hnone.
Qed.

(** ** What an import reports *)

Lemma filterM_all_skipped ids items :
  Forall (fun x => exists i, get_prop x "id" = Ok i /\ set_has ids i = true)
    items ->
  filterM (fun b => i <- get_prop b "id" ;; Ok (negb (set_has ids i))) items
  = Ok [].
Proof.
  induction 1 as [|x l (i & Hi & Hs) _ IH]; simpl; [reflexivity|].
  now rewrite Hi, IH; simpl; rewrite Hs.
Qed.

(** X19.  An import in merge mode reports the number of books in the file,
    not the number it added: when every book of the file has an id that is
    in the collection already, nothing is added, the collection is as it
    was, and the notification still says that all of them were imported. *)
Theorem merge_import_reports_file_size (redraw : State -> option Exn)
    (f : ImportForm) (st : State) (items : list JSValue) (ids : list JSValue)
    (Hparse : JSON.parse (import_text f) = Ok (JArr items))
    (Hmode : importReplace f = false)
    (Hids : mapM (fun b => get_prop b "id") (books st) = Ok ids)
    (Hknown : Forall (fun x => exists i, get_prop x "id" = Ok i
                                         /\ set_has ids i = true) items)
    (Hdrawn : redraw (saved (books st) st) = None) :
  exists st',
    doImport redraw f st = Done tt st'
    /\ books st' = books st
    /\ toasts st'
       = (toasts st ++ [import_done items])%list.
Proof.
  assert (Em : merge (books st) items = Ok (books st)).
  { unfold merge. rewrite Hids. simpl.
    rewrite (filterM_all_skipped ids items Hknown). simpl.
    now rewrite app_nil_r. }
  exists (notify (import_done items) (saved (books st) st)).
  split; [|split; reflexivity].
  transitivity
    (try_ (set_books (books st) ;;; saveBooks ;;; refresh redraw ;;;
           showToast (import_done items))
          (fun _ => showToast import_failed) st).
  - unfold doImport. rewrite (import_source_parsed _ _ Hparse).
    unfold try_, bind, lift, get_books. rewrite Hparse, Hmode, Em.
    reflexivity.
  - unfold try_. rewrite saveBooks_refresh_toast. unfold after_refresh.
    now rewrite Hdrawn.
Qed.

(** X20.  The notification of a failed import does not tell that nothing
    changed.  When the file is a valid array and the page fails to redraw
    after the collection was replaced, [doImport] ends with the collection
    replaced and stored, and reports invalid JSON. *)
Theorem failed_import_notice_after_replacement
    (redraw : State -> option Exn) (f : ImportForm) (st : State)
    (items : list JSValue) (e : Exn)
    (Hparse : JSON.parse (import_text f) = Ok (JArr items))
    (Hmode : importReplace f = true)
    (Hdrawn : redraw (saved items st) = Some e) :
  exists st',
    doImport redraw f st = Done tt st'
    /\ books st' = items
    /\ stored_books st' = Some (JSON.stringify (JArr items))
    /\ toasts st' = (toasts st ++ [import_failed])%list.
Proof.
  exists (notify import_failed (saved items st)).
  split; [|split; [reflexivity|split; [|reflexivity]]].
  - transitivity
      (try_ (set_books items ;;; saveBooks ;;; refresh redraw ;;;
             showToast (import_done items))
            (fun _ => showToast import_failed) st).
    + unfold doImport. rewrite (import_source_parsed _ _ Hparse).
      unfold try_, bind, lift. rewrite Hparse, Hmode. reflexivity.
    + unfold try_. rewrite saveBooks_refresh_toast. unfold after_refresh.
      now rewrite Hdrawn.
  - rewrite stored_notify. apply stored_saved.
Qed.

(** ** A cover record of the wrong shape *)

Lemma uint_of_string_bar t r :
  NilEmpty.uint_of_string (t ++ String "|" r) = None.
Proof.
  induction t as [|c t IH]; simpl.
  - now destruct (NilEmpty.uint_of_string r).
  - now rewrite IH.
Qed.

Lemma cover_key_no_index t a : N_of_numeral (t ++ "|||" ++ a) = None.
Proof.
  unfold N_of_numeral.
  change (t ++ "|||" ++ a) with (t ++ String "|" ("||" ++ a)).
  now rewrite uint_of_string_bar.
Qed.

Lemma cover_key_not_length t a :
  String.eqb (t ++ "|||" ++ a) "length" = false.
Proof.
  apply String.eqb_neq. intros E.
  apply (f_equal (string_forall (fun c => negb (Ascii.eqb c "|")))) in E.
  rewrite string_forall_app in E. simpl in E.
  rewrite andb_false_r in E. discriminate E.
Qed.

Lemma js_in_array book key l :
  cover_key book = Ok key -> js_in key (JArr l) = Ok false.
Proof.
  intros Hk. destruct (cover_key_parts _ _ Hk) as (t & a & _ & _ & ->).
  unfold js_in. now rewrite cover_key_not_length, cover_key_no_index.
Qed.

Lemma with_covers_twice cache st :
  with_covers cache (with_covers cache st) = with_covers cache st.
Proof. unfold with_covers. simpl. now rewrite insert_insert_eq. Qed.

Lemma card_cover_array book st l key c :
  get_prop book "coverImage" = Ok c -> truthy c = false ->
  loadCoverCache st = Done (JArr l) st ->
  cover_key book = Ok key ->
  createBookCard_cover book st = Done (CoverPlaceholder true) st.
Proof.
  intros Hc Hf Hl Hk. pose proof (js_in_array book key l Hk) as Hin.
  destruct (cover_key_parts _ _ Hk) as (title & author & Ht & Ha & Ek).
  unfold createBookCard_cover.
  unfold bind at 1. unfold lift at 1. rewrite Hc, Hf.
  unfold bind at 1. rewrite Hl.
  unfold bind at 1. unfold lift at 1. rewrite Ht.
  unfold bind at 1. unfold lift at 1. rewrite Ha.
  cbv zeta. rewrite <- Ek.
  unfold bind at 1. unfold lift at 1. rewrite Hin. reflexivity.
Qed.

(** X21.  When the cover record holds an array, which [loadCoverCache]
    accepts like any other JSON value, nothing is ever remembered: a lookup
    stores its result as a named property of the array, which the stored
    text leaves out, so that the record is the same after the lookup, the
    next lookup for the same book goes to the network again, and the card of
    the book stays marked for a lookup. *)
Theorem array_cover_record_remembers_nothing (net : Network)
    (book : JSValue) (st : State) (l : list JSValue) (key : string)
    (r : JSValue * list string) (st1 : State)
    (Hcache : loadCoverCache st = Done (JArr l) st)
    (Hkey : cover_key book = Ok key)
    (Hdone : fetchCoverForBook net book st = Done r st1) :
  st1 = with_covers (JArr l) st
  /\ loadCoverCache st1 = Done (JArr l) st1
  /\ (forall again,
        fetchCoverForBook again book st1
        = match strategies again book with
          | Ok r2 => Done r2 st1
          | Throw e => Uncaught e st1
          | Beyond => Unmodelled
          end)
  /\ forall c, get_prop book "coverImage" = Ok c -> truthy c = false ->
       createBookCard_cover book st1 = Done (CoverPlaceholder true) st1.
Proof.
  pose proof (js_in_array book key l Hkey) as Hin.
  rewrite (fetch_miss net book st (JArr l) key Hcache Hkey Hin) in Hdone.
  destruct (strategies net book) as [r'| |]; try discriminate.
  injection Hdone as <- <-. simpl put_entry.
  destruct (loadCoverCache_json _ _ _ Hcache) as [_ Hok].
  assert (Hl1 : loadCoverCache (with_covers (JArr l) st)
                = Done (JArr l) (with_covers (JArr l) st))
    by (apply loadCoverCache_saved; [exact Hok|reflexivity]).
  split; [reflexivity|]. split; [exact Hl1|]. split.
  - intros again.
    rewrite (fetch_miss again book _ (JArr l) key Hl1 Hkey Hin).
    simpl put_entry. now rewrite with_covers_twice.
  - intros c Hc Hf. exact (card_cover_array book _ l key c Hc Hf Hl1 Hkey).
Qed.

(** X22.  When the cover record holds a number, a text or [true],
    [loadCoverCache] hands it out as the cache, and asking whether a key is
    in it is a TypeError: every lookup throws before any request, and so
    does the drawing of every card that has no cover of its own. *)
Theorem primitive_cover_record_throws (net : Network) (book : JSValue)
    (st : State) (cache : JSValue) (key : string)
    (Hcache : loadCoverCache st = Done cache st)
    (Hprim : is_primitive cache = true)
    (Hkey : cover_key book = Ok key) :
  fetchCoverForBook net book st = Uncaught TypeError st
  /\ forall c, get_prop book "coverImage" = Ok c -> truthy c = false ->
       createBookCard_cover book st = Uncaught TypeError st.
Proof.
  assert (Hin : js_in key cache = Throw TypeError)
    by (destruct cache; try discriminate; reflexivity).
  destruct (cover_key_parts _ _ Hkey) as (title & author & Ht & Ha & Ek).
  split.
  - unfold fetchCoverForBook.
    unfold bind at 1. rewrite Hcache.
    unfold bind at 1. unfold lift at 1. rewrite Ht.
    unfold bind at 1. unfold lift at 1. rewrite Ha.
    cbv zeta. rewrite <- Ek.
    unfold bind at 1. unfold lift at 1. now rewrite Hin.
  - intros c Hc Hf. unfold createBookCard_cover.
    unfold bind at 1. unfold lift at 1. rewrite Hc, Hf.
    unfold bind at 1. rewrite Hcache.
    unfold bind at 1. unfold lift at 1. rewrite Ht.
    unfold bind at 1. unfold lift at 1. rewrite Ha.
    cbv zeta. rewrite <- Ek.
    unfold bind at 1. unfold lift at 1. now rewrite Hin.
Qed.

(** ** What a cover lookup leaves alone *)

Lemma loadCoverCache_ends st :
  (exists cache, loadCoverCache st = Done cache st)
  \/ loadCoverCache st = Unmodelled.
Proof.
  pose proof (loadCoverCache_cases st) as H.
  destruct (JSON.parse _); eauto.
Qed.

Lemma books_with_covers cache st :
  books (with_covers cache st) = books st
  /\ stored_books (with_covers cache st) = stored_books st
  /\ toasts (with_covers cache st) = toasts st.
Proof.
  split; [reflexivity|]. split; [|reflexivity].
  unfold stored_books, with_covers. simpl. now apply lookup_insert_ne.
Qed.

Lemma fetch_final net book st st1 :
  final (fetchCoverForBook net book st) = Some st1 ->
  st1 = st \/ exists cache, st1 = with_covers cache st.
Proof.
  destruct (loadCoverCache_ends st) as [[cache Hl]|Hl].
  2:{ unfold fetchCoverForBook. unfold bind at 1. rewrite Hl. discriminate. }
  destruct (cover_key book) as [key| |] eqn:Hk.
  - destruct (js_in key cache) as [[]| |] eqn:Hin.
    + assert (Hv : exists v, get_prop cache key = Ok v).
      { destruct cache; try discriminate Hin; simpl; [|eauto].
        destruct (String.eqb key "length"); [eauto|].
        destruct (N_of_numeral key); eauto. }
      destruct Hv as [v Hv].
      rewrite (fetch_hit net book st cache key v Hl Hk Hin Hv).
      intros [= <-]. now left.
    + rewrite (fetch_miss net book st cache key Hl Hk Hin).
      destruct (strategies net book); simpl; intros [= <-]; eauto.
    + destruct (cover_key_parts _ _ Hk) as (title & author & Ht & Ha & Ek).
      unfold fetchCoverForBook.
      unfold bind at 1. rewrite Hl.
      unfold bind at 1. unfold lift at 1. rewrite Ht.
      unfold bind at 1. unfold lift at 1. rewrite Ha.
      cbv zeta. rewrite <- Ek.
      unfold bind at 1. unfold lift at 1. rewrite Hin.
      intros [= <-]. now left.
    + destruct cache; discriminate Hin.
  - unfold cover_key in Hk. unfold fetchCoverForBook.
    unfold bind at 1. rewrite Hl.
    unfold bind at 1. unfold lift at 1.
    destruct (t <- get_prop book "title" ;; to_string t) as [title| |];
      try (intros [= <-]; now left); try discriminate.
    unfold bind at 1. unfold lift at 1.
    destruct (a <- get_prop book "author" ;; to_string a) as [author| |];
      try (intros [= <-]; now left); try discriminate.
  - unfold cover_key in Hk. unfold fetchCoverForBook.
    unfold bind at 1. rewrite Hl.
    unfold bind at 1. unfold lift at 1.
    destruct (t <- get_prop book "title" ;; to_string t) as [title| |];
      try (intros [= <-]; now left); try discriminate.
    unfold bind at 1. unfold lift at 1.
    destruct (a <- get_prop book "author" ;; to_string a) as [author| |];
      try (intros [= <-]; now left); try discriminate.
Qed.

(** X23.  A cover lookup, however it ends, leaves the collection, the stored
    record of the collection and the notifications as they were: the record
    of the covers is all it may write. *)
Theorem cover_lookup_leaves_collection_alone (net : Network)
    (book : JSValue) (st st1 : State)
    (Hend : final (fetchCoverForBook net book st) = Some st1) :
  books st1 = books st
  /\ stored_books st1 = stored_books st
  /\ toasts st1 = toasts st.
Proof.
  destruct (fetch_final net book st st1 Hend) as [->|[cache ->]];
    [auto|apply books_with_covers].
Qed.

(** ** Adding, then finding *)

Lemma index_of_app_left id ids more i :
  index_of id ids = Some i -> index_of id (ids ++ more) = Some i.
Proof.
  revert i. induction ids as [|x ids IH]; intros i H; simpl in *;
    [discriminate|].
  destruct (String.eqb x id); [exact H|].
  destruct (index_of id ids) as [j|]; [|discriminate].
  now rewrite (IH j eq_refl).
Qed.

Lemma index_of_app_new id ids :
  ~ In id ids -> index_of id (ids ++ [id]) = Some (length ids).
Proof.
  induction ids as [|x ids IH]; intros Hn; simpl.
  - now rewrite String.eqb_refl.
  - destruct (String.eqb_spec x id) as [->|_]; [exfalso; apply Hn; now left|].
    rewrite IH; [reflexivity|]. intros Hin. apply Hn. now right.
Qed.

Lemma id_string_bookData f id d : id_string (bookData f id d) = Some id.
Proof. reflexivity. Qed.

(** X24.  Adding a book, to a collection in which every book has a text for
    an id, none of them the generated one: the new book goes last, carries
    the generated id and the date of the day, and is the book that its id
    finds; every id that found a book before finds it at the same place
    afterwards. *)
Theorem added_book_is_found (redraw : State -> option Exn) (st : State)
    (f : BookForm) (newId today : string) (ids : list string)
    (Hadd : formBookId f = EmptyString)
    (Hids : all_ids (books st) = Some ids)
    (Hfresh : id_fresh newId (books st) = true) :
  let added := bookData f newId (JStr today) in
  exists st',
    final (handleFormSubmit redraw f newId today st) = Some st'
    /\ books st' = (books st ++ [added])%list
    /\ find newId (books st') = Ok (Some added)
    /\ field added "id" = JStr newId
    /\ field added "dateAdded" = JStr today
    /\ forall id i, findIndex id (books st) = Ok (Some i) ->
         findIndex id (books st') = Ok (Some i).
Proof.
  intros added.
  rewrite (handleFormSubmit_add redraw f newId today st Hadd). fold added.
  destruct (final_after_refresh redraw "Book added"
              (saved (books st ++ [added]) st)) as (st' & E & Hb & _).
  exists st'. split; [exact E|]. rewrite Hb. simpl books.
  assert (Hall : all_ids (books st ++ [added]) = Some (ids ++ [newId])%list).
  { rewrite all_ids_app, Hids. reflexivity. }
  pose proof (id_fresh_not_in _ _ _ Hids Hfresh) as Hnot.
  assert (Hlen : length ids = length (books st)).
  { clear -Hids. revert ids Hids.
    induction (books st) as [|b l IH]; intros ids H; simpl in H.
    - now injection H as <-.
    - destruct (id_string b); [|discriminate].
      destruct (all_ids l) as [ids'|]; [|discriminate].
      injection H as <-. simpl. now rewrite (IH ids' eq_refl). }
  split; [reflexivity|]. split; [|split; [reflexivity|split; [reflexivity|]]].
  - unfold find. rewrite (findIndex_ids _ _ _ Hall), (index_of_app_new _ _ Hnot).
    simpl. rewrite Hlen, nth_error_app2, Nat.sub_diag by lia. reflexivity.
  - intros id i Hi. rewrite (findIndex_ids _ _ _ Hids) in Hi.
    injection Hi as Hi. rewrite (findIndex_ids _ _ _ Hall).
    now rewrite (index_of_app_left _ _ _ _ Hi).
Qed.

(** ** A status that is none of the five *)

Lemma strict_eq_str_outside v s :
  match v with JStr x => existsb (String.eqb x) STATUSES | _ => false end
  = false ->
  In s STATUSES -> strict_eq_str v s = false.
Proof.
  intros Hv Hs. destruct v as [| | | |x| |]; try reflexivity. simpl.
  destruct (String.eqb_spec x s) as [->|]; [|reflexivity].
  rewrite <- Hv. symmetry. apply existsb_exists. exists s.
  split; [exact Hs|apply String.eqb_refl].
Qed.

(** X25.  A book whose status is none of the five, as an import may bring
    it, is listed in none of the six sections, whatever its other fields
    are, while the header still counts it among the books. *)
Theorem unknown_status_is_listed_nowhere (filtered : list JSValue)
    (Hbooks : Forall (fun b => loose_eq_null b = false
                               /\ status_in_enum b = false) filtered) :
  renderAll_buckets filtered = Ok (mkBuckets [] [] [] [] [] [])
  /\ updateStats filtered = Ok (mkStats (length filtered) 0 0).
Proof.
  assert (Hnone : forall (p : JSValue -> Result bool) (g : JSValue -> bool),
            (forall b, loose_eq_null b = false -> p b = Ok (g b)) ->
            (forall b, status_in_enum b = false -> g b = false) ->
            filterM p filtered = Ok []).
  { intros p g Hp Hg. induction Hbooks as [|b l [Hb Hs] _ IH]; simpl;
      [reflexivity|].
    now rewrite (Hp b Hb), IH, (Hg b Hs). }
  assert (Hout : forall s b, In s STATUSES -> status_in_enum b = false ->
                             status_is s b = false).
  { intros s b Hs Hb. apply strict_eq_str_outside; [exact Hb|exact Hs]. }
  assert (Hst : forall s, In s STATUSES ->
                          filterM (has_status s) filtered = Ok []).
  { intros s Hs. apply (Hnone _ _ (has_status_field s)).
    intros b Hb. now apply Hout. }
  unfold renderAll_buckets, updateStats.
  rewrite (Hnone _ _ is_top_pick_field).
  2:{ intros b Hb. rewrite (Hout "finished" b); [apply andb_false_r| |exact Hb].
      simpl. tauto. }
  rewrite (Hnone _ _ is_plain_finished_field).
  2:{ intros b Hb. rewrite (Hout "finished" b); [reflexivity| |exact Hb].
      simpl. tauto. }
  rewrite !Hst by (simpl; tauto). split; reflexivity.
Qed.

(** ** The further properties on sample data *)

Lemma inactive_filter_keeps_every_book_witness :
  isFilterActive by_rating = false
  /\ filterM (filter_callback (query_of by_rating) by_rating) [JNull; dune]
     = Ok [JNull; dune].
Proof.
  assert (H : isFilterActive by_rating = false) by reflexivity.
  split; [exact H|].
  exact (proj1 (@inactive_filter_keeps_every_book code_unit_collation
                  by_rating [JNull; dune] H)).
Defined.

Lemma stats_agree_with_sections_witness :
  Forall (fun b => sortable b = true) library
  /\ isFilterActive by_rating = false
  /\ exists S, updateStats library = Ok S
               /\ statBooks S = 4%nat /\ statRead S = 4%nat
               /\ statReading S = 0%nat.
Proof.
  assert (H1 : Forall (fun b => sortable b = true) library)
    by (repeat constructor).
  assert (H2 : isFilterActive by_rating = false) by reflexivity.
  split; [exact H1|]. split; [exact H2|].
  destruct (@stats_agree_with_sections code_unit_collation by_rating library
              H1 H2) as (filtered & B & S & _ & _ & ES & _).
  exists S. split; [exact ES|].
  vm_compute in ES. injection ES as <-. repeat split.
Defined.

Lemma list_view_sorted_by_column_witness :
  Forall (fun b => listable b = true) library
  /\ exists sorted,
       renderList_sorted by_rating_desc library = Ok sorted
       /\ sorted = [ulysses; dune; walden; emma].
Proof.
  assert (H : Forall (fun b => listable b = true) library)
    by (repeat constructor).
  split; [exact H|].
  destruct (@list_view_sorted_by_column code_unit_collation by_rating_desc
              library H) as (sorted & E & _).
  exists sorted. split; [exact E|].
  vm_compute in E. now injection E as <-.
Defined.

Lemma grid_sort_by_missing_text_throws_witness :
  (sort_key by_title = "title" \/ sort_key by_title = "author")
  /\ filterM (filter_callback (query_of by_title) by_title)
       [untitled1; untitled2] = Ok [untitled1; untitled2]
  /\ (2 <= length [untitled1; untitled2])%nat
  /\ Forall (fun b => is_string (field b (sort_key by_title)) = false)
       [untitled1; untitled2]
  /\ getFilteredBooks by_title [untitled1; untitled2] = Throw TypeError.
Proof.
  assert (H1 : sort_key by_title = "title" \/ sort_key by_title = "author")
    by (left; reflexivity).
  assert (H2 : filterM (filter_callback (query_of by_title) by_title)
                 [untitled1; untitled2] = Ok [untitled1; untitled2])
    by reflexivity.
  assert (H3 : (2 <= length [untitled1; untitled2])%nat) by (simpl; lia).
  assert (H4 : Forall (fun b => is_string (field b (sort_key by_title)) = false)
                 [untitled1; untitled2]) by (repeat constructor).
  split; [exact H1|]. split; [exact H2|]. split; [exact H3|].
  split; [exact H4|].
  exact (@grid_sort_by_missing_text_throws code_unit_collation by_title
           [untitled1; untitled2] [untitled1; untitled2] H1 H2 H3 H4).
Defined.

Lemma cover_lookup_requests_witness :
  loadCoverCache empty_state = Done (JObj []) empty_state
  /\ cover_key dune = Ok "Dune|||Frank Herbert"
  /\ js_in "Dune|||Frank Herbert" (JObj []) = Ok false
  /\ exists r st1,
       fetchCoverForBook online dune empty_state = Done r st1
       /\ length (snd r) = 1%nat /\ truthy (fst r) = true.
Proof.
  assert (H1 : loadCoverCache empty_state = Done (JObj []) empty_state)
    by reflexivity.
  assert (H2 : cover_key dune = Ok "Dune|||Frank Herbert") by reflexivity.
  assert (H3 : js_in "Dune|||Frank Herbert" (JObj []) = Ok false)
    by reflexivity.
  split; [exact H1|]. split; [exact H2|]. split; [exact H3|].
  destruct (cover_lookup_requests online dune empty_state _ _ H1 H2 H3)
    as (u1 & u2 & u3 & _ & _ & _ & _ & Hdone).
  destruct (fetchCoverForBook online dune empty_state) as [r st1| |] eqn:E;
    try (vm_compute in E; discriminate E).
  exists r, st1. split; [reflexivity|].
  destruct (Hdone r st1 eq_refl) as (_ & _ & Hreq).
  vm_compute in E. injection E as <- _. split; reflexivity.
Defined.

Lemma offline_lookup_caches_not_found_witness :
  loadCoverCache empty_state = Done (JObj []) empty_state
  /\ cover_key dune = Ok "Dune|||Frank Herbert"
  /\ obj_get [] "Dune|||Frank Herbert" = None
  /\ (forall url, exists e, offline url = Throw e)
  /\ exists fl st2,
       step (Call offline dune) (empty_state, []) = Some (empty_state, [fl])
       /\ answer fl = JNull /\ length (requests fl) = 3%nat
       /\ run [Return 0; Call online emma; Return 0] (shelf_state, [fl])
          = Some (st2, [])
       /\ fetchCoverForBook online dune st2 = Done (JNull, []) st2.
Proof.
  assert (H1 : loadCoverCache empty_state = Done (JObj []) empty_state)
    by reflexivity.
  assert (H2 : cover_key dune = Ok "Dune|||Frank Herbert") by reflexivity.
  assert (H3 : obj_get [] "Dune|||Frank Herbert" = None) by reflexivity.
  assert (H4 : forall url, exists e, offline url = Throw e)
    by (intros url; exists NetworkError; reflexivity).
  split; [exact H1|]. split; [exact H2|]. split; [exact H3|].
  split; [exact H4|].
  destruct (offline_lookup_caches_not_found offline online dune empty_state
              [] _ H1 H2 H3 H4)
    as (u1 & u2 & u3 & _ & _ & _ & Hcall & Hlater).
  set (fl := mkFlight (JObj []) "Dune|||Frank Herbert" JNull [u1; u2; u3])
    in *.
  destruct (run [Return 0; Call online emma; Return 0] (shelf_state, [fl]))
    as [[st2 fls]|] eqn:R; [|vm_compute in R; discriminate R].
  assert (Hfls : fls = []) by (vm_compute in R; now injection R as _ <-).
  subst fls.
  exists fl, st2. split; [exact Hcall|]. split; [reflexivity|].
  split; [reflexivity|]. split; [exact R|].
  exact (Hlater shelf_state _ st2 [] R).
Defined.

Lemma card_marked_until_looked_up_witness :
  get_prop dune "coverImage" = Ok JUndefined
  /\ truthy JUndefined = false
  /\ loadCoverCache empty_state = Done (JObj []) empty_state
  /\ cover_key dune = Ok "Dune|||Frank Herbert"
  /\ createBookCard_cover dune empty_state
     = Done (CoverPlaceholder true) empty_state
  /\ exists fl st2,
       step (Call offline dune) (empty_state, []) = Some (empty_state, [fl])
       /\ run [Return 0; Call online emma; Return 0] (empty_state, [fl])
          = Some (st2, [])
       /\ createBookCard_cover dune st2 = Done (CoverPlaceholder false) st2.
Proof.
  assert (H1 : get_prop dune "coverImage" = Ok JUndefined) by reflexivity.
  assert (H2 : truthy JUndefined = false) by reflexivity.
  assert (H3 : loadCoverCache empty_state = Done (JObj []) empty_state)
    by reflexivity.
  assert (H4 : cover_key dune = Ok "Dune|||Frank Herbert") by reflexivity.
  split; [exact H1|]. split; [exact H2|]. split; [exact H3|].
  split; [exact H4|].
  destruct (card_marked_until_looked_up dune empty_state [] _ _ H1 H2 H3 H4)
    as [Hmark Hafter].
  split; [exact (proj2 Hmark eq_refl)|].
  destruct (strategies offline dune) as [r| |] eqn:Es;
    try (vm_compute in Es; discriminate Es).
  destruct (Hafter offline r eq_refl Es) as [Hcall Hlater].
  assert (Hr : fst r = JNull)
    by (vm_compute in Es; now injection Es as <-).
  set (fl := mkFlight (JObj []) "Dune|||Frank Herbert" (fst r) (snd r)) in *.
  destruct (run [Return 0; Call online emma; Return 0] (empty_state, [fl]))
    as [[st2 fls]|] eqn:R.
  - assert (Hfls : fls = []).
    { unfold fl in R. rewrite Hr in R. vm_compute in R.
      now injection R as _ <-. }
    subst fls. exists fl, st2. split; [exact Hcall|]. split; [exact R|].
    pose proof (Hlater empty_state _ st2 [] R) as H.
    now rewrite Hr in H.
  - unfold fl in R. rewrite Hr in R. vm_compute in R. discriminate R.
Defined.

Lemma mutations_keep_record_in_step_witness :
  persisted saved_shelf
  /\ in_range saved_shelf
  /\ exists st',
       deleteBook never_throws "b1" saved_shelf = Done tt st'
       /\ books st' = [b2]
       /\ persisted st'.
Proof.
  assert (H : persisted saved_shelf) by (split; reflexivity).
  assert (Hn : in_range saved_shelf) by reflexivity.
  split; [exact H|]. split; [exact Hn|].
  destruct (deleteBook never_throws "b1" saved_shelf) as [[] st'| |] eqn:E;
    try (vm_compute in E; discriminate E).
  exists st'. split; [reflexivity|].
  split; [vm_compute in E; now injection E as <-|].
  exact (proj1 (proj1 (proj2 (mutations_keep_record_in_step never_throws
                                saved_shelf H Hn)) "b1" st' E)).
Defined.

Lemma init_loads_or_seeds_witness :
  loadBooks (with_stored_books "[]") = Done (JArr []) (with_stored_books "[]")
  /\ exists st',
       final (init (Some [b1; b2]) never_throws (with_stored_books "[]"))
       = Some st'
       /\ books st' = [b1; b2]
       /\ toasts st' = [welcome].
Proof.
  assert (H : loadBooks (with_stored_books "[]")
              = Done (JArr []) (with_stored_books "[]")) by reflexivity.
  split; [exact H|].
  destruct (init_loads_or_seeds (Some [b1; b2]) never_throws
              (with_stored_books "[]") [] H) as (st' & E & Hb & _ & Ht).
  exists st'. auto.
Defined.

Lemma reload_restores_collection_witness :
  persisted saved_shelf
  /\ exists st',
       final (init (Some [dune]) never_throws (reloaded saved_shelf))
       = Some st'
       /\ books st' = [b1; b2].
Proof.
  assert (H : persisted saved_shelf) by (split; reflexivity).
  split; [exact H|].
  destruct (reload_restores_collection (Some [dune]) never_throws saved_shelf H)
    as (st' & E & Hb & _).
  exists st'. auto.
Defined.

Lemma escapeAttr_is_injective_witness :
  escapeAttr (JStr "a<b") = escapeAttr (JStr "a<b") /\ "a<b" = "a<b".
Proof.
  assert (H : escapeAttr (JStr "a<b") = escapeAttr (JStr "a<b"))
    by reflexivity.
  split; [exact H|].
  exact (escapeAttr_is_injective "a<b" "a<b" H).
Defined.

Lemma untouched_edit_changes_nothing_witness :
  "b7" <> EmptyString
  /\ formStatus (edit_form "b7") <> EmptyString
  /\ truthy (JStr "2026-01-09") = true
  /\ safe_form (edit_form "b7") = true
  /\ findIndex "b7" (books solaris_state) = Ok (Some 0%nat)
  /\ nth_error (books solaris_state) 0 = Some solaris
  /\ exists f st',
       openEditForm solaris = Ok f
       /\ final (handleFormSubmit never_throws f "b99" "2026-11-02"
                   solaris_state) = Some st'
       /\ books st' = [solaris].
Proof.
  assert (H1 : "b7" <> EmptyString) by discriminate.
  assert (H2 : formStatus (edit_form "b7") <> EmptyString) by discriminate.
  assert (H3 : truthy (JStr "2026-01-09") = true) by reflexivity.
  assert (Hs : safe_form (edit_form "b7") = true) by reflexivity.
  assert (H4 : findIndex "b7" (books solaris_state) = Ok (Some 0%nat))
    by reflexivity.
  assert (H5 : nth_error (books solaris_state) 0 = Some solaris)
    by reflexivity.
  split; [exact H1|]. split; [exact H2|]. split; [exact H3|].
  split; [exact Hs|]. split; [exact H4|]. split; [exact H5|].
  destruct (untouched_edit_changes_nothing never_throws solaris_state 0
              (edit_form "b7") "b7" (JStr "2026-01-09") "b99" "2026-11-02"
              H1 H2 H3 Hs H4 H5) as (f & st' & Ef & E & Hb & _).
  exists f, st'. auto.
Defined.

Lemma delete_removes_the_id_witness :
  Forall (fun b => loose_eq_null b = false) (books shelf_state)
  /\ findIndex "b1" (books shelf_state) = Ok (Some 0%nat)
  /\ exists st',
       final (deleteBook never_throws "b1" shelf_state) = Some st'
       /\ books st' = [b2].
Proof.
  assert (H1 : Forall (fun b => loose_eq_null b = false) (books shelf_state))
    by (repeat constructor).
  assert (H2 : findIndex "b1" (books shelf_state) = Ok (Some 0%nat))
    by reflexivity.
  split; [exact H1|]. split; [exact H2|].
  destruct (delete_removes_the_id never_throws shelf_state "b1" 0 H1 H2)
    as (st' & E & Hb & _).
  exists st'. auto.
Defined.

Lemma merge_import_reports_file_size_witness :
  JSON.parse (import_text known_file) = Ok (JArr [b1_again])
  /\ importReplace known_file = false
  /\ mapM (fun b => get_prop b "id") (books shelf_state)
     = Ok [JStr "b1"; JStr "b2"]
  /\ Forall (fun x => exists i, get_prop x "id" = Ok i
                                /\ set_has [JStr "b1"; JStr "b2"] i = true)
       [b1_again]
  /\ never_throws (saved (books shelf_state) shelf_state) = None
  /\ exists st',
       doImport never_throws known_file shelf_state = Done tt st'
       /\ books st' = [b1; b2]
       /\ toasts st' = ["Imported 1 books"].
Proof.
  assert (H1 : JSON.parse (import_text known_file) = Ok (JArr [b1_again]))
    by (vm_compute; reflexivity).
  assert (H2 : importReplace known_file = false) by reflexivity.
  assert (H3 : mapM (fun b => get_prop b "id") (books shelf_state)
               = Ok [JStr "b1"; JStr "b2"]) by reflexivity.
  assert (H4 : Forall (fun x => exists i, get_prop x "id" = Ok i
                          /\ set_has [JStr "b1"; JStr "b2"] i = true)
                 [b1_again]).
  { repeat constructor. exists (JStr "b1"). split; reflexivity. }
  assert (H5 : never_throws (saved (books shelf_state) shelf_state) = None)
    by reflexivity.
  split; [exact H1|]. split; [exact H2|]. split; [exact H3|].
  split; [exact H4|]. split; [exact H5|].
  destruct (merge_import_reports_file_size never_throws known_file shelf_state
              _ _ H1 H2 H3 H4 H5) as (st' & E & Hb & Ht).
  exists st'. auto.
Defined.

Lemma failed_import_notice_after_replacement_witness :
  JSON.parse (import_text twice_b3) = Ok (JArr [b3; b3])
  /\ importReplace twice_b3 = true
  /\ always_throws (saved [b3; b3] shelf_state) = Some TypeError
  /\ exists st',
       doImport always_throws twice_b3 shelf_state = Done tt st'
       /\ books st' = [b3; b3]
       /\ toasts st' = [import_failed].
Proof.
  assert (H1 : JSON.parse (import_text twice_b3) = Ok (JArr [b3; b3]))
    by (vm_compute; reflexivity).
  assert (H2 : importReplace twice_b3 = true) by reflexivity.
  assert (H3 : always_throws (saved [b3; b3] shelf_state) = Some TypeError)
    by reflexivity.
  split; [exact H1|]. split; [exact H2|]. split; [exact H3|].
  destruct (failed_import_notice_after_replacement always_throws twice_b3
              shelf_state _ _ H1 H2 H3) as (st' & E & Hb & _ & Ht).
  exists st'. auto.
Defined.
Lemma array_cover_record_remembers_nothing_witness :
  loadCoverCache array_covers_state = Done (JArr []) array_covers_state
  /\ cover_key dune = Ok "Dune|||Frank Herbert"
  /\ exists r st1,
       fetchCoverForBook online dune array_covers_state = Done r st1
       /\ length (snd r) = 1%nat
       /\ exists r2,
            fetchCoverForBook online dune st1 = Done r2 st1
            /\ length (snd r2) = 1%nat.
Proof.
  assert (H1 : loadCoverCache array_covers_state
               = Done (JArr []) array_covers_state) by reflexivity.
  assert (H2 : cover_key dune = Ok "Dune|||Frank Herbert") by reflexivity.
  split; [exact H1|]. split; [exact H2|].
  destruct (fetchCoverForBook online dune array_covers_state)
    as [r st1| |] eqn:E; try (vm_compute in E; discriminate E).
  exists r, st1. split; [reflexivity|].
  destruct (array_cover_record_remembers_nothing online dune
              array_covers_state [] _ r st1 H1 H2 E) as (_ & _ & Hagain & _).
  split; [vm_compute in E; injection E as <- _; reflexivity|].
  specialize (Hagain online).
  destruct (strategies online dune) as [r2| |] eqn:Es;
    try (vm_compute in Es; discriminate Es).
  exists r2. split; [exact Hagain|].
  vm_compute in Es. injection Es as <-. reflexivity.
Defined.

Lemma primitive_cover_record_throws_witness :
  loadCoverCache number_covers_state = Done (JNum 5) number_covers_state
  /\ is_primitive (JNum 5) = true
  /\ cover_key dune = Ok "Dune|||Frank Herbert"
  /\ fetchCoverForBook online dune number_covers_state
     = Uncaught TypeError number_covers_state
  /\ createBookCard_cover dune number_covers_state
     = Uncaught TypeError number_covers_state.
Proof.
  assert (H1 : loadCoverCache number_covers_state
               = Done (JNum 5) number_covers_state) by reflexivity.
  assert (H2 : is_primitive (JNum 5) = true) by reflexivity.
  assert (H3 : cover_key dune = Ok "Dune|||Frank Herbert") by reflexivity.
  split; [exact H1|]. split; [exact H2|]. split; [exact H3|].
  destruct (primitive_cover_record_throws online dune number_covers_state
              _ _ H1 H2 H3) as [Hfetch Hcard].
  split; [exact Hfetch|]. exact (Hcard JUndefined eq_refl eq_refl).
Defined.

Lemma cover_lookup_leaves_collection_alone_witness :
  exists st1,
    final (fetchCoverForBook offline dune saved_shelf) = Some st1
    /\ books st1 = [b1; b2]
    /\ stored_books st1 = stored_books saved_shelf.
Proof.
  destruct (final (fetchCoverForBook offline dune saved_shelf))
    as [st1|] eqn:E; [|vm_compute in E; discriminate E].
  exists st1. split; [reflexivity|].
  destruct (cover_lookup_leaves_collection_alone offline dune saved_shelf
              st1 E) as (Hb & Hs & _).
  auto.
Defined.
Lemma added_book_is_found_witness :
  formBookId new_form = EmptyString
  /\ all_ids (books shelf_state) = Some ["b1"; "b2"]
  /\ id_fresh "b9" (books shelf_state) = true
  /\ exists st',
       final (handleFormSubmit never_throws new_form "b9" "2026-11-02"
                shelf_state) = Some st'
       /\ find "b9" (books st')
          = Ok (Some (bookData new_form "b9" (JStr "2026-11-02")))
       /\ findIndex "b2" (books st') = Ok (Some 1%nat).
Proof.
  assert (H1 : formBookId new_form = EmptyString) by reflexivity.
  assert (H2 : all_ids (books shelf_state) = Some ["b1"; "b2"])
    by reflexivity.
  assert (H3 : id_fresh "b9" (books shelf_state) = true) by reflexivity.
  split; [exact H1|]. split; [exact H2|]. split; [exact H3|].
  destruct (added_book_is_found never_throws shelf_state new_form "b9"
              "2026-11-02" _ H1 H2 H3) as (st' & E & _ & Hfind & _ & _ & Hold).
  exists st'. split; [exact E|]. split; [exact Hfind|].
  exact (Hold "b2" 1%nat eq_refl).
Defined.

Lemma unknown_status_is_listed_nowhere_witness :
  Forall (fun b => loose_eq_null b = false /\ status_in_enum b = false)
    [capitalised]
  /\ renderAll_buckets [capitalised] = Ok (mkBuckets [] [] [] [] [] [])
  /\ updateStats [capitalised] = Ok (mkStats 1 0 0).
Proof.
  assert (H : Forall (fun b => loose_eq_null b = false
                               /\ status_in_enum b = false) [capitalised])
    by (repeat constructor).
  split; [exact H|].
  exact (unknown_status_is_listed_nowhere [capitalised] H).
Defined.
